(** * dynablox: ever-free integration and the frame callback

    A shallow embedding of
    - [lidar_motion_detection/src/processing/ever_free_integrator.cpp]
    - [lidar_motion_detection/src/motion_detector.cpp]
    and the properties the design document states about them.

    Part I holds the embedding, Part II the lemmas and the theorems, and
    Part III further properties of the two files. *)

From stdpp Require Import base option list gmap strings.

Local Open Scope Z_scope.

(** * Part I: the embedding *)

(** ** Machine numbers *)

(** C++ [int]: 32 bit two's complement.  Signed overflow is undefined in
    C++; the model fixes the usual wrap-around, and the theorems that depend
    on arithmetic state the ranges they need. *)
Module Int.

Definition min_int : Z := - 2 ^ 31.
Definition max_int : Z := 2 ^ 31 - 1.

Definition in_range (z : Z) : Prop := min_int <= z <= max_int.

Definition wrap (z : Z) : Z := (z + 2 ^ 31) mod 2 ^ 32 - 2 ^ 31.

Definition sub (a b : Z) : Z := wrap (a - b).
Definition incr (a : Z) : Z := wrap (a + 1).

End Int.

(** IEEE-754 values by their bit patterns.  The program only compares
    floats, so the model decodes a pattern to a sign, an integer significand
    and a binary exponent and compares exactly. *)
Module Ieee.

Inductive fpval : Type :=
  | FNaN
  | FInf (neg : bool)
  | FFin (neg : bool) (m e : Z).

Definition signed (neg : bool) (m : Z) : Z := if neg then - m else m.

(** [(-1)^s1 * m1 * 2^e1] against [(-1)^s2 * m2 * 2^e2], both scaled to the
    smaller exponent. *)
Definition fin_compare (s1 : bool) (m1 e1 : Z) (s2 : bool) (m2 e2 : Z)
  : comparison :=
  let e := Z.min e1 e2 in
  (signed s1 m1 * 2 ^ (e1 - e) ?= signed s2 m2 * 2 ^ (e2 - e)).

(** [None]: unordered (a NaN operand). *)
Definition fp_compare (a b : fpval) : option comparison :=
  match a, b with
  | FNaN, _ | _, FNaN => None
  | FInf s1, FInf s2 =>
      Some (if s1 then (if s2 then Eq else Lt) else (if s2 then Gt else Eq))
  | FInf s1, FFin _ _ _ => Some (if s1 then Lt else Gt)
  | FFin _ _ _, FInf s2 => Some (if s2 then Gt else Lt)
  | FFin s1 m1 e1, FFin s2 m2 e2 => Some (fin_compare s1 m1 e1 s2 m2 e2)
  end.

Definition fp_lt (a b : fpval) : bool :=
  match fp_compare a b with Some Lt => true | _ => false end.

Definition fp_le (a b : fpval) : bool :=
  match fp_compare a b with Some Lt | Some Eq => true | _ => false end.

(** A pattern with [p] fraction bits and [w] exponent bits. *)
Definition decode (p w : Z) (bits : Z) : fpval :=
  let bias := 2 ^ (w - 1) - 1 in
  let s := (bits / 2 ^ (p + w)) mod 2 =? 1 in
  let ex := (bits / 2 ^ p) mod 2 ^ w in
  let fr := bits mod 2 ^ p in
  if ex =? 2 ^ w - 1 then (if fr =? 0 then FInf s else FNaN)
  else if ex =? 0 then FFin s fr (1 - bias - p)
  else FFin s (2 ^ p + fr) (ex - bias - p).

Definition decode32 : Z -> fpval := decode 23 8.
Definition decode64 : Z -> fpval := decode 52 11.

(** The [double] literal [1e-6]. *)
Definition double_1e_6 : fpval := decode64 0x3EB0C6F7A0B5ED8D.

End Ieee.

(** C++ [float], by its binary32 pattern. *)
Abbreviation f32 := Z (only parsing).

(** [a < b] on two floats. *)
Definition f32_lt (a b : f32) : bool :=
  Ieee.fp_lt (Ieee.decode32 a) (Ieee.decode32 b).

(** [w <= 1e-6] and [w < 1e-6]: the float is promoted to [double], which is
    exact, and compared with the [double] literal. *)
Definition f32_le_1e_6 (w : f32) : bool :=
  Ieee.fp_le (Ieee.decode32 w) Ieee.double_1e_6.

Definition f32_lt_1e_6 (w : f32) : bool :=
  Ieee.fp_lt (Ieee.decode32 w) Ieee.double_1e_6.

(** [1e-6 < w], the float promoted as above. *)
Definition f32_gt_1e_6 (w : f32) : bool :=
  Ieee.fp_lt Ieee.double_1e_6 (Ieee.decode32 w).

Definition f32_is_nan (w : f32) : bool :=
  match Ieee.decode32 w with Ieee.FNaN => true | _ => false end.

(** Bit patterns of [0.0f], [1.0f], [0.3f], [1e-6f], [5e-7f] and of a quiet
    NaN. *)
Definition f32_zero : f32 := 0x00000000.
Definition f32_one : f32 := 0x3F800000.
Definition f32_0_3 : f32 := 0x3E99999A.
Definition f32_1e_6 : f32 := 0x358637BD.
Definition f32_5e_7 : f32 := 0x350637BD.
Definition f32_nan : f32 := 0x7FC00000.

(** ** Loops over a state that may fail *)

(** [for (a : l) body], where a body that runs into undefined behaviour or
    throws gives [None] and ends the loop. *)
Fixpoint for_each {S A : Type} (body : S -> A -> option S) (l : list A)
    (s : S) : option S :=
  match l with
  | [] => Some s
  | a :: l' =>
      match body s a with
      | Some s' => for_each body l' s'
      | None => None
      end
  end.

(** A pool of [num_threads] workers that draw the entries of [indices] from
    one shared [IndexGetter] until it is exhausted.  Each entry is drawn
    once; with no worker nothing is drawn.  The workers of the ever-free
    labelling write [ever_free] in the block they drew and read only
    [weight] and [last_occupied] elsewhere, those of the index builder write
    the map of the block they drew and the classifications of its points;
    the model runs the entries in the order of the list. *)
Definition run_workers {S A : Type} (num_threads : Z)
    (body : S -> A -> option S) (indices : list A) (s : S) : option S :=
  if 0 <? num_threads then for_each body indices s else Some s.

(** ** The volumetric map *)

Abbreviation BlockIndex := (Z * Z * Z)%type (only parsing).
Abbreviation VoxelIndex := (Z * Z * Z)%type (only parsing).
Abbreviation VoxelKey := ((Z * Z * Z) * (Z * Z * Z))%type (only parsing).

(** Modelled from the spec: the declaration of [voxblox::TsdfVoxel] is not
    among the sources.  The record has the cell state of the design
    document's data model under the names the two source files use:
    [distance], [weight], [occ_counter], [last_occupied],
    [last_lidar_occupied], [ever_free], [dynamic], [clustering_processed]
    in the integrator, and [curr_occupied], [last_static], [moving] in the
    callback's own integration step. *)
Record TsdfVoxel : Type := mkVoxel {
  distance : f32;
  weight : f32;
  occ_counter : Z;
  last_occupied : Z;
  last_lidar_occupied : Z;
  ever_free : bool;
  dynamic : bool;
  clustering_processed : bool;
  curr_occupied : Z;
  last_static : Z;
  moving : bool
}.

Definition set_occ_counter (x : Z) (v : TsdfVoxel) : TsdfVoxel :=
  mkVoxel (distance v) (weight v) x (last_occupied v)
    (last_lidar_occupied v) (ever_free v) (dynamic v)
    (clustering_processed v) (curr_occupied v) (last_static v) (moving v).

Definition set_last_occupied (x : Z) (v : TsdfVoxel) : TsdfVoxel :=
  mkVoxel (distance v) (weight v) (occ_counter v) x
    (last_lidar_occupied v) (ever_free v) (dynamic v)
    (clustering_processed v) (curr_occupied v) (last_static v) (moving v).

Definition set_ever_free (x : bool) (v : TsdfVoxel) : TsdfVoxel :=
  mkVoxel (distance v) (weight v) (occ_counter v) (last_occupied v)
    (last_lidar_occupied v) x (dynamic v)
    (clustering_processed v) (curr_occupied v) (last_static v) (moving v).

Definition set_dynamic (x : bool) (v : TsdfVoxel) : TsdfVoxel :=
  mkVoxel (distance v) (weight v) (occ_counter v) (last_occupied v)
    (last_lidar_occupied v) (ever_free v) x
    (clustering_processed v) (curr_occupied v) (last_static v) (moving v).

Definition set_clustering_processed (x : bool) (v : TsdfVoxel) : TsdfVoxel :=
  mkVoxel (distance v) (weight v) (occ_counter v) (last_occupied v)
    (last_lidar_occupied v) (ever_free v) (dynamic v)
    x (curr_occupied v) (last_static v) (moving v).

Definition set_curr_occupied (x : Z) (v : TsdfVoxel) : TsdfVoxel :=
  mkVoxel (distance v) (weight v) (occ_counter v) (last_occupied v)
    (last_lidar_occupied v) (ever_free v) (dynamic v)
    (clustering_processed v) x (last_static v) (moving v).

Definition set_last_static (x : Z) (v : TsdfVoxel) : TsdfVoxel :=
  mkVoxel (distance v) (weight v) (occ_counter v) (last_occupied v)
    (last_lidar_occupied v) (ever_free v) (dynamic v)
    (clustering_processed v) (curr_occupied v) x (moving v).

Definition set_moving (x : bool) (v : TsdfVoxel) : TsdfVoxel :=
  mkVoxel (distance v) (weight v) (occ_counter v) (last_occupied v)
    (last_lidar_occupied v) (ever_free v) (dynamic v)
    (clustering_processed v) (curr_occupied v) (last_static v) x.

(** A block: its voxels by linear index and the [Update::kEsdf] bit of
    [updated()], which the integrator uses to track ever-free work. *)
Record Block : Type := mkBlock {
  voxels : list TsdfVoxel;
  updated_esdf : bool
}.

(** The layer: a hash map from block index to block.  The blocks live in the
    layer and the code reaches them through pointers, so every write below
    goes back into the layer. *)
Abbreviation Layer := (gmap (Z * Z * Z) Block) (only parsing).

(** Modelled from the spec: the accessors of [voxblox::Layer] and
    [voxblox::Block] that the two files call are outside the sources.  They
    follow the interface of the design document (section 6): blocks may be
    absent, a block holds [voxels_per_side^3] voxels addressed by a linear
    index or by a local index triple, and an access outside the block is
    undefined ([None]). *)
Module Voxblox.

Definition getBlockPtrByIndex (layer : Layer) (block_index : BlockIndex)
  : option Block := layer !! block_index.

Definition hasBlock (layer : Layer) (block_index : BlockIndex) : bool :=
  bool_decide (is_Some (layer !! block_index)).

Definition isValidVoxelIndex (voxels_per_side : nat) (index : VoxelIndex)
  : bool :=
  let '(x, y, z) := index in
  let n := Z.of_nat voxels_per_side in
  (0 <=? x) && (x <? n) && (0 <=? y) && (y <? n) && (0 <=? z) && (z <? n).

Definition computeLinearIndexFromVoxelIndex (voxels_per_side : nat)
    (index : VoxelIndex) : nat :=
  let '(x, y, z) := index in
  let n := Z.of_nat voxels_per_side in
  Z.to_nat (x + n * (y + z * n)).

Definition computeVoxelIndexFromLinearIndex (voxels_per_side : nat)
    (linear_index : nat) : VoxelIndex :=
  let z := (linear_index / (voxels_per_side * voxels_per_side))%nat in
  let rem := (linear_index mod (voxels_per_side * voxels_per_side))%nat in
  let y := (rem / voxels_per_side)%nat in
  let x := (rem mod voxels_per_side)%nat in
  (Z.of_nat x, Z.of_nat y, Z.of_nat z).

Definition getVoxelByLinearIndex (block : Block) (index : nat)
  : option TsdfVoxel := voxels block !! index.

Definition getVoxelByVoxelIndex (voxels_per_side : nat) (block : Block)
    (index : VoxelIndex) : option TsdfVoxel :=
  if isValidVoxelIndex voxels_per_side index
  then voxels block !! computeLinearIndexFromVoxelIndex voxels_per_side index
  else None.

(** The blocks whose [kEsdf] bit is set, in the iteration order of the
    layer's hash map. *)
Definition getAllUpdatedBlocks (layer : Layer) : list BlockIndex :=
  (map_to_list (filter (fun kb => updated_esdf kb.2 = true) layer)).*1.

(** Writing through a [TsdfVoxel&] obtained from the block at
    [block_index]. *)
Definition setVoxel (layer : Layer) (block_index : BlockIndex) (index : nat)
    (voxel : TsdfVoxel) : Layer :=
  alter (fun block =>
           mkBlock (<[index := voxel]> (voxels block)) (updated_esdf block))
        block_index layer.

(** [block->updated().reset(Update::kEsdf)]. *)
Definition resetUpdatedEsdf (layer : Layer) (block_index : BlockIndex)
  : Layer :=
  alter (fun block => mkBlock (voxels block) false) block_index layer.

(** The voxel a key names, if its block is allocated. *)
Definition voxelAt (voxels_per_side : nat) (layer : Layer) (key : VoxelKey)
  : option TsdfVoxel :=
  block ← layer !! key.1;
  getVoxelByVoxelIndex voxels_per_side block key.2.

End Voxblox.

(** Modelled from the spec: [NeighborhoodSearch] is declared in
    [common/neighborhood_search.h], outside the sources.  After section 4.1
    of the design document: the neighbours of a cell for connectivity 6, 18
    or 26 (face, face and edge, face, edge and corner), found from the
    absolute cell coordinate, with the owning block derived again for
    coordinates that leave the block. *)
Module NeighborhoodSearch.

Definition directions : list (Z * Z * Z) :=
  dx ← [-1; 0; 1]; dy ← [-1; 0; 1]; dz ← [-1; 0; 1]; [(dx, dy, dz)].

Definition manhattan (d : Z * Z * Z) : Z :=
  let '(dx, dy, dz) := d in Z.abs dx + Z.abs dy + Z.abs dz.

Definition offsets (connectivity : Z) : list (Z * Z * Z) :=
  let reach :=
    if connectivity =? 6 then 1
    else if connectivity =? 18 then 2
    else if connectivity =? 26 then 3
    else 0 in
  filter (fun d => 1 <= manhattan d <= reach) directions.

Definition neighbor (voxels_per_side : nat) (block_index : BlockIndex)
    (voxel_index : VoxelIndex) (offset : Z * Z * Z) : VoxelKey :=
  let n := Z.of_nat voxels_per_side in
  let '(bx, by_, bz) := block_index in
  let '(vx, vy, vz) := voxel_index in
  let '(dx, dy, dz) := offset in
  let gx := bx * n + vx + dx in
  let gy := by_ * n + vy + dy in
  let gz := bz * n + vz + dz in
  ((gx / n, gy / n, gz / n), (gx mod n, gy mod n, gz mod n)).

Definition search (connectivity : Z) (block_index : BlockIndex)
    (voxel_index : VoxelIndex) (voxels_per_side : nat) : list VoxelKey :=
  neighbor voxels_per_side block_index voxel_index <$> offsets connectivity.

End NeighborhoodSearch.

(** ** [ever_free_integrator.cpp] *)

Module EverFreeIntegrator.

Import Voxblox.

Record Config : Type := mkConfig {
  counter_to_reset : Z;
  temporal_buffer : Z;
  burn_in_period : Z;
  tsdf_occupancy_threshold : f32;
  neighbor_connectivity : Z;
  num_threads : Z
}.

(** [Config::checkParams]: [true] when every check passes. *)
Definition checkParams (c : Config) : bool :=
  ((neighbor_connectivity c =? 6) || (neighbor_connectivity c =? 18)
   || (neighbor_connectivity c =? 26))
  && (1 <=? num_threads c)
  && (0 <=? temporal_buffer c).

(** The members of the class.  [tsdf_layer_] points to the map shared with
    the rest of the program, so the layer is passed through the methods
    instead; [voxel_size_] is never read by them. *)
Record t : Type := mkIntegrator {
  config_ : Config;
  neighborhood_search_ : BlockIndex -> VoxelIndex -> nat -> list VoxelKey;
  voxels_per_side_ : nat
}.

Definition voxels_per_block_ (this : t) : nat :=
  (voxels_per_side_ this * voxels_per_side_ this * voxels_per_side_ this)%nat.

(** The constructor, for a layer with [voxels_per_side] cells per block
    edge: [None] when [config.checkValid()] fails. *)
Definition new (config : Config) (voxels_per_side : nat) : option t :=
  if checkParams config
  then Some (mkIntegrator config
               (NeighborhoodSearch.search (neighbor_connectivity config))
               voxels_per_side)
  else None.

(** [updateOccupancyCounter] *)
Definition updateOccupancyCounter (this : t) (voxel : TsdfVoxel)
    (frame_counter : Z) : TsdfVoxel :=
  let voxel :=
    if last_occupied voxel
       >=? Int.sub frame_counter (temporal_buffer (config_ this))
    then set_occ_counter (Int.incr (occ_counter voxel)) voxel
    else set_occ_counter 1 voxel in
  set_last_occupied frame_counter voxel.

(** [voxel.ever_free = false; voxel.dynamic = false;] *)
Definition removeAttributes (voxel : TsdfVoxel) : TsdfVoxel :=
  set_dynamic false (set_ever_free false voxel).

(** [getVoxelByVoxelIndex] on the block at [block_index], followed by the two
    assignments. *)
Definition removeAttributesAt (this : t) (layer : Layer)
    (block_index : BlockIndex) (voxel_index : VoxelIndex) : option Layer :=
  block ← getBlockPtrByIndex layer block_index;
  voxel ← getVoxelByVoxelIndex (voxels_per_side_ this) block voxel_index;
  Some (setVoxel layer block_index
          (computeLinearIndexFromVoxelIndex (voxels_per_side_ this)
             voxel_index)
          (removeAttributes voxel)).

(** [removeEverFree].  The block at [block_index] is dereferenced without a
    test: on a missing block the behaviour is undefined ([None]). *)
Definition removeEverFree (this : t) (layer : Layer)
    (block_index : BlockIndex) (voxel_index : VoxelIndex) : option Layer :=
  layer ← removeAttributesAt this layer block_index voxel_index;
  let neighbors :=
    neighborhood_search_ this block_index voxel_index
      (voxels_per_side_ this) in
  for_each
    (fun (layer : Layer) (neighbor_key : VoxelKey) =>
       if decide (neighbor_key.1 = block_index) then
         removeAttributesAt this layer block_index neighbor_key.2
       else
         match getBlockPtrByIndex layer neighbor_key.1 with
         | None => Some layer
         | Some _ =>
             removeAttributesAt this layer neighbor_key.1 neighbor_key.2
         end)
    neighbors layer.

(** Lines 63 to 71: the occupancy counter and the [dynamic] flag of one
    voxel. *)
Definition updateVoxel (this : t) (tsdf_voxel : TsdfVoxel)
    (frame_counter : Z) : TsdfVoxel :=
  let tsdf_voxel :=
    if f32_lt (distance tsdf_voxel)
         (tsdf_occupancy_threshold (config_ this))
       || (last_lidar_occupied tsdf_voxel =? frame_counter)
    then updateOccupancyCounter this tsdf_voxel frame_counter
    else tsdf_voxel in
  if last_lidar_occupied tsdf_voxel
     <? Int.sub frame_counter (temporal_buffer (config_ this))
  then set_dynamic false tsdf_voxel
  else tsdf_voxel.

(** The body of the loop over the linear indices of an updated block. *)
Definition updateEverFreeVoxels_body (this : t) (frame_counter : Z)
    (block_index : BlockIndex) (layer : Layer) (index : nat)
  : option Layer :=
  tsdf_block ← getBlockPtrByIndex layer block_index;
  tsdf_voxel ← getVoxelByLinearIndex tsdf_block index;
  let tsdf_voxel := updateVoxel this tsdf_voxel frame_counter in
  let layer := setVoxel layer block_index index tsdf_voxel in
  if occ_counter tsdf_voxel >=? counter_to_reset (config_ this) then
    removeEverFree this layer block_index
      (computeVoxelIndexFromLinearIndex (voxels_per_side_ this) index)
  else Some layer.

(** The first loop of [updateEverFreeVoxels]. *)
Definition removeOccupied (this : t) (frame_counter : Z)
    (updated_blocks : list BlockIndex) (layer : Layer) : option Layer :=
  for_each
    (fun (layer : Layer) (block_index : BlockIndex) =>
       match getBlockPtrByIndex layer block_index with
       | None => Some layer
       | Some _ =>
           for_each (updateEverFreeVoxels_body this frame_counter block_index)
             (seq 0 (voxels_per_block_ this)) layer
       end)
    updated_blocks layer.

(** The scan of the neighbourhood in [makeEverFree]: [Some true] when the
    loop leaves through a [break], [Some false] when it runs to its end.
    [tsdf_block] is the block being labelled. *)
Fixpoint neighborOccupiedOrUnobserved (this : t) (layer : Layer)
    (block_index : BlockIndex) (tsdf_block : Block) (frame_counter : Z)
    (neighbors : list VoxelKey) : option bool :=
  match neighbors with
  | [] => Some false
  | neighbor_key :: rest =>
      let neighbor_block :=
        if decide (neighbor_key.1 = block_index) then Some tsdf_block
        else getBlockPtrByIndex layer neighbor_key.1 in
      match neighbor_block with
      | None => Some true
      | Some neighbor_block =>
          neighbor_voxel ←
            getVoxelByVoxelIndex (voxels_per_side_ this) neighbor_block
              neighbor_key.2;
          if f32_lt_1e_6 (weight neighbor_voxel)
             || (last_occupied neighbor_voxel
                 >? Int.sub frame_counter (burn_in_period (config_ this)))
          then Some true
          else neighborOccupiedOrUnobserved this layer block_index
                 tsdf_block frame_counter rest
      end
  end.

(** The body of the loop over the voxels in [makeEverFree]. *)
Definition makeEverFree_body (this : t) (frame_counter : Z)
    (block_index : BlockIndex) (layer : Layer) (index : nat)
  : option Layer :=
  tsdf_block ← getBlockPtrByIndex layer block_index;
  tsdf_voxel ← getVoxelByLinearIndex tsdf_block index;
  if ever_free tsdf_voxel
     || f32_le_1e_6 (weight tsdf_voxel)
     || (last_occupied tsdf_voxel
         >? Int.sub frame_counter (burn_in_period (config_ this)))
  then Some layer
  else
    let voxel_index :=
      computeVoxelIndexFromLinearIndex (voxels_per_side_ this) index in
    let neighbors :=
      neighborhood_search_ this block_index voxel_index
        (voxels_per_side_ this) in
    neighbor_occupied_or_unobserved ←
      neighborOccupiedOrUnobserved this layer block_index tsdf_block
        frame_counter neighbors;
    if (neighbor_occupied_or_unobserved : bool) then Some layer
    else Some (setVoxel layer block_index index
                 (set_ever_free true tsdf_voxel)).

(** [makeEverFree] *)
Definition makeEverFree (this : t) (layer : Layer)
    (block_index : BlockIndex) (frame_counter : Z) : option Layer :=
  match getBlockPtrByIndex layer block_index with
  | None => Some layer
  | Some _ =>
      layer ← for_each (makeEverFree_body this frame_counter block_index)
                (seq 0 (voxels_per_block_ this)) layer;
      Some (resetUpdatedEsdf layer block_index)
  end.

(** [updateEverFreeVoxels] *)
Definition updateEverFreeVoxels (this : t) (layer : Layer)
    (frame_counter : Z) : option Layer :=
  let updated_blocks := getAllUpdatedBlocks layer in
  layer ← removeOccupied this frame_counter updated_blocks layer;
  run_workers (num_threads (config_ this))
    (fun (layer : Layer) (index : BlockIndex) =>
       makeEverFree this layer index frame_counter)
    updated_blocks layer.

End EverFreeIntegrator.

(** ** [motion_detector.cpp] *)

Module Pcl.

(** [pcl::PointXYZ] *)
Record PointXYZ : Type := mkPoint { x : f32; y : f32; z : f32 }.

End Pcl.

Abbreviation Cloud := (list Pcl.PointXYZ) (only parsing).

(** [voxblox::HierarchicalIndexIntMap]: index triple to point indices. *)
Abbreviation HierarchicalIndexIntMap := (gmap (Z * Z * Z) (list nat))
  (only parsing).

Module MotionDetector.

Import Voxblox.

(** Modelled from the spec: [PointInfo] and [CloudInfo] are declared in
    [common/types.h], outside the sources.  One record per input point with
    the three flags of the design document's point classification record,
    under the names the callback uses. *)
Record PointInfo : Type := mkPointInfo {
  filtered_out : bool;
  EverFree_level_dynamic : bool;
  cluster_level_dynamic : bool
}.

Record CloudInfo : Type := mkCloudInfo { points : list PointInfo }.

(** [sensor_msgs::PointCloud2], as far as the callback reads it. *)
Record PointCloud2 : Type := mkMsg {
  frame_id : string;
  stamp : Z;
  data : Cloud
}.

Record Config : Type := mkConfig {
  global_frame_name : string;
  sensor_frame_name : string;
  evaluate : bool;
  visualize : bool;
  num_threads : Z;
  occ_counter_to_reset : Z;
  transform_timeout : f32
}.

(** The objects the detector shares by pointer with its collaborators: the
    map, the classification of the current cloud and the clusters. *)
Record Shared (Clusters : Type) : Type := mkShared {
  tsdf_layer_ : Layer;
  point_classifications_ : CloudInfo;
  current_clusters_ : Clusters
}.
Arguments mkShared {Clusters}.
Arguments tsdf_layer_ {Clusters}.
Arguments point_classifications_ {Clusters}.
Arguments current_clusters_ {Clusters}.

(** The collaborators outside the sources, by the calls the file makes: the
    transform listener, [Preprocessing], the geometry of the layer,
    [Clustering], the TSDF server, and the three methods that
    [everFreeIntegrationStep] calls on [ever_free_integrator_]
    ([updateOccupancyCounter] with a pointer, [RemoveEverFree] with a frame
    counter, [MakeEverFree]), which the integrator among the sources does
    not have under these signatures.  Each is an arbitrary function of what
    it is handed. *)
Record Collaborators : Type := mkCollaborators {
  StampedTransform : Type;
  Clusters : Type;
  (** [tf_listener_.waitForTransform] and [tf_listener_.lookupTransform];
      the latter gives [None] when it throws [tf::TransformException]. *)
  tf_waitForTransform : string -> string -> Z -> f32 -> bool;
  tf_lookupTransform : string -> string -> Z -> option StampedTransform;
  processPointcloud : PointCloud2 -> StampedTransform -> Cloud * CloudInfo;
  computeBlockIndexFromCoordinates : Pcl.PointXYZ -> BlockIndex;
  (** [tsdf_block->computeVoxelIndexFromCoordinates] for the block at the
      given index. *)
  computeVoxelIndexFromCoordinates : BlockIndex -> Pcl.PointXYZ -> VoxelIndex;
  (** The value of the float expression [3 * voxel_size / 2]. *)
  three_halves_voxel_size : f32;
  VoxelClustering :
    list VoxelKey -> Z -> Shared Clusters ->
    list (list VoxelKey) * Shared Clusters;
  InducePointClusters :
    gmap (Z * Z * Z) nat -> list HierarchicalIndexIntMap -> Cloud ->
    list (list VoxelKey) -> Shared Clusters ->
    list (list nat) * Shared Clusters;
  applyClusterLevelFilters : Shared Clusters -> Shared Clusters;
  setClusterLevelDynamicFlagOfallPoints : Shared Clusters -> Shared Clusters;
  processPointCloudMessageAndInsert :
    PointCloud2 -> StampedTransform -> Layer -> Layer;
  updateOccupancyCounter :
    EverFreeIntegrator.t -> TsdfVoxel -> Z -> TsdfVoxel;
  RemoveEverFree :
    EverFreeIntegrator.t -> Layer -> BlockIndex -> VoxelIndex -> Z ->
    option Layer;
  MakeEverFree :
    EverFreeIntegrator.t -> Layer -> BlockIndex -> Z -> option Layer
}.

(** The members of the class that the callback and its helpers use. *)
Record t (E : Collaborators) : Type := mkDetector {
  config_ : Config;
  ever_free_integrator_ : EverFreeIntegrator.t;
  voxels_per_side_ : nat;
  frame_counter_ : Z;
  shared_ : Shared (Clusters E)
}.
Arguments mkDetector {E}.
Arguments config_ {E}.
Arguments ever_free_integrator_ {E}.
Arguments voxels_per_side_ {E}.
Arguments frame_counter_ {E}.
Arguments shared_ {E}.

Definition voxels_per_block_ {E} (this : t E) : nat :=
  (voxels_per_side_ this * voxels_per_side_ this * voxels_per_side_ this)%nat.

Definition set_frame_counter_ {E} (x : Z) (this : t E) : t E :=
  mkDetector (config_ this) (ever_free_integrator_ this)
    (voxels_per_side_ this) x (shared_ this).

Definition set_shared_ {E} (x : Shared (Clusters E)) (this : t E) : t E :=
  mkDetector (config_ this) (ever_free_integrator_ this)
    (voxels_per_side_ this) (frame_counter_ this) x.

Definition set_tsdf_layer_ {C : Type} (x : Layer) (s : Shared C) : Shared C :=
  mkShared x (point_classifications_ s) (current_clusters_ s).

Definition set_point_classifications_ {C : Type} (x : CloudInfo) (s : Shared C)
  : Shared C :=
  mkShared (tsdf_layer_ s) x (current_clusters_ s).

(** [lookupTransform]: the [bool] result and the out-parameter together. *)
Definition lookupTransform {E} (this : t E)
    (target_frame source_frame : string) (timestamp : Z)
  : option (StampedTransform E) :=
  if negb (tf_waitForTransform E target_frame source_frame timestamp
             (transform_timeout (config_ this)))
  then None
  else tf_lookupTransform E target_frame source_frame timestamp.

(** Lines 262 to 272: the occupancy counter and the [moving] flag of one
    voxel. *)
Definition updateVoxel {E} (this : t E) (tsdf_voxel : TsdfVoxel)
  : TsdfVoxel :=
  let tsdf_voxel :=
    if f32_lt (distance tsdf_voxel) (three_halves_voxel_size E)
       || (curr_occupied tsdf_voxel =? frame_counter_ this)
    then set_last_static (frame_counter_ this)
           (updateOccupancyCounter E (ever_free_integrator_ this)
              tsdf_voxel (frame_counter_ this))
    else tsdf_voxel in
  if curr_occupied tsdf_voxel <? Int.sub (frame_counter_ this) 2
  then set_moving false tsdf_voxel
  else tsdf_voxel.

(** The body of the loop over the linear indices in
    [everFreeIntegrationStep].  The block pointer is not tested. *)
Definition everFreeIntegrationStep_body {E} (this : t E)
    (block_index : BlockIndex) (layer : Layer) (linear_index : nat)
  : option Layer :=
  tsdf_block ← getBlockPtrByIndex layer block_index;
  tsdf_voxel ← getVoxelByLinearIndex tsdf_block linear_index;
  let voxel_idx :=
    computeVoxelIndexFromLinearIndex (voxels_per_side_ this) linear_index in
  let tsdf_voxel := updateVoxel this tsdf_voxel in
  let layer := setVoxel layer block_index linear_index tsdf_voxel in
  if occ_counter tsdf_voxel =? occ_counter_to_reset (config_ this) then
    RemoveEverFree E (ever_free_integrator_ this) layer block_index
      voxel_idx (frame_counter_ this)
  else Some layer.

(** The first loop of [everFreeIntegrationStep]. *)
Definition everFreeIntegrationStep_remove {E} (this : t E)
    (updated_blocks : list BlockIndex) (layer : Layer) : option Layer :=
  for_each
    (fun (layer : Layer) (block_index : BlockIndex) =>
       for_each (everFreeIntegrationStep_body this block_index)
         (seq 0 (voxels_per_block_ this)) layer)
    updated_blocks layer.

(** [everFreeIntegrationStep], on the layer. *)
Definition everFreeIntegrationStep {E} (this : t E) (layer : Layer)
  : option Layer :=
  let updated_blocks := getAllUpdatedBlocks layer in
  match updated_blocks with
  | [] => Some layer
  | _ =>
      layer ← everFreeIntegrationStep_remove this updated_blocks layer;
      run_workers (num_threads (config_ this))
        (fun (layer : Layer) (index : BlockIndex) =>
           MakeEverFree E (ever_free_integrator_ this) layer index
             (frame_counter_ this))
        updated_blocks layer
  end.

(** [map[key].push_back(i)] *)
Definition push_back_at (key : Z * Z * Z) (i : nat)
    (map : HierarchicalIndexIntMap) : HierarchicalIndexIntMap :=
  <[key := default [] (map !! key) ++ [i]]> map.

(** [buildBlock2PointMap] *)
Definition buildBlock2PointMap (E : Collaborators) (all_points : Cloud)
    (block2points_map : HierarchicalIndexIntMap) : HierarchicalIndexIntMap :=
  (foldl
     (fun (acc : HierarchicalIndexIntMap * nat) (point : Pcl.PointXYZ) =>
        let blockindex := computeBlockIndexFromCoordinates E point in
        (push_back_at blockindex acc.2 acc.1, S acc.2))
     (block2points_map, 0%nat) all_points).1.

Definition set_EverFree_level_dynamic (x : bool) (p : PointInfo)
  : PointInfo :=
  mkPointInfo (filtered_out p) x (cluster_level_dynamic p).

Definition set_filtered_out (x : bool) (p : PointInfo) : PointInfo :=
  mkPointInfo x (EverFree_level_dynamic p) (cluster_level_dynamic p).

(** [BlockwiseBuildVoxel2PointMap], on the block's [voxel_map] and the
    classifications.  [all_points[i]] and [getVoxelByVoxelIndex] outside
    their ranges are undefined and [points.at(i)] throws there (all
    [None]); the test of [tsdf_voxel] against [nullptr] compares the address
    of a reference and never holds. *)
Definition BlockwiseBuildVoxel2PointMap {E} (this : t E) (layer : Layer)
    (blockindex : BlockIndex) (block2points_map : HierarchicalIndexIntMap)
    (all_points : Cloud)
    (st : HierarchicalIndexIntMap * CloudInfo)
  : option (HierarchicalIndexIntMap * CloudInfo) :=
  let pointsInBlock := default [] (block2points_map !! blockindex) in
  if negb (hasBlock layer blockindex) then Some st
  else
    tsdf_block ← getBlockPtrByIndex layer blockindex;
    for_each
      (fun (st : HierarchicalIndexIntMap * CloudInfo) (i : nat) =>
         point ← all_points !! i;
         let voxel_index :=
           computeVoxelIndexFromCoordinates E blockindex point in
         tsdf_voxel ←
           getVoxelByVoxelIndex (voxels_per_side_ this) tsdf_block
             voxel_index;
         let voxel_map := push_back_at voxel_index i st.1 in
         if ever_free tsdf_voxel then
           info ← points st.2 !! i;
           Some (voxel_map,
                 mkCloudInfo
                   (<[i := set_EverFree_level_dynamic true info]>
                      (points st.2)))
         else Some (voxel_map, st.2))
      pointsInBlock st.

(** The last loop of [setUpVoxel2PointMap], for one entry of a block's
    voxel map. *)
Definition markOccupied {E} (this : t E) (block_index : BlockIndex)
    (st : Layer * list VoxelKey) (voxel_index : VoxelIndex)
  : option (Layer * list VoxelKey) :=
  match getBlockPtrByIndex st.1 block_index with
  | None => Some st
  | Some tsdf_block =>
      if negb (isValidVoxelIndex (voxels_per_side_ this) voxel_index)
      then Some st
      else
        tsdf_voxel ←
          getVoxelByVoxelIndex (voxels_per_side_ this) tsdf_block
            voxel_index;
        let layer :=
          setVoxel st.1 block_index
            (computeLinearIndexFromVoxelIndex (voxels_per_side_ this)
               voxel_index)
            (set_clustering_processed false
               (set_curr_occupied (frame_counter_ this) tsdf_voxel)) in
        Some (layer,
              if ever_free tsdf_voxel
              then st.2 ++ [(block_index, voxel_index)]
              else st.2)
  end.

(** What [setUpVoxel2PointMap] hands to the clustering. *)
Record Voxel2PointMap : Type := mkVoxel2PointMap {
  block2index_hash : gmap (Z * Z * Z) nat;
  blockwise_voxel2point_map : list HierarchicalIndexIntMap;
  occupied_ever_free_voxel_indices : list VoxelKey
}.

(** [setUpVoxel2PointMap] *)
Definition setUpVoxel2PointMap {E} (this : t E) (all_points : Cloud)
  : option (Voxel2PointMap * Shared (Clusters E)) :=
  let sh := shared_ this in
  let block2points_map := buildBlock2PointMap E all_points ∅ in
  let indices : list BlockIndex := (map_to_list block2points_map).*1 in
  let block2index_hash : gmap (Z * Z * Z) nat :=
    list_to_map (zip indices (seq 0 (length indices))) in
  let blockwise : list HierarchicalIndexIntMap :=
    replicate (length indices) ∅ in
  built ←
    run_workers (num_threads (config_ this))
      (fun (st : list HierarchicalIndexIntMap * CloudInfo)
           (index : BlockIndex) =>
         let k := default 0%nat (block2index_hash !! index) in
         voxel_map ← st.1 !! k;
         r ← BlockwiseBuildVoxel2PointMap this (tsdf_layer_ sh) index
               block2points_map all_points (voxel_map, st.2);
         Some (<[k := r.1]> st.1, r.2))
      indices (blockwise, point_classifications_ sh);
  marked ←
    for_each
      (fun (st : Layer * list VoxelKey) (block_index : BlockIndex) =>
         voxel_map ←
           built.1 !! default 0%nat (block2index_hash !! block_index);
         for_each (markOccupied this block_index)
           (map_to_list voxel_map).*1 st)
      indices (tsdf_layer_ sh, []);
  Some (mkVoxel2PointMap block2index_hash built.1 marked.2,
        mkShared marked.1 built.2 (current_clusters_ sh)).

(** [clusteringStep] *)
Definition clusteringStep {E} (this : t E) (maps : Voxel2PointMap)
    (all_points : Cloud) (sh : Shared (Clusters E)) : Shared (Clusters E) :=
  let '(voxel_cluster_ind, sh) :=
    VoxelClustering E (occupied_ever_free_voxel_indices maps)
      (frame_counter_ this) sh in
  let '(cluster_ind, sh) :=
    InducePointClusters E (block2index_hash maps)
      (blockwise_voxel2point_map maps) all_points voxel_cluster_ind sh in
  let sh := applyClusterLevelFilters E sh in
  setClusterLevelDynamicFlagOfallPoints E sh.

(** The loop at the end of the callback: [filtered_out] from
    [cluster_level_dynamic], by [points.at(i)], which throws outside the
    vector ([None]). *)
Definition filterOut (cloud : Cloud) (info : CloudInfo) : option CloudInfo :=
  (for_each
     (fun (st : list PointInfo * nat) (point : Pcl.PointXYZ) =>
        p ← st.1 !! st.2;
        Some (if cluster_level_dynamic p
              then <[st.2 := set_filtered_out true p]> st.1
              else st.1,
              S st.2))
     cloud (points info, 0%nat))
  ≫= fun st => Some (mkCloudInfo st.1).

(** *** The callback *)

(** The calls [pointcloudCallback] makes, as they appear in its trace. *)
Inductive Call : Type :=
  | CallLookupTransform
  | CallProcessPointcloud
  | CallSetUpVoxel2PointMap
  | CallClusteringStep
  | CallEverFreeIntegrationStep
  | CallEvalStep
  | CallVisualizationStep
  | CallFilterOut
  | CallTsdfIntegration.

(** How a callback ends before its last statement: a [return], or an
    exception or undefined behaviour in a helper. *)
Inductive Exit : Type := Returned | Aborted.

(** Computations of the callback: the detector is threaded through and every
    call is appended to the trace. *)
Definition M (E : Collaborators) (A : Type) : Type :=
  t E -> list Call -> (Exit + A) * t E * list Call.

#[global] Instance M_ret {E} : MRet (M E) :=
  fun A a this trace => (inr a, this, trace).

#[global] Instance M_bind {E} : MBind (M E) :=
  fun A B k m this trace =>
    match m this trace with
    | (inl e, this', trace') => (inl e, this', trace')
    | (inr a, this', trace') => k a this' trace'
    end.

Definition get {E} : M E (t E) :=
  fun this trace => (inr this, this, trace).

Definition modify {E} (f : t E -> t E) : M E unit :=
  fun this trace => (inr (), f this, trace).

Definition modify_shared {E}
    (f : Shared (Clusters E) -> Shared (Clusters E)) : M E unit :=
  modify (fun this => set_shared_ (f (shared_ this)) this).

Definition exit {E A} (e : Exit) : M E A :=
  fun this trace => (inl e, this, trace).

Definition orAbort {E A} (o : option A) : M E A :=
  match o with
  | Some a => mret a
  | None => exit Aborted
  end.

(** A call statement: the call enters the trace, then its effect runs. *)
Definition stage {E A} (c : Call) (effect : M E A) : M E A :=
  fun this trace => effect this (trace ++ [c]).

(** The sensor frame the callback looks up: the configured one, or the one
    of the message when none is configured. *)
Definition sensorFrameName (config : Config) (msg : PointCloud2) : string :=
  if decide (sensor_frame_name config = EmptyString)
  then frame_id msg
  else sensor_frame_name config.

(** [pointcloudCallback] *)
Definition pointcloudCallback {E} (msg : PointCloud2) : M E unit :=
  _ ← modify (fun this =>
                set_frame_counter_ (Int.incr (frame_counter_ this)) this);
  this ← get;
  found ← stage CallLookupTransform
            (mret (lookupTransform this (global_frame_name (config_ this))
                     (sensorFrameName (config_ this) msg) (stamp msg)));
  match found with
  | None => exit Returned
  | Some T_M_S =>
      processed ← stage CallProcessPointcloud
                    (mret (processPointcloud E msg T_M_S));
      let cloud : Cloud := processed.1 in
      _ ← modify_shared (set_point_classifications_ processed.2);
      maps ← stage CallSetUpVoxel2PointMap
               (this ← get;
                r ← orAbort (setUpVoxel2PointMap this cloud);
                _ ← modify_shared (fun _ => r.2);
                mret r.1);
      _ ← stage CallClusteringStep
            (this ← get;
             modify_shared (clusteringStep this maps cloud));
      _ ← stage CallEverFreeIntegrationStep
            (this ← get;
             layer ← orAbort (everFreeIntegrationStep this
                            (tsdf_layer_ (shared_ this)));
             modify_shared (set_tsdf_layer_ layer));
      _ ← (if evaluate (config_ this)
           then stage CallEvalStep (mret ())
           else mret ());
      _ ← (if visualize (config_ this)
           then stage CallVisualizationStep (mret ())
           else mret ());
      _ ← stage CallFilterOut
            (this ← get;
             info ← orAbort (filterOut cloud
                           (point_classifications_ (shared_ this)));
             modify_shared (set_point_classifications_ info));
      stage CallTsdfIntegration
        (modify_shared
           (fun sh =>
              set_tsdf_layer_
                (processPointCloudMessageAndInsert E msg T_M_S
                   (tsdf_layer_ sh))
                sh))
  end.

(** Running the callback on a detector, from an empty trace. *)
Definition run {E} (this : t E) (msg : PointCloud2)
  : (Exit + unit) * t E * list Call :=
  pointcloudCallback msg this [].

(** The four stages of the design document among the calls: the index
    builder, the clustering, the ever-free integration and the derivation of
    [filtered_out]. *)
Definition is_stage (c : Call) : bool :=
  match c with
  | CallSetUpVoxel2PointMap | CallClusteringStep
  | CallEverFreeIntegrationStep | CallFilterOut => true
  | _ => false
  end.

Definition stages (trace : list Call) : list Call := filter is_stage trace.

(** The order of the stages as section 4.5 of the design document lists
    them. *)
Definition documented_order : list Call :=
  [CallSetUpVoxel2PointMap; CallEverFreeIntegrationStep;
   CallClusteringStep; CallFilterOut].

(** The calls of a callback that runs to its end. *)
Definition full_trace (config : Config) : list Call :=
  [CallLookupTransform; CallProcessPointcloud; CallSetUpVoxel2PointMap;
   CallClusteringStep; CallEverFreeIntegrationStep]
  ++ (if evaluate config then [CallEvalStep] else [])
  ++ (if visualize config then [CallVisualizationStep] else [])
  ++ [CallFilterOut; CallTsdfIntegration].

End MotionDetector.

(** ** Concrete inputs *)

Module Examples.

Import Voxblox.

(** Three frames to retract, a buffer of two frames, five frames of burn-in,
    an occupancy threshold of [0.3f], 6-connectivity, one worker. *)
Definition config : EverFreeIntegrator.Config :=
  EverFreeIntegrator.mkConfig 3 2 5 f32_0_3 6 1.

(** An integrator over a layer whose blocks hold a single voxel, so that the
    six neighbours of a voxel are the voxels of the six adjacent blocks. *)
Definition integrator : EverFreeIntegrator.t :=
  EverFreeIntegrator.mkIntegrator config
    (NeighborhoodSearch.search 6) 1.

(** An observed voxel far from any surface that was never occupied. *)
Definition free_voxel : TsdfVoxel :=
  mkVoxel f32_one f32_one 0 0 0 false false false 0 0 false.

(** A voxel inside a surface, occupied in each of the frames 8, 9 and 10. *)
Definition occupied_voxel : TsdfVoxel :=
  mkVoxel f32_zero f32_one 2 9 10 true true false 0 0 false.

Definition block_of (v : TsdfVoxel) (updated : bool) : Block :=
  mkBlock [v] updated.

Definition cross : list (Z * Z * Z) :=
  [(-1, 0, 0); (1, 0, 0); (0, -1, 0); (0, 1, 0); (0, 0, -1); (0, 0, 1)].

(** The block at the origin holds [centre] and is marked updated; its six
    neighbours hold [around] and are not. *)
Definition layer_of (centre around : TsdfVoxel) : Layer :=
  <[(0, 0, 0) := block_of centre true]>
    (list_to_map ((fun b => (b, block_of around false)) <$> cross)).

(** A voxel that was occupied for five frames up to frame 3 and has been
    free since; it is ever-free again and its counter still stands at 5. *)
Definition stale_counter_voxel : TsdfVoxel :=
  mkVoxel f32_one f32_one 5 3 3 true false false 3 0 false.

Definition ever_free_voxel : TsdfVoxel := set_ever_free true free_voxel.

(** The same with both motion flags set. *)
Definition flagged_voxel : TsdfVoxel :=
  set_moving true (set_dynamic true stale_counter_voxel).

(** Modelled from the spec: the integrator that [everFreeIntegrationStep]
    calls is not among the sources; in the examples its three methods are
    the operations of section 4.3 of the design document, that is the ones
    of [ever_free_integrator.cpp].  The other collaborators do as little as
    possible: the transform is there or not as [tf_available] says, every
    point lies in the voxel at the origin, the clustering takes the seed set
    as one cluster and stamps every point dynamic when there is a seed, and
    the TSDF integration leaves the map alone. *)
Definition no_flags : MotionDetector.PointInfo :=
  MotionDetector.mkPointInfo false false false.

Definition stamp_dynamic (p : MotionDetector.PointInfo)
  : MotionDetector.PointInfo :=
  MotionDetector.mkPointInfo (MotionDetector.filtered_out p)
    (MotionDetector.EverFree_level_dynamic p) true.

Definition collaborators (tf_available : bool)
  : MotionDetector.Collaborators :=
  MotionDetector.mkCollaborators unit unit
    (fun _ _ _ _ => tf_available)
    (fun _ _ _ => Some tt)
    (fun msg _ =>
       (MotionDetector.data msg,
        MotionDetector.mkCloudInfo
          ((fun _ => no_flags) <$> MotionDetector.data msg)))
    (fun _ => (0, 0, 0))
    (fun _ _ => (0, 0, 0))
    f32_0_3
    (fun seeds _ sh =>
       ([seeds],
        match seeds with
        | [] => sh
        | _ =>
            MotionDetector.set_point_classifications_
              (MotionDetector.mkCloudInfo
                 (stamp_dynamic <$>
                    MotionDetector.points
                      (MotionDetector.point_classifications_ sh)))
              sh
        end))
    (fun _ _ _ _ sh => ([], sh))
    (fun sh => sh)
    (fun sh => sh)
    (fun _ _ layer => layer)
    EverFreeIntegrator.updateOccupancyCounter
    (fun integrator layer block_index voxel_index _ =>
       EverFreeIntegrator.removeEverFree integrator layer block_index
         voxel_index)
    EverFreeIntegrator.makeEverFree.

Definition detector_config : MotionDetector.Config :=
  MotionDetector.mkConfig "map" "" false false 1 3 f32_one.

(** A detector at frame 9 over [layer]. *)
Definition detector (tf_available : bool) (layer : Layer)
  : MotionDetector.t (collaborators tf_available) :=
  @MotionDetector.mkDetector (collaborators tf_available) detector_config
    integrator 1 9
    (MotionDetector.mkShared layer (MotionDetector.mkCloudInfo []) tt).

(** A message with a single point. *)
Definition message : MotionDetector.PointCloud2 :=
  MotionDetector.mkMsg "lidar" 1000
    [Pcl.mkPoint f32_zero f32_zero f32_zero].

End Examples.

(** ** Predicates on maps *)

Module Inv.

Import Voxblox.

(** Every allocated block holds [n^3] voxels. *)
Definition layer_wf (n : nat) (layer : Layer) : Prop :=
  map_Forall (fun (_ : BlockIndex) (B : Block) =>
                length (voxels B) = (n * n * n)%nat) layer.

(** The neighbourhood search names cells by valid local indices. *)
Definition search_valid (this : EverFreeIntegrator.t) : Prop :=
  forall (b : BlockIndex) (v : VoxelIndex) (k : VoxelKey),
    isValidVoxelIndex (EverFreeIntegrator.voxels_per_side_ this) v = true ->
    k ∈ EverFreeIntegrator.neighborhood_search_ this b v
          (EverFreeIntegrator.voxels_per_side_ this) ->
    isValidVoxelIndex (EverFreeIntegrator.voxels_per_side_ this) k.2 = true.

(** Two layers with the same blocks, related block by block: the update bits
    by [Rf] and the voxels, index by index, by [Rv]. *)
Definition block_rel (Rf : relation bool) (Rv : relation TsdfVoxel)
    (B B' : Block) : Prop :=
  Rf (updated_esdf B) (updated_esdf B') /\
  Forall2 Rv (voxels B) (voxels B').

Definition layer_rel (Rf : relation bool) (Rv : relation TsdfVoxel)
    (layer layer' : Layer) : Prop :=
  forall b : BlockIndex,
    option_Forall2 (block_rel Rf Rv) (layer !! b) (layer' !! b).

(** What the first loop of the update may do to a voxel: it never writes
    [distance], [weight] and [last_lidar_occupied], and it only ever clears
    [dynamic] and [ever_free]. *)
Definition retracts (v v' : TsdfVoxel) : Prop :=
  distance v' = distance v /\
  weight v' = weight v /\
  last_lidar_occupied v' = last_lidar_occupied v /\
  (dynamic v = false -> dynamic v' = false) /\
  (ever_free v = false -> ever_free v' = false).

(** What the labelling may do to a voxel: write [ever_free]. *)
Definition labels (v v' : TsdfVoxel) : Prop :=
  v' = set_ever_free (ever_free v') v.

(** What the whole update keeps of a voxel. *)
Definition evolves (v v' : TsdfVoxel) : Prop :=
  distance v' = distance v /\
  weight v' = weight v /\
  last_lidar_occupied v' = last_lidar_occupied v /\
  (dynamic v = false -> dynamic v' = false).

(** An update bit that is only ever reset. *)
Definition flag_le (f f' : bool) : Prop := f = false -> f' = false.

(** The voxel at a linear index of the block at [b]. *)
Definition voxelAtLinear (layer : Layer) (b : BlockIndex) (i : nat)
  : option TsdfVoxel :=
  B ← layer !! b; voxels B !! i.

End Inv.

(** ** The conditions of the labelling, as the design document words them *)

Module Promotion.

Import Voxblox.

Section Conditions.

Variable this : EverFreeIntegrator.t.
Variable frame_counter : Z.

(** Observed: the weight is above the near-zero threshold, that is the test
    [weight <= 1e-6] of the source fails. *)
Definition observed (v : TsdfVoxel) : Prop :=
  f32_le_1e_6 (weight v) = false.

(** Unoccupied for at least [burn_in_period] frames. *)
Definition unoccupied (v : TsdfVoxel) : Prop :=
  frame_counter - last_occupied v
  >= EverFreeIntegrator.burn_in_period (EverFreeIntegrator.config_ this).

(** The neighbour named by [k] exists, is observed and has been unoccupied
    for the burn-in period. *)
Definition neighbor_clear (layer : Layer) (k : VoxelKey) : Prop :=
  exists nv,
    voxelAt (EverFreeIntegrator.voxels_per_side_ this) layer k = Some nv /\
    observed nv /\ unoccupied nv.

(** The right-hand side of the promotion rule for the voxel [v] at linear
    index [i] of the block at [b]. *)
Definition eligible (layer : Layer) (b : BlockIndex) (i : nat)
    (v : TsdfVoxel) : Prop :=
  observed v /\ unoccupied v /\ ever_free v = false /\
  forall k,
    k ∈ EverFreeIntegrator.neighborhood_search_ this b
          (computeVoxelIndexFromLinearIndex
             (EverFreeIntegrator.voxels_per_side_ this) i)
          (EverFreeIntegrator.voxels_per_side_ this) ->
    neighbor_clear layer k.

(** The voxel becomes ever-free: it was not, and it is. *)
Definition becomes_ever_free (v v' : TsdfVoxel) : Prop :=
  ever_free v = false /\ ever_free v' = true.

End Conditions.

End Promotion.

(** ** What the first loop of the update establishes *)

Module Retraction.

Import Voxblox.

Section Conditions.

Variable this : EverFreeIntegrator.t.
Variable frame_counter : Z.

(** The voxel a key names, if it exists in the map, has neither flag. *)
Definition cleared (layer : Layer) (k : VoxelKey) : Prop :=
  forall v,
    voxelAt (EverFreeIntegrator.voxels_per_side_ this) layer k = Some v ->
    ever_free v = false /\ dynamic v = false.

(** The voxel a key names is in the map and has neither flag. *)
Definition retracted (layer : Layer) (k : VoxelKey) : Prop :=
  exists v,
    voxelAt (EverFreeIntegrator.voxels_per_side_ this) layer k = Some v /\
    ever_free v = false /\ dynamic v = false.

(** Not sensor-occupied for more than [temporal_buffer] frames, as the
    source tests it. *)
Definition stale (v : TsdfVoxel) : Prop :=
  last_lidar_occupied v
  < Int.sub frame_counter
      (EverFreeIntegrator.temporal_buffer (EverFreeIntegrator.config_ this)).

(** A stale voxel at this place is not [dynamic]. *)
Definition settled (layer : Layer) (b : BlockIndex) (i : nat) : Prop :=
  forall v, Inv.voxelAtLinear layer b i = Some v -> stale v ->
            dynamic v = false.

End Conditions.

End Retraction.

(** ** What the operations leave alone *)

Module Frame.

Import Voxblox.

(** A voxel without its two flags [ever_free] and [dynamic]: two voxels with
    the same [unflag] agree on every other field. *)
Definition unflag (v : TsdfVoxel) : TsdfVoxel :=
  set_dynamic false (set_ever_free false v).

(** What [removeEverFree] may do to a voxel: clear [ever_free] and
    [dynamic], and nothing else. *)
Definition clears (v v' : TsdfVoxel) : Prop :=
  unflag v' = unflag v /\
  (dynamic v = false -> dynamic v' = false) /\
  (ever_free v = false -> ever_free v' = false).

(** What [makeEverFree] may do to a voxel: set [ever_free], and nothing
    else. *)
Definition promotes (v v' : TsdfVoxel) : Prop :=
  v' = set_ever_free (ever_free v') v /\
  (ever_free v = true -> ever_free v' = true).

(** The update bit of the block at [b], if the block is allocated. *)
Definition updatedBit (layer : Layer) (b : BlockIndex) : option bool :=
  updated_esdf <$> layer !! b.

(** The places [removeEverFree] writes: the voxel and its neighbours, by
    block and linear index. *)
Definition removalFootprint (this : EverFreeIntegrator.t)
    (block_index : BlockIndex) (voxel_index : VoxelIndex)
  : list (BlockIndex * nat) :=
  (fun k : VoxelKey =>
     (k.1, computeLinearIndexFromVoxelIndex
             (EverFreeIntegrator.voxels_per_side_ this) k.2))
  <$> ((block_index, voxel_index)
       :: EverFreeIntegrator.neighborhood_search_ this block_index
            voxel_index (EverFreeIntegrator.voxels_per_side_ this)).

(** The voxels away from the places of [footprint] are the same in both
    layers. *)
Definition unchangedOutside (footprint : list (BlockIndex * nat))
    (layer layer' : Layer) : Prop :=
  forall (b : BlockIndex) (j : nat),
    (b, j) ∉ footprint ->
    Inv.voxelAtLinear layer' b j = Inv.voxelAtLinear layer b j.

(** The labelling of a list of blocks, one after the other. *)
Definition labelBlocks (this : EverFreeIntegrator.t) (frame_counter : Z)
    (blocks : list BlockIndex) (layer : Layer) : option Layer :=
  for_each (fun (layer : Layer) (index : BlockIndex) =>
              EverFreeIntegrator.makeEverFree this layer index frame_counter)
    blocks layer.

(** Occupancy updates of one voxel in the frames of [frames], in order. *)
Definition occupyIn (this : EverFreeIntegrator.t) (frames : list Z)
    (voxel : TsdfVoxel) : TsdfVoxel :=
  foldl (EverFreeIntegrator.updateOccupancyCounter this) voxel frames.

(** The frames of [frames] follow frame [f] and one another at no more than
    [buffer] frames. *)
Fixpoint gapsWithin (buffer f : Z) (frames : list Z) : Prop :=
  match frames with
  | [] => True
  | g :: frames => g - f <= buffer /\ gapsWithin buffer g frames
  end.

(** What the last loop of the callback does to one classification
    record. *)
Definition filtered (p : MotionDetector.PointInfo)
  : MotionDetector.PointInfo :=
  if MotionDetector.cluster_level_dynamic p
  then MotionDetector.set_filtered_out true p else p.

End Frame.

(** ** What the index builder computes *)

Module PointIndex.

Import Voxblox MotionDetector.

(** The entry of a key after [push_back] of the elements of [l] on
    [map[key]]: the first [push_back] makes the entry. *)
Definition appended (old : option (list nat)) (l : list nat)
  : option (list nat) :=
  match l with
  | [] => old
  | _ => Some (default [] old ++ l)
  end.

(** The indices of the points of the cloud that fall into the block at
    [blockindex], in increasing order. *)
Definition pointsInBlock (E : Collaborators) (all_points : Cloud)
    (blockindex : BlockIndex) : list nat :=
  filter (fun i : nat =>
            computeBlockIndexFromCoordinates E <$> all_points !! i
            = Some blockindex)
    (seq 0 (length all_points)).

(** The voxel of the block at [blockindex] that the point at index [i]
    falls into. *)
Definition voxelIndexOf (E : Collaborators) (blockindex : BlockIndex)
    (all_points : Cloud) (i : nat) : option VoxelIndex :=
  computeVoxelIndexFromCoordinates E blockindex <$> all_points !! i.

(** The point at index [i] falls into an ever-free voxel of [block]. *)
Definition everFreeAt (E : Collaborators) (voxels_per_side : nat)
    (block : Block) (blockindex : BlockIndex) (all_points : Cloud)
    (i : nat) : bool :=
  match voxelIndexOf E blockindex all_points i
        ≫= getVoxelByVoxelIndex voxels_per_side block with
  | Some voxel => ever_free voxel
  | None => false
  end.

(** The voxel a point falls into, by block and local index. *)
Definition voxelKeyOf (E : Collaborators) (point : Pcl.PointXYZ)
  : VoxelKey :=
  let blockindex := computeBlockIndexFromCoordinates E point in
  (blockindex, computeVoxelIndexFromCoordinates E blockindex point).

(** The indices of the points of the cloud that fall into the voxel named
    by [key], in increasing order. *)
Definition pointsInVoxel (E : Collaborators) (all_points : Cloud)
    (key : VoxelKey) : list nat :=
  filter (fun i : nat => voxelKeyOf E <$> all_points !! i = Some key)
    (seq 0 (length all_points)).

(** The voxel named by [key] is allocated and ever-free. *)
Definition everFreeKey (voxels_per_side : nat) (layer : Layer)
    (key : VoxelKey) : bool :=
  match voxelAt voxels_per_side layer key with
  | Some voxel => ever_free voxel
  | None => false
  end.

(** The point at index [i] of the cloud falls into an ever-free voxel. *)
Definition pointEverFree (E : Collaborators) (voxels_per_side : nat)
    (layer : Layer) (all_points : Cloud) (i : nat) : bool :=
  match all_points !! i with
  | Some point => everFreeKey voxels_per_side layer (voxelKeyOf E point)
  | None => false
  end.

(** Some point of the cloud falls into the voxel at the linear index [j] of
    the block at [b]. *)
Definition occupiedAt (E : Collaborators) (voxels_per_side : nat)
    (all_points : Cloud) (b : BlockIndex) (j : nat) : bool :=
  bool_decide
    (Exists (fun point : Pcl.PointXYZ =>
               computeBlockIndexFromCoordinates E point = b /\
               computeLinearIndexFromVoxelIndex voxels_per_side
                 (computeVoxelIndexFromCoordinates E b point) = j)
       all_points).

(** What the last loop of [setUpVoxel2PointMap] writes to a voxel. *)
Definition occupiedNow (frame_counter : Z) (voxel : TsdfVoxel) : TsdfVoxel :=
  set_clustering_processed false (set_curr_occupied frame_counter voxel).

End PointIndex.

(** ** A cloud over a concrete map *)

Module Scene.

(** The single point of the message of the examples. *)
Definition cloud : Cloud := MotionDetector.data Examples.message.

Definition block2points_map : HierarchicalIndexIntMap :=
  {[ (0, 0, 0) := [0%nat] ]}.

Definition info : MotionDetector.CloudInfo :=
  MotionDetector.mkCloudInfo [Examples.no_flags].

(** The map whose voxel at the origin is ever-free, with free voxels
    around it. *)
Definition layer : Layer :=
  Examples.layer_of Examples.ever_free_voxel Examples.free_voxel.

(** The detector of the examples over this map, with one classification
    record for the point of the cloud. *)
Definition detector : MotionDetector.t (Examples.collaborators true) :=
  @MotionDetector.set_shared_ (Examples.collaborators true)
    (MotionDetector.mkShared layer info tt)
    (Examples.detector true layer).



End Scene.

(** * Part II: lemmas and theorems *)

(** ** Machine numbers *)

Lemma Int_wrap_in_range z : Int.in_range (Int.wrap z).
Proof.
  unfold Int.in_range, Int.wrap, Int.min_int, Int.max_int.
  pose proof (Z.mod_pos_bound (z + 2 ^ 31) (2 ^ 32)). lia.
Qed.

Lemma Int_wrap_id z : Int.in_range z -> Int.wrap z = z.
Proof.
  unfold Int.in_range, Int.wrap, Int.min_int, Int.max_int. intros Hz.
  rewrite Z.mod_small; lia.
Qed.

Lemma Int_sub_exact a b : Int.in_range (a - b) -> Int.sub a b = a - b.
Proof. apply Int_wrap_id. Qed.

Lemma Int_incr_exact a :
  Int.in_range a -> a < Int.max_int -> Int.incr a = a + 1.
Proof.
  unfold Int.incr, Int.in_range. intros Ha Hlt. apply Int_wrap_id.
  unfold Int.in_range. lia.
Qed.

Lemma double_1e_6_value :
  Ieee.double_1e_6 = Ieee.FFin false 4722366482869645 (-72).
Proof. reflexivity. Qed.

(** No binary32 value equals the [double] literal [1e-6]: its significand is
    odd and 53 bits wide. *)
Lemma fin_compare_1e_6_ne (s : bool) (m e : Z) :
  0 <= m < 2 ^ 24 ->
  Ieee.fin_compare s m e false 4722366482869645 (-72) <> Eq.
Proof.
  intros Hm. unfold Ieee.fin_compare. rewrite Z.compare_eq_iff.
  assert (Hs : - 2 ^ 24 < Ieee.signed s m < 2 ^ 24)
    by (destruct s; simpl; lia).
  destruct (Z.le_gt_cases e (-72)) as [Hle | Hgt].
  - rewrite Z.min_l by lia. rewrite Z.sub_diag. simpl (2 ^ 0).
    assert (0 < 2 ^ (-72 - e)) by (apply Z.pow_pos_nonneg; lia).
    cbn [Ieee.signed]. lia.
  - rewrite Z.min_r by lia. rewrite Z.sub_diag. simpl (2 ^ 0).
    replace (e - -72) with (Z.succ (e + 71)) by lia.
    rewrite Z.pow_succ_r by lia. cbn [Ieee.signed].
    set (q := 2 ^ (e + 71)).
    replace (Ieee.signed s m * (2 * q)) with (2 * (Ieee.signed s m * q))
      by ring.
    lia.
Qed.

(** Hence the test of the voxel itself, [weight <= 1e-6], and the test of
    its neighbours, [weight < 1e-6], agree on every [float]. *)
Lemma f32_le_lt_1e_6 (w : f32) : f32_le_1e_6 w = f32_lt_1e_6 w.
Proof.
  unfold f32_le_1e_6, f32_lt_1e_6. rewrite double_1e_6_value.
  unfold Ieee.decode32, Ieee.decode.
  set (s := (w / 2 ^ (23 + 8)) mod 2 =? 1).
  set (ex := (w / 2 ^ 23) mod 2 ^ 8).
  pose proof (Z.mod_pos_bound w (2 ^ 23) eq_refl) as Hfr.
  destruct (ex =? 2 ^ 8 - 1).
  { destruct (w mod 2 ^ 23 =? 0); [destruct s|]; reflexivity. }
  assert (Hne : forall m e, 0 <= m < 2 ^ 24 ->
    Ieee.fp_le (Ieee.FFin s m e) (Ieee.FFin false 4722366482869645 (-72)) =
    Ieee.fp_lt (Ieee.FFin s m e) (Ieee.FFin false 4722366482869645 (-72))).
  { intros m e Hm. unfold Ieee.fp_le, Ieee.fp_lt, Ieee.fp_compare.
    pose proof (fin_compare_1e_6_ne s m e Hm) as Hc.
    destruct (Ieee.fin_compare s m e false 4722366482869645 (-72));
      congruence. }
  destruct (ex =? 0); apply Hne; lia.
Qed.

(** The test [weight <= 1e-6] fails exactly on the weights above the
    threshold and on NaN, which compares false with everything. *)
Lemma f32_le_1e_6_false (w : f32) :
  f32_le_1e_6 w = false <-> f32_gt_1e_6 w = true \/ f32_is_nan w = true.
Proof.
  unfold f32_le_1e_6, f32_gt_1e_6, f32_is_nan.
  rewrite double_1e_6_value.
  unfold Ieee.fp_le, Ieee.fp_lt, Ieee.fp_compare.
  destruct (Ieee.decode32 w) as [|[]|s m e];
    try (intuition congruence).
  unfold Ieee.fin_compare. rewrite (Z.min_comm (-72) e).
  rewrite (Z.compare_antisym
             (Ieee.signed s m * 2 ^ (e - Z.min e (-72)))
             (Ieee.signed false 4722366482869645
              * 2 ^ (-72 - Z.min e (-72)))).
  destruct (Ieee.signed s m * 2 ^ (e - Z.min e (-72))
            ?= Ieee.signed false 4722366482869645
               * 2 ^ (-72 - Z.min e (-72))); simpl; intuition congruence.
Qed.

Example f32_5e_7_below : f32_le_1e_6 f32_5e_7 = true.
Proof. reflexivity. Qed.

Example f32_1e_6_below : f32_le_1e_6 f32_1e_6 = true.
Proof. reflexivity. Qed.

Example f32_nan_not_below :
  f32_le_1e_6 f32_nan = false /\ f32_lt_1e_6 f32_nan = false.
Proof. split; reflexivity. Qed.

Example f32_one_above : f32_le_1e_6 f32_one = false.
Proof. reflexivity. Qed.

Example f32_zero_lt_0_3 : f32_lt f32_zero f32_0_3 = true.
Proof. reflexivity. Qed.

Example f32_one_lt_0_3 : f32_lt f32_one f32_0_3 = false.
Proof. reflexivity. Qed.

(** ** The occupancy counter *)

Section OccupancyCounter.

Import EverFreeIntegrator.

Variable this : EverFreeIntegrator.t.

Let tb : Z := temporal_buffer (config_ this).

Lemma updateOccupancyCounter_last_occupied voxel f :
  last_occupied (updateOccupancyCounter this voxel f) = f.
Proof. reflexivity. Qed.

Lemma updateOccupancyCounter_occ_counter voxel f :
  occ_counter (updateOccupancyCounter this voxel f) =
  if last_occupied voxel >=? Int.sub f tb
  then Int.incr (occ_counter voxel) else 1.
Proof.
  unfold updateOccupancyCounter. fold tb.
  destruct (last_occupied voxel >=? Int.sub f tb); reflexivity.
Qed.

(** C3.  For every voxel and every occupancy update at frame [f] whose
    arithmetic stays within [int] (the subtraction [f - temporal_buffer] and
    the increment of the counter): if [f - last_occupied > temporal_buffer]
    the counter is reset to exactly 1, and otherwise it is incremented by
    exactly 1. *)
Theorem C3_counter_reset_law (voxel : TsdfVoxel) (f : Z) :
  Int.in_range (f - tb) ->
  Int.in_range (occ_counter voxel) ->
  occ_counter voxel < Int.max_int ->
  let voxel' := updateOccupancyCounter this voxel f in
  (f - last_occupied voxel > tb -> occ_counter voxel' = 1) /\
  (~ f - last_occupied voxel > tb ->
   occ_counter voxel' = occ_counter voxel + 1).
Proof.
  intros Hsub Hocc Hmax voxel'. subst voxel'.
  rewrite updateOccupancyCounter_occ_counter.
  rewrite (Int_sub_exact _ _ Hsub), (Int_incr_exact _ Hocc Hmax).
  split; intros H;
    destruct (Z.geb_spec (last_occupied voxel) (f - tb)); lia.
Qed.

(** C10.  [updateOccupancyCounter] leaves [last_occupied] equal to the
    frame counter of the update in both branches, and a counter that was
    not negative (and below [INT_MAX]) is at least 1 afterwards. *)
Theorem C10_update_sets_last_occupied (voxel : TsdfVoxel) (f : Z) :
  0 <= occ_counter voxel < Int.max_int ->
  let voxel' := updateOccupancyCounter this voxel f in
  last_occupied voxel' = f /\ 1 <= occ_counter voxel'.
Proof.
  intros Hocc voxel'. subst voxel'. split; [reflexivity|].
  rewrite updateOccupancyCounter_occ_counter.
  destruct (last_occupied voxel >=? Int.sub f tb); [|lia].
  rewrite Int_incr_exact; unfold Int.in_range, Int.min_int, Int.max_int in *;
    lia.
Qed.

End OccupancyCounter.

Lemma C3_counter_reset_law_witness :
  let this := Examples.integrator in
  let voxel := Examples.occupied_voxel in
  (10 - last_occupied voxel <= 2 /\
   occ_counter (EverFreeIntegrator.updateOccupancyCounter this voxel 10) = 3)
  /\
  (13 - last_occupied voxel > 2 /\
   occ_counter (EverFreeIntegrator.updateOccupancyCounter this voxel 13) = 1).
Proof.
  split.
  - split; [simpl; lia|].
    apply (C3_counter_reset_law Examples.integrator Examples.occupied_voxel
             10); vm_compute; intuition congruence.
  - split; [simpl; lia|].
    apply (C3_counter_reset_law Examples.integrator Examples.occupied_voxel
             13); vm_compute; intuition congruence.
Defined.

Lemma C10_update_sets_last_occupied_witness :
  let voxel' :=
    EverFreeIntegrator.updateOccupancyCounter Examples.integrator
      Examples.free_voxel 7 in
  last_occupied voxel' = 7 /\ 1 <= occ_counter voxel'.
Proof.
  apply (C10_update_sets_last_occupied Examples.integrator
           Examples.free_voxel 7).
  vm_compute. intuition congruence.
Defined.

(** ** Loops *)

Section ForEach.

Context {S A : Type} (body : S -> A -> option S).

(** A loop whose body keeps an invariant indexed by the entries already
    visited runs to its end and establishes the invariant for the whole
    list. *)
Lemma for_each_prefix_inv (I : list A -> S -> Prop) (l : list A) (s : S) :
  I [] s ->
  (forall pre a post s,
      l = pre ++ a :: post -> I pre s ->
      exists s', body s a = Some s' /\ I (pre ++ [a]) s') ->
  exists s', for_each body l s = Some s' /\ I l s'.
Proof.
  intros Hinit Hstep.
  assert (Hgen : forall post pre s,
             l = pre ++ post -> I pre s ->
             exists s', for_each body post s = Some s' /\ I l s').
  { induction post as [|a post IH]; intros pre s0 Hl Hpre.
    - rewrite app_nil_r in Hl. subst pre. eauto.
    - destruct (Hstep pre a post s0 Hl Hpre) as (s1 & Hb & H1).
      simpl. rewrite Hb. apply (IH (pre ++ [a])); [|done].
      by rewrite <- app_assoc. }
  by apply (Hgen l []).
Qed.

(** A loop whose body keeps a relation to the state the loop started from,
    with a property that each entry establishes and the later entries
    keep. *)
Lemma for_each_stable (R : relation S) `{!PreOrder R}
    (Q : A -> S -> Prop) (l : list A) (s : S) :
  (forall a s1 s2, Q a s1 -> R s1 s2 -> Q a s2) ->
  (forall a s1, a ∈ l -> R s s1 ->
                exists s2, body s1 a = Some s2 /\ R s1 s2 /\ Q a s2) ->
  exists s', for_each body l s = Some s' /\ R s s' /\
             forall a, a ∈ l -> Q a s'.
Proof.
  intros Hstable Hstep.
  destruct (for_each_prefix_inv
              (fun pre s1 => R s s1 /\ forall a, a ∈ pre -> Q a s1) l s)
    as (s' & Hrun & HR & HQ).
  - split; [reflexivity|]. intros a Ha. by apply elem_of_nil in Ha.
  - intros pre a post s1 -> [HR HQ].
    destruct (Hstep a s1) as (s2 & Hb & HR2 & HQ2); [|done|].
    { apply elem_of_app. right. apply list_elem_of_here. }
    exists s2. split; [done|]. split; [by etrans|].
    intros a' [Ha'|Ha']%elem_of_app.
    + eapply Hstable; eauto.
    + apply list_elem_of_singleton in Ha'. by subst.
  - eauto.
Qed.

End ForEach.

(** ** Geometry of a block *)

Section Geometry.

Import Voxblox.

Variable n : nat.

Lemma linear_index_valid (index : VoxelIndex) :
  isValidVoxelIndex n index = true ->
  (computeLinearIndexFromVoxelIndex n index < n * n * n)%nat.
Proof.
  destruct index as [[x y] z]. unfold isValidVoxelIndex,
    computeLinearIndexFromVoxelIndex.
  rewrite !andb_true_iff, !Z.leb_le, !Z.ltb_lt. intros Hv.
  apply Nat2Z.inj_lt. rewrite Z2Nat.id by nia.
  rewrite !Nat2Z.inj_mul. nia.
Qed.

Lemma voxel_index_of_linear (i : nat) :
  (i < n * n * n)%nat ->
  isValidVoxelIndex n (computeVoxelIndexFromLinearIndex n i) = true /\
  computeLinearIndexFromVoxelIndex n (computeVoxelIndexFromLinearIndex n i)
  = i.
Proof.
  intros Hi. assert (Hn : (0 < n)%nat) by (destruct n; simpl in *; lia).
  unfold isValidVoxelIndex, computeVoxelIndexFromLinearIndex,
    computeLinearIndexFromVoxelIndex.
  set (z := (i / (n * n))%nat).
  set (r := (i mod (n * n))%nat).
  assert (Hz : (z < n)%nat).
  { apply Nat.Div0.div_lt_upper_bound. lia. }
  assert (Hr : (r < n * n)%nat) by (apply Nat.mod_upper_bound; nia).
  assert (Hy : (r / n < n)%nat).
  { apply Nat.Div0.div_lt_upper_bound. lia. }
  assert (Hx : (r mod n < n)%nat) by (apply Nat.mod_upper_bound; lia).
  split.
  - rewrite !andb_true_iff, !Z.leb_le, !Z.ltb_lt. lia.
  - pose proof (Nat.div_mod_eq i (n * n)) as Hi'. fold z r in Hi'.
    pose proof (Nat.div_mod_eq r n) as Hr'.
    rewrite <- !Nat2Z.inj_mul, <- !Nat2Z.inj_add, <- Nat2Z.inj_mul,
      <- Nat2Z.inj_add, Nat2Z.id.
    nia.
Qed.

End Geometry.

(** ** Related layers *)

Section LayerRel.

Import Voxblox Inv.

Context (Rf : relation bool) (Rv : relation TsdfVoxel).

#[local] Instance block_rel_preorder `{!PreOrder Rf, !PreOrder Rv} :
  PreOrder (block_rel Rf Rv).
Proof.
  split.
  - intros B. split; reflexivity.
  - intros B1 B2 B3 [Hf1 Hv1] [Hf2 Hv2]. split; by etrans.
Qed.

#[local] Instance layer_rel_preorder `{!PreOrder Rf, !PreOrder Rv} :
  PreOrder (layer_rel Rf Rv).
Proof.
  split.
  - intros L b. destruct (L !! b); constructor. reflexivity.
  - intros L1 L2 L3 H12 H23 b. specialize (H12 b). specialize (H23 b).
    destruct H12; inversion H23; subst; constructor. by etrans.
Qed.

Lemma layer_rel_lookup_l (L L' : Layer) (b : BlockIndex) (B : Block) :
  layer_rel Rf Rv L L' -> L !! b = Some B ->
  exists B', L' !! b = Some B' /\ block_rel Rf Rv B B'.
Proof.
  intros H Hb. specialize (H b). rewrite Hb in H. inversion H; subst. eauto.
Qed.

Lemma layer_rel_lookup_r (L L' : Layer) (b : BlockIndex) (B' : Block) :
  layer_rel Rf Rv L L' -> L' !! b = Some B' ->
  exists B, L !! b = Some B /\ block_rel Rf Rv B B'.
Proof.
  intros H Hb. specialize (H b). rewrite Hb in H. inversion H; subst. eauto.
Qed.

Lemma layer_rel_lookup_None (L L' : Layer) (b : BlockIndex) :
  layer_rel Rf Rv L L' -> L !! b = None <-> L' !! b = None.
Proof.
  intros H. specialize (H b). split; intros Hb; rewrite Hb in H;
    by inversion H.
Qed.

Lemma layer_rel_wf (n : nat) (L L' : Layer) :
  layer_rel Rf Rv L L' -> layer_wf n L -> layer_wf n L'.
Proof.
  intros H Hwf b B' Hb.
  destruct (layer_rel_lookup_r _ _ _ _ H Hb) as (B & HB & _ & Hv).
  rewrite <- (Forall2_length _ _ _ Hv). eauto.
Qed.

Lemma layer_rel_voxelAtLinear_l (L L' : Layer) (b : BlockIndex) (i : nat)
    (v : TsdfVoxel) :
  layer_rel Rf Rv L L' -> voxelAtLinear L b i = Some v ->
  exists v', voxelAtLinear L' b i = Some v' /\ Rv v v'.
Proof.
  unfold voxelAtLinear. intros H Hv.
  destruct (L !! b) as [B|] eqn:HB; [|done]. simpl in Hv.
  destruct (layer_rel_lookup_l _ _ _ _ H HB) as (B' & -> & _ & HF).
  simpl. eapply Forall2_lookup_l; eauto.
Qed.

Lemma layer_rel_voxelAtLinear_r (L L' : Layer) (b : BlockIndex) (i : nat)
    (v' : TsdfVoxel) :
  layer_rel Rf Rv L L' -> voxelAtLinear L' b i = Some v' ->
  exists v, voxelAtLinear L b i = Some v /\ Rv v v'.
Proof.
  unfold voxelAtLinear. intros H Hv.
  destruct (L' !! b) as [B'|] eqn:HB; [|done]. simpl in Hv.
  destruct (layer_rel_lookup_r _ _ _ _ H HB) as (B & -> & _ & HF).
  simpl. eapply Forall2_lookup_r; eauto.
Qed.

Lemma block_rel_getVoxelByVoxelIndex_l (n : nat) (B B' : Block)
    (k : VoxelIndex) (v : TsdfVoxel) :
  block_rel Rf Rv B B' -> getVoxelByVoxelIndex n B k = Some v ->
  exists v', getVoxelByVoxelIndex n B' k = Some v' /\ Rv v v'.
Proof.
  unfold getVoxelByVoxelIndex. intros [_ HF] Hv.
  destruct (isValidVoxelIndex n k); [|done].
  eapply Forall2_lookup_l; eauto.
Qed.

Lemma block_rel_getVoxelByVoxelIndex_None (n : nat) (B B' : Block)
    (k : VoxelIndex) :
  block_rel Rf Rv B B' -> getVoxelByVoxelIndex n B k = None ->
  getVoxelByVoxelIndex n B' k = None.
Proof.
  unfold getVoxelByVoxelIndex. intros [_ HF] Hv.
  destruct (isValidVoxelIndex n k); [|done].
  apply lookup_ge_None. rewrite <- (Forall2_length _ _ _ HF).
  by apply lookup_ge_None.
Qed.

Lemma layer_rel_voxelAt_l (n : nat) (L L' : Layer) (k : VoxelKey)
    (v : TsdfVoxel) :
  layer_rel Rf Rv L L' -> voxelAt n L k = Some v ->
  exists v', voxelAt n L' k = Some v' /\ Rv v v'.
Proof.
  unfold voxelAt. intros H Hv.
  destruct (L !! k.1) as [B|] eqn:HB; [|done]. simpl in Hv.
  destruct (layer_rel_lookup_l _ _ _ _ H HB) as (B' & -> & HBB).
  simpl. eapply block_rel_getVoxelByVoxelIndex_l; eauto.
Qed.

Lemma layer_rel_voxelAt_r (n : nat) (L L' : Layer) (k : VoxelKey)
    (v' : TsdfVoxel) :
  layer_rel Rf Rv L L' -> voxelAt n L' k = Some v' ->
  exists v, voxelAt n L k = Some v /\ Rv v v'.
Proof.
  unfold voxelAt. intros H Hv.
  destruct (L' !! k.1) as [B'|] eqn:HB; [|done]. simpl in Hv.
  destruct (layer_rel_lookup_r _ _ _ _ H HB) as (B & -> & HBB).
  simpl. destruct (getVoxelByVoxelIndex n B k.2) as [v|] eqn:Hk.
  - destruct (block_rel_getVoxelByVoxelIndex_l _ _ _ _ _ HBB Hk)
      as (v'' & Hv'' & HR). exists v. split; [done|]. congruence.
  - rewrite (block_rel_getVoxelByVoxelIndex_None _ _ _ _ HBB Hk) in Hv.
    done.
Qed.

(** Writing a related voxel gives a related layer. *)
Lemma layer_rel_setVoxel `{!Reflexive Rf, !Reflexive Rv}
    (L : Layer) (b : BlockIndex) (i : nat) (v v' : TsdfVoxel) :
  voxelAtLinear L b i = Some v -> Rv v v' ->
  layer_rel Rf Rv L (setVoxel L b i v').
Proof.
  unfold voxelAtLinear, setVoxel. intros Hv HR b'.
  rewrite lookup_alter. case_decide as Hb; [subst b'|].
  - destruct (L !! b) as [B|]; [|constructor]. simpl in *.
    constructor. split; [done|]. simpl.
    apply Forall2_same_length_lookup. split; [by rewrite length_insert|].
    intros j x y Hx Hy. destruct (decide (i = j)) as [->|Hne].
    + rewrite list_lookup_insert_eq in Hy by (by eapply lookup_lt_Some).
      congruence.
    + rewrite list_lookup_insert_ne in Hy by done.
      assert (x = y) as -> by congruence. reflexivity.
  - destruct (L !! b'); constructor. split; reflexivity.
Qed.

Lemma layer_rel_resetUpdatedEsdf `{!Reflexive Rf, !Reflexive Rv}
    (L : Layer) (b : BlockIndex) :
  (forall f, Rf f false) -> layer_rel Rf Rv L (resetUpdatedEsdf L b).
Proof.
  unfold resetUpdatedEsdf. intros HRf b'.
  rewrite lookup_alter. case_decide as Hb; [subst b'|].
  - destruct (L !! b) as [B|]; constructor. split; [apply HRf|].
    simpl. reflexivity.
  - destruct (L !! b'); constructor. split; reflexivity.
Qed.

End LayerRel.

#[local] Existing Instance layer_rel_preorder.

Lemma layer_rel_mono (Rf Rf' : relation bool) (Rv Rv' : relation TsdfVoxel)
    (L L' : Layer) :
  (forall f f', Rf f f' -> Rf' f f') ->
  (forall v v', Rv v v' -> Rv' v v') ->
  Inv.layer_rel Rf Rv L L' -> Inv.layer_rel Rf' Rv' L L'.
Proof.
  intros Hf Hv H b. destruct (H b) as [B B' [HBf HBv]|]; constructor.
  split; [by apply Hf|]. eapply Forall2_impl; eauto.
Qed.

(** Reading back what was written. *)
Lemma voxelAtLinear_setVoxel_eq (L : Layer) (b : BlockIndex) (i : nat)
    (v v' : TsdfVoxel) :
  Inv.voxelAtLinear L b i = Some v ->
  Inv.voxelAtLinear (Voxblox.setVoxel L b i v') b i = Some v'.
Proof.
  unfold Inv.voxelAtLinear, Voxblox.setVoxel. intros Hv.
  rewrite lookup_alter_eq. destruct (L !! b) as [B|]; [|done]. simpl in *.
  apply list_lookup_insert_eq. by eapply lookup_lt_Some.
Qed.

Lemma voxelAtLinear_voxelAt (n : nat) (L : Layer) (b : BlockIndex)
    (vi : VoxelIndex) :
  Voxblox.isValidVoxelIndex n vi = true ->
  Voxblox.voxelAt n L (b, vi) =
  Inv.voxelAtLinear L b (Voxblox.computeLinearIndexFromVoxelIndex n vi).
Proof.
  intros Hvalid. unfold Voxblox.voxelAt, Inv.voxelAtLinear,
    Voxblox.getVoxelByVoxelIndex. simpl. by rewrite Hvalid.
Qed.

Lemma voxelAtLinear_is_Some (n : nat) (L : Layer) (b : BlockIndex)
    (B : Block) (i : nat) :
  Inv.layer_wf n L -> L !! b = Some B -> (i < n * n * n)%nat ->
  is_Some (Inv.voxelAtLinear L b i).
Proof.
  intros Hwf HB Hi. unfold Inv.voxelAtLinear. rewrite HB. simpl.
  apply lookup_lt_is_Some_2. by rewrite (Hwf _ _ HB).
Qed.

#[local] Instance retracts_preorder : PreOrder Inv.retracts.
Proof.
  split.
  - intros v. unfold Inv.retracts. tauto.
  - intros v1 v2 v3. unfold Inv.retracts. intuition congruence.
Qed.

#[local] Instance labels_preorder : PreOrder Inv.labels.
Proof.
  split.
  - intros [] . reflexivity.
  - intros v1 v2 v3. unfold Inv.labels. intros -> ->. reflexivity.
Qed.

#[local] Instance evolves_preorder : PreOrder Inv.evolves.
Proof.
  split.
  - intros v. unfold Inv.evolves. tauto.
  - intros v1 v2 v3. unfold Inv.evolves. intuition congruence.
Qed.

#[local] Instance flag_le_preorder : PreOrder Inv.flag_le.
Proof.
  split.
  - intros f. unfold Inv.flag_le. tauto.
  - intros f1 f2 f3. unfold Inv.flag_le. tauto.
Qed.

Lemma retracts_evolves v v' : Inv.retracts v v' -> Inv.evolves v v'.
Proof. unfold Inv.retracts, Inv.evolves. tauto. Qed.

Lemma labels_evolves v v' : Inv.labels v v' -> Inv.evolves v v'.
Proof. unfold Inv.labels, Inv.evolves. intros ->. simpl. tauto. Qed.

(** ** The first loop: counters and retraction *)

Section Retraction.

Import Voxblox Inv EverFreeIntegrator Retraction.

Variable this : EverFreeIntegrator.t.
Variable frame_counter : Z.
Hypothesis Hsearch : search_valid this.

Let n : nat := voxels_per_side_ this.

#[local] Instance layer_retracts_preorder :
  PreOrder (layer_rel eq retracts).
Proof. apply layer_rel_preorder; apply _. Qed.

Lemma removeAttributes_retracts (v : TsdfVoxel) :
  retracts v (removeAttributes v).
Proof. unfold retracts. simpl. tauto. Qed.

Lemma updateVoxel_retracts (v : TsdfVoxel) :
  retracts v (updateVoxel this v frame_counter).
Proof.
  unfold updateVoxel, updateOccupancyCounter, retracts.
  repeat match goal with |- context [if ?c then _ else _] => destruct c end;
    simpl; tauto.
Qed.

Lemma updateVoxel_stale (v : TsdfVoxel) :
  stale this frame_counter v ->
  dynamic (updateVoxel this v frame_counter) = false.
Proof.
  unfold stale, updateVoxel. intros Hst.
  set (v1 := if _ : bool then _ else v).
  assert (Hllo : last_lidar_occupied v1 = last_lidar_occupied v).
  { subst v1. unfold updateOccupancyCounter.
    repeat match goal with |- context [if ?c then _ else _] => destruct c end;
      reflexivity. }
  rewrite Hllo. destruct (Z.ltb_spec (last_lidar_occupied v)
    (Int.sub frame_counter (temporal_buffer (config_ this)))); [done|lia].
Qed.

Lemma cleared_stable (L L' : Layer) (k : VoxelKey) :
  layer_rel eq retracts L L' -> cleared this L k -> cleared this L' k.
Proof.
  intros HR Hc v' Hv'.
  destruct (layer_rel_voxelAt_r _ _ _ _ _ _ _ HR Hv') as (v & Hv & Hvv').
  destruct (Hc v Hv) as [He Hd]. unfold retracts in Hvv'. intuition.
Qed.

Lemma settled_stable (L L' : Layer) (b : BlockIndex) (i : nat) :
  layer_rel flag_le evolves L L' ->
  settled this frame_counter L b i -> settled this frame_counter L' b i.
Proof.
  intros HR Hs v' Hv' Hst.
  destruct (layer_rel_voxelAtLinear_r _ _ _ _ _ _ _ HR Hv')
    as (v & Hv & Hvv').
  unfold evolves in Hvv'. destruct Hvv' as (_ & _ & Hllo & Hdyn).
  apply Hdyn, (Hs v Hv). unfold stale in *. by rewrite <- Hllo.
Qed.

Lemma retracts_evolves_layer (L L' : Layer) :
  layer_rel eq retracts L L' -> layer_rel flag_le evolves L L'.
Proof.
  apply layer_rel_mono; [|apply retracts_evolves].
  intros f f' ->. reflexivity.
Qed.

(** Clearing the flags of a voxel that exists. *)
Lemma removeAttributesAt_spec (L : Layer) (b : BlockIndex)
    (vi : VoxelIndex) :
  layer_wf n L -> is_Some (L !! b) -> isValidVoxelIndex n vi = true ->
  exists L', removeAttributesAt this L b vi = Some L' /\
             layer_rel eq retracts L L' /\ cleared this L' (b, vi).
Proof.
  intros Hwf [B HB] Hvalid.
  pose proof (linear_index_valid n vi Hvalid) as Hlin.
  destruct (voxelAtLinear_is_Some n L b B _ Hwf HB Hlin) as [v Hv].
  unfold removeAttributesAt, getBlockPtrByIndex. rewrite HB. simpl.
  assert (Hget : getVoxelByVoxelIndex n B vi = Some v).
  { unfold getVoxelByVoxelIndex. rewrite Hvalid.
    unfold voxelAtLinear in Hv. by rewrite HB in Hv. }
  fold n. rewrite Hget. simpl. eexists. split; [done|]. split.
  - eapply layer_rel_setVoxel; [apply _ | apply _ | done |].
    apply removeAttributes_retracts.
  - intros v' Hv'. fold n in Hv'.
    rewrite (voxelAtLinear_voxelAt n _ b vi Hvalid) in Hv'.
    rewrite (voxelAtLinear_setVoxel_eq _ _ _ _ _ Hv) in Hv'.
    injection Hv' as <-. done.
Qed.

(** [removeEverFree] on a voxel of an allocated block returns, and leaves
    the voxel and each of its neighbours that exists without the flags. *)
Lemma removeEverFree_spec (L : Layer) (b : BlockIndex) (vi : VoxelIndex) :
  layer_wf n L -> is_Some (L !! b) -> isValidVoxelIndex n vi = true ->
  exists L', removeEverFree this L b vi = Some L' /\
             layer_rel eq retracts L L' /\
             cleared this L' (b, vi) /\
             forall k, k ∈ neighborhood_search_ this b vi n ->
                       cleared this L' k.
Proof.
  intros Hwf Hb Hvalid. unfold removeEverFree.
  destruct (removeAttributesAt_spec L b vi Hwf Hb Hvalid)
    as (L1 & -> & HR1 & Hc1). simpl. fold n.
  match goal with |- context [for_each ?f _ _] => set (body := f) end.
  destruct (for_each_stable body (layer_rel eq retracts)
              (fun k L' => cleared this L' k)
              (neighborhood_search_ this b vi n) L1)
    as (L' & Hrun & HR & HQ).
  - intros k s1 s2 Hc HR. by eapply cleared_stable.
  - intros k s1 Hk HR.
    assert (Hwf1 : layer_wf n s1).
    { eapply layer_rel_wf; [exact HR|]. eapply layer_rel_wf; eauto. }
    assert (Hkv : isValidVoxelIndex n k.2 = true)
      by (eapply Hsearch; eauto).
    assert (Hb1 : is_Some (s1 !! b)).
    { destruct Hb as [B HB].
      destruct (layer_rel_lookup_l _ _ _ _ _ _ HR1 HB) as (B1 & HB1 & _).
      destruct (layer_rel_lookup_l _ _ _ _ _ _ HR HB1) as (B2 & HB2 & _).
      eauto. }
    subst body. cbv beta. case_decide as Hkb.
    + destruct (removeAttributesAt_spec s1 b k.2 Hwf1 Hb1 Hkv)
        as (s2 & Hs2 & HR2 & Hc2).
      exists s2. split; [done|]. split; [done|].
      destruct k as [kb kv]. simpl in *. by subst kb.
    + unfold getBlockPtrByIndex. destruct (s1 !! k.1) as [Bk|] eqn:HBk.
      * destruct (removeAttributesAt_spec s1 k.1 k.2 Hwf1) as
          (s2 & Hs2 & HR2 & Hc2); [by rewrite HBk | done |].
        exists s2. split; [done|]. split; [done|]. by destruct k.
      * exists s1. split; [done|]. split; [reflexivity|].
        intros v Hv. unfold voxelAt in Hv. by rewrite HBk in Hv.
  - exists L'. split; [done|]. split; [by etrans|]. split; [|done].
    by eapply cleared_stable.
Qed.

(** The body of the first loop on a voxel of an allocated block. *)
Lemma updateEverFreeVoxels_body_spec (L : Layer) (b : BlockIndex)
    (i : nat) :
  layer_wf n L -> is_Some (L !! b) -> (i < n * n * n)%nat ->
  exists L', updateEverFreeVoxels_body this frame_counter b L i = Some L' /\
    layer_rel eq retracts L L' /\
    settled this frame_counter L' b i /\
    forall v, voxelAtLinear L b i = Some v ->
      counter_to_reset (config_ this)
      <= occ_counter (updateVoxel this v frame_counter) ->
      forall k,
        k = (b, computeVoxelIndexFromLinearIndex n i) \/
        k ∈ neighborhood_search_ this b
              (computeVoxelIndexFromLinearIndex n i) n ->
        cleared this L' k.
Proof.
  intros Hwf [B HB] Hi.
  destruct (voxelAtLinear_is_Some n L b B i Hwf HB Hi) as [v Hv].
  destruct (voxel_index_of_linear n i Hi) as [Hvalid Hround].
  unfold updateEverFreeVoxels_body, getBlockPtrByIndex,
    getVoxelByLinearIndex. rewrite HB. simpl.
  assert (HvB : voxels B !! i = Some v).
  { unfold voxelAtLinear in Hv. by rewrite HB in Hv. }
  rewrite HvB. simpl. fold n.
  set (v1 := updateVoxel this v frame_counter).
  set (L1 := setVoxel L b i v1).
  assert (HR1 : layer_rel eq retracts L L1).
  { eapply layer_rel_setVoxel; [apply _ | apply _ | done |].
    apply updateVoxel_retracts. }
  assert (Hv1 : voxelAtLinear L1 b i = Some v1)
    by (eapply voxelAtLinear_setVoxel_eq; eauto).
  assert (Hs1 : settled this frame_counter L1 b i).
  { intros v' Hv' Hst. rewrite Hv1 in Hv'. injection Hv' as <-.
    apply updateVoxel_stale. unfold stale in *.
    destruct (updateVoxel_retracts v) as (_ & _ & Hllo & _).
    fold v1 in Hllo. by rewrite <- Hllo. }
  destruct (Z.geb_spec (occ_counter v1) (counter_to_reset (config_ this)))
    as [Hge | Hlt].
  - destruct (removeEverFree_spec L1 b
                (computeVoxelIndexFromLinearIndex n i))
      as (L' & Hrun & HR & Hc & Hcn).
    + eapply layer_rel_wf; eauto.
    + destruct (layer_rel_lookup_l _ _ _ _ _ _ HR1 HB) as (B1 & -> & _).
      eauto.
    + done.
    + exists L'. split; [done|]. split; [by etrans|]. split.
      * eapply settled_stable; [|exact Hs1].
        by apply retracts_evolves_layer.
      * intros v0 Hv0 _ k [-> | Hk]; [done | by apply Hcn].
  - exists L1. split; [done|]. split; [done|]. split; [done|].
    intros v0 Hv0 Hge. rewrite Hv in Hv0. injection Hv0 as <-.
    fold v1 in Hge. lia.
Qed.

(** The first loop as a whole. *)
Lemma removeOccupied_spec (L : Layer) (updated_blocks : list BlockIndex) :
  layer_wf n L ->
  exists L', removeOccupied this frame_counter updated_blocks L = Some L' /\
    layer_rel eq retracts L L' /\
    forall b, b ∈ updated_blocks ->
      forall i, (i < n * n * n)%nat -> settled this frame_counter L' b i.
Proof.
  intros Hwf. unfold removeOccupied.
  match goal with |- context [for_each ?f _ _] => set (body := f) end.
  apply (for_each_stable body (layer_rel eq retracts)
           (fun b L' => forall i, (i < n * n * n)%nat ->
                                  settled this frame_counter L' b i)).
  - intros b s1 s2 HQ HR i Hi. eapply settled_stable; [|by apply HQ].
    by apply retracts_evolves_layer.
  - intros b s1 Hb HR. subst body. cbv beta. unfold getBlockPtrByIndex.
    destruct (s1 !! b) as [B|] eqn:HB.
    + assert (Hwf1 : layer_wf n s1) by (eapply layer_rel_wf; eauto).
      destruct (for_each_stable
                  (updateEverFreeVoxels_body this frame_counter b)
                  (layer_rel eq retracts)
                  (fun i L' => settled this frame_counter L' b i)
                  (seq 0 (voxels_per_block_ this)) s1)
        as (s2 & Hrun & HR2 & HQ2).
      * intros i t1 t2 HQ HR'. eapply settled_stable; [|exact HQ].
        by apply retracts_evolves_layer.
      * intros i t1 Hi HR'. apply elem_of_seq in Hi.
        destruct (updateEverFreeVoxels_body_spec t1 b i)
          as (t2 & Ht2 & HR2 & Hs2 & _).
        -- eapply layer_rel_wf; eauto.
        -- destruct (layer_rel_lookup_l _ _ _ _ _ _ HR' HB) as (B1 & -> & _).
           eauto.
        -- unfold voxels_per_block_ in Hi. fold n in Hi. lia.
        -- eauto.
      * exists s2. split; [done|]. split; [done|].
        intros i Hi. apply HQ2. apply elem_of_seq.
        unfold voxels_per_block_. fold n. lia.
    + exists s1. split; [done|]. split; [reflexivity|].
      intros i Hi v Hv. unfold voxelAtLinear in Hv. by rewrite HB in Hv.
Qed.

End Retraction.

(** ** The second loop: labelling *)

Section Labelling.

Import Voxblox Inv EverFreeIntegrator Promotion.

Variable this : EverFreeIntegrator.t.
Variable frame_counter : Z.
Hypothesis Hsearch : search_valid this.

Let n : nat := voxels_per_side_ this.
Let burn : Z := burn_in_period (config_ this).

#[local] Instance layer_labels_preorder : PreOrder (layer_rel eq labels).
Proof. apply layer_rel_preorder; apply _. Qed.

(** The test a neighbour must fail. *)
Let blocking (v : TsdfVoxel) : bool :=
  f32_lt_1e_6 (weight v) || (last_occupied v >? Int.sub frame_counter burn).

Lemma labels_blocking (v v' : TsdfVoxel) :
  labels v v' -> blocking v' = blocking v.
Proof. unfold labels. intros ->. reflexivity. Qed.

Lemma scan_unfold (L : Layer) (b : BlockIndex) (B : Block)
    (k : VoxelKey) (rest : list VoxelKey) :
  L !! b = Some B ->
  neighborOccupiedOrUnobserved this L b B frame_counter (k :: rest) =
  match L !! k.1 with
  | None => Some true
  | Some Bk =>
      nv ← getVoxelByVoxelIndex n Bk k.2;
      if blocking nv then Some true
      else neighborOccupiedOrUnobserved this L b B frame_counter rest
  end.
Proof.
  intros HB. simpl. unfold getBlockPtrByIndex.
  case_decide as Hk; [rewrite Hk, HB|]; reflexivity.
Qed.

(** The scan reads only what the labelling does not write. *)
Lemma scan_rel (L L' : Layer) (b : BlockIndex) (B B' : Block)
    (ns : list VoxelKey) :
  layer_rel eq labels L L' -> L !! b = Some B -> L' !! b = Some B' ->
  neighborOccupiedOrUnobserved this L b B frame_counter ns =
  neighborOccupiedOrUnobserved this L' b B' frame_counter ns.
Proof.
  intros HR HB HB'. induction ns as [|k rest IH]; [done|].
  rewrite (scan_unfold L b B k rest HB), (scan_unfold L' b B' k rest HB').
  destruct (HR k.1) as [Bk Bk' HBk|]; [|done].
  destruct (getVoxelByVoxelIndex n Bk k.2) as [nv|] eqn:Hnv.
  - destruct (block_rel_getVoxelByVoxelIndex_l _ _ _ _ _ _ _ HBk Hnv)
      as (nv' & -> & Hl). simpl.
    rewrite (labels_blocking _ _ Hl), IH. reflexivity.
  - by rewrite (block_rel_getVoxelByVoxelIndex_None _ _ _ _ _ _ HBk Hnv).
Qed.

Lemma scan_total (L : Layer) (b : BlockIndex) (B : Block)
    (ns : list VoxelKey) :
  layer_wf n L -> L !! b = Some B ->
  (forall k, k ∈ ns -> isValidVoxelIndex n k.2 = true) ->
  is_Some (neighborOccupiedOrUnobserved this L b B frame_counter ns).
Proof.
  intros Hwf HB. induction ns as [|k rest IH]; intros Hvalid; [by eexists|].
  rewrite (scan_unfold L b B k rest HB).
  destruct (L !! k.1) as [Bk|] eqn:HBk; [|by eexists].
  assert (Hk : isValidVoxelIndex n k.2 = true)
    by (apply Hvalid, list_elem_of_here).
  destruct (voxelAtLinear_is_Some n L k.1 Bk _ Hwf HBk
              (linear_index_valid n k.2 Hk)) as [nv Hnv].
  unfold voxelAtLinear in Hnv. rewrite HBk in Hnv. simpl in Hnv.
  unfold getVoxelByVoxelIndex. rewrite Hk, Hnv. simpl.
  destruct (blocking nv); [by eexists|].
  apply IH. intros k' Hk'. apply Hvalid. by apply list_elem_of_further.
Qed.

(** The scan runs to its end exactly when every neighbour exists and fails
    the test. *)
Lemma scan_false_iff (L : Layer) (b : BlockIndex) (B : Block)
    (ns : list VoxelKey) :
  L !! b = Some B ->
  neighborOccupiedOrUnobserved this L b B frame_counter ns = Some false <->
  forall k, k ∈ ns -> exists nv, voxelAt n L k = Some nv /\
                                 blocking nv = false.
Proof.
  intros HB. induction ns as [|k rest IH].
  { split; [|done]. intros _ k Hk. by apply elem_of_nil in Hk. }
  rewrite (scan_unfold L b B k rest HB). split.
  - intros Hscan k' Hk'. unfold voxelAt.
    destruct (L !! k.1) as [Bk|] eqn:HBk; [|done].
    destruct (getVoxelByVoxelIndex n Bk k.2) as [nv|] eqn:Hnv; [|done].
    simpl in Hscan. destruct (blocking nv) eqn:Hbl; [done|].
    apply elem_of_cons in Hk' as [->|Hk'].
    + exists nv. rewrite HBk. simpl. by rewrite Hnv.
    + by apply IH.
  - intros Hall. destruct (Hall k) as (nv & Hnv & Hbl);
      [apply list_elem_of_here|].
    unfold voxelAt in Hnv. destruct (L !! k.1) as [Bk|]; [|done].
    simpl in Hnv. rewrite Hnv. simpl. rewrite Hbl.
    apply IH. intros k' Hk'. apply Hall. by apply list_elem_of_further.
Qed.


(** The test the voxel itself must fail. *)
Let skipped (v : TsdfVoxel) : bool :=
  ever_free v || f32_le_1e_6 (weight v)
  || (last_occupied v >? Int.sub frame_counter burn).

(** The decision of the loop body, on the map as it was when the labelling
    of the block began. *)
Let promotes (L0 : Layer) (b : BlockIndex) (B0 : Block) (i : nat)
    (v0 : TsdfVoxel) : Prop :=
  skipped v0 = false /\
  neighborOccupiedOrUnobserved this L0 b B0 frame_counter
    (neighborhood_search_ this b (computeVoxelIndexFromLinearIndex n i) n)
  = Some false.

Lemma voxelAtLinear_setVoxel_ne (L : Layer) (b b' : BlockIndex)
    (i j : nat) (v : TsdfVoxel) :
  (b, i) <> (b', j) ->
  voxelAtLinear (setVoxel L b i v) b' j = voxelAtLinear L b' j.
Proof.
  unfold voxelAtLinear, setVoxel. intros Hne. rewrite lookup_alter.
  case_decide as Hb; [subst b'|done].
  destruct (L !! b) as [B|]; [|done]. simpl.
  apply list_lookup_insert_ne. congruence.
Qed.

Lemma voxelAtLinear_resetUpdatedEsdf (L : Layer) (b b' : BlockIndex)
    (i : nat) :
  voxelAtLinear (resetUpdatedEsdf L b) b' i = voxelAtLinear L b' i.
Proof.
  unfold voxelAtLinear, resetUpdatedEsdf. rewrite lookup_alter.
  case_decide as Hb; [subst b'|done]. by destruct (L !! b).
Qed.

Lemma labels_same_ever_free (v v' : TsdfVoxel) :
  labels v v' -> ever_free v' = ever_free v -> v' = v.
Proof.
  unfold labels. intros Hl Heq. rewrite Heq in Hl. rewrite Hl.
  by destruct v.
Qed.

(** The loop of [makeEverFree] over distinct indices of an allocated block:
    it returns, writes nothing but [ever_free], and a visited voxel is
    ever-free afterwards exactly when it was before or the body decided to
    promote it. *)
Lemma makeEverFree_loop (L0 : Layer) (b : BlockIndex) (B0 : Block)
    (idx : list nat) :
  layer_wf n L0 -> L0 !! b = Some B0 -> NoDup idx ->
  (forall i, i ∈ idx -> (i < n * n * n)%nat) ->
  exists L', for_each (makeEverFree_body this frame_counter b) idx L0
             = Some L' /\
    layer_rel eq labels L0 L' /\
    forall i v0 v', voxelAtLinear L0 b i = Some v0 ->
                    voxelAtLinear L' b i = Some v' ->
      (i ∈ idx -> (ever_free v' = true <->
                   ever_free v0 = true \/ promotes L0 b B0 i v0)) /\
      (i ∉ idx -> ever_free v' = ever_free v0).
Proof.
  intros Hwf HB0 Hnodup Hrange.
  apply (for_each_prefix_inv (makeEverFree_body this frame_counter b)
    (fun pre L =>
       layer_rel eq labels L0 L /\
       forall i v0 v', voxelAtLinear L0 b i = Some v0 ->
                       voxelAtLinear L b i = Some v' ->
         (i ∈ pre -> (ever_free v' = true <->
                      ever_free v0 = true \/ promotes L0 b B0 i v0)) /\
         (i ∉ pre -> ever_free v' = ever_free v0))).
  { split; [reflexivity|]. intros i v0 v' Hv0 Hv'. split.
    - intros Hi. by apply elem_of_nil in Hi.
    - intros _. congruence. }
  intros pre a post L Hidx [HR HI].
  assert (Ha_pre : a ∉ pre).
  { rewrite Hidx in Hnodup. apply NoDup_app in Hnodup as (_ & Hdisj & _).
    intros Ha. apply (Hdisj a Ha), list_elem_of_here. }
  assert (Ha : (a < n * n * n)%nat).
  { apply Hrange. rewrite Hidx. apply elem_of_app. right.
    apply list_elem_of_here. }
  destruct (voxelAtLinear_is_Some n L0 b B0 a Hwf HB0 Ha) as [v0 Hv0].
  destruct (layer_rel_voxelAtLinear_l _ _ _ _ _ _ _ HR Hv0)
    as (v & Hv & Hl).
  assert (v = v0) as ->.
  { apply labels_same_ever_free; [done|]. by apply (HI a v0 v Hv0 Hv). }
  destruct (layer_rel_lookup_l _ _ _ _ _ _ HR HB0) as (B & HB & HBB).
  assert (Hstep : forall L' : Layer,
    layer_rel eq labels L L' ->
    (forall j, j <> a -> voxelAtLinear L' b j = voxelAtLinear L b j) ->
    (forall v', voxelAtLinear L' b a = Some v' ->
       ever_free v' = true <->
       ever_free v0 = true \/ promotes L0 b B0 a v0) ->
    layer_rel eq labels L0 L' /\
    forall i v1 v', voxelAtLinear L0 b i = Some v1 ->
                    voxelAtLinear L' b i = Some v' ->
      (i ∈ pre ++ [a] -> (ever_free v' = true <->
                   ever_free v1 = true \/ promotes L0 b B0 i v1)) /\
      (i ∉ pre ++ [a] -> ever_free v' = ever_free v1)).
  { intros L' HR' Hother Hat. split; [by etrans|].
    intros i v1 v' Hv1 Hv'. destruct (decide (i = a)) as [->|Hne].
    - assert (v1 = v0) as -> by congruence. split; [intros _; by apply Hat|].
      intros Hni. exfalso. apply Hni, elem_of_app. right.
      apply list_elem_of_here.
    - rewrite (Hother i Hne) in Hv'.
      destruct (HI i v1 v' Hv1 Hv') as [Hin Hout]. split.
      + intros [Hi|Hi]%elem_of_app; [by apply Hin|].
        apply list_elem_of_singleton in Hi. done.
      + intros Hni. apply Hout. intros Hi. apply Hni, elem_of_app.
        by left. }
  unfold makeEverFree_body, getBlockPtrByIndex, getVoxelByLinearIndex.
  rewrite HB. simpl.
  assert (HvB : voxels B !! a = Some v0).
  { unfold voxelAtLinear in Hv. by rewrite HB in Hv. }
  rewrite HvB. simpl. fold n burn. fold (skipped v0).
  destruct (skipped v0) eqn:Hskip.
  { exists L. split; [done|]. apply Hstep; [reflexivity|done|].
    intros v' Hv'. assert (v' = v0) as -> by congruence. split; [tauto|].
    intros [?|[Hs _]]; [done|congruence]. }
  rewrite <- (scan_rel L0 L b B0 B _ HR HB0 HB).
  destruct (voxel_index_of_linear n a Ha) as [Hvalid _].
  destruct (scan_total L0 b B0
              (neighborhood_search_ this b
                 (computeVoxelIndexFromLinearIndex n a) n) Hwf HB0)
    as [r Hr].
  { intros k Hk. eapply Hsearch; eauto. }
  rewrite Hr. simpl.
  assert (Hef0 : ever_free v0 = false).
  { unfold skipped in Hskip. by destruct (ever_free v0). }
  destruct r.
  { exists L. split; [done|]. apply Hstep; [reflexivity|done|].
    intros v' Hv'. assert (v' = v0) as -> by congruence.
    rewrite Hef0. split; [done|]. intros [?|[_ Hs]]; [done|].
    rewrite Hr in Hs. done. }
  eexists. split; [done|]. apply Hstep.
  - eapply layer_rel_setVoxel; [apply _ | apply _ | done |].
    unfold labels. by destruct v0.
  - intros j Hj. apply voxelAtLinear_setVoxel_ne. congruence.
  - intros v' Hv'.
    rewrite (voxelAtLinear_setVoxel_eq _ _ _ _ _ Hv) in Hv'.
    injection Hv' as <-. simpl. split; [|done]. intros _. right.
    split; [done|]. exact Hr.
Qed.

(** [makeEverFree] on an allocated block. *)
Lemma makeEverFree_spec (L0 : Layer) (b : BlockIndex) (B0 : Block) :
  layer_wf n L0 -> L0 !! b = Some B0 ->
  exists L', makeEverFree this L0 b frame_counter = Some L' /\
    layer_rel flag_le labels L0 L' /\
    (forall B', L' !! b = Some B' -> updated_esdf B' = false) /\
    forall i v0, voxelAtLinear L0 b i = Some v0 ->
      exists v', voxelAtLinear L' b i = Some v' /\
        (ever_free v' = true <->
         ever_free v0 = true \/ promotes L0 b B0 i v0).
Proof.
  intros Hwf HB0. unfold makeEverFree, getBlockPtrByIndex. rewrite HB0.
  destruct (makeEverFree_loop L0 b B0 (seq 0 (voxels_per_block_ this))
              Hwf HB0) as (L1 & -> & HR & HI).
  { apply NoDup_seq. }
  { intros i Hi. apply elem_of_seq in Hi. unfold voxels_per_block_ in Hi.
    fold n in Hi. lia. }
  simpl. eexists. split; [done|].
  assert (HR1 : layer_rel flag_le labels L0 L1).
  { eapply layer_rel_mono; [| |exact HR]; [|done]. intros f f' ->.
    reflexivity. }
  split; [|split].
  - etrans; [exact HR1|].
    apply layer_rel_resetUpdatedEsdf; [apply _ | apply _ | done].
  - intros B'. unfold resetUpdatedEsdf. rewrite lookup_alter_eq.
    destruct (L1 !! b); simpl; [|done]. by intros [= <-].
  - intros i v0 Hv0.
    destruct (layer_rel_voxelAtLinear_l _ _ _ _ _ _ _ HR Hv0)
      as (v' & Hv' & _).
    exists v'. rewrite voxelAtLinear_resetUpdatedEsdf. split; [done|].
    apply (HI i v0 v' Hv0 Hv'). apply elem_of_seq.
    unfold voxelAtLinear in Hv0. rewrite HB0 in Hv0. simpl in Hv0.
    apply lookup_lt_Some in Hv0. rewrite (Hwf _ _ HB0) in Hv0.
    unfold voxels_per_block_. fold n. lia.
Qed.

(** With the subtraction [frame_counter - burn_in_period] inside [int], the
    two tests of the source are the conditions of the design document. *)
Hypothesis Hburn : Int.in_range (frame_counter - burn).

Lemma blocking_false_iff (v : TsdfVoxel) :
  blocking v = false <-> observed v /\ unoccupied this frame_counter v.
Proof.
  unfold blocking, observed, unoccupied. fold burn.
  rewrite orb_false_iff, f32_le_lt_1e_6, (Int_sub_exact _ _ Hburn).
  destruct (Z.gtb_spec (last_occupied v) (frame_counter - burn));
    intuition (try lia || congruence).
Qed.

Lemma skipped_false_iff (v : TsdfVoxel) :
  skipped v = false <->
  observed v /\ unoccupied this frame_counter v /\ ever_free v = false.
Proof.
  unfold skipped, observed, unoccupied. fold burn.
  rewrite !orb_false_iff, (Int_sub_exact _ _ Hburn).
  destruct (Z.gtb_spec (last_occupied v) (frame_counter - burn));
    intuition (try lia || congruence).
Qed.

Lemma promotes_eligible (L0 : Layer) (b : BlockIndex) (B0 : Block)
    (i : nat) (v0 : TsdfVoxel) :
  L0 !! b = Some B0 ->
  promotes L0 b B0 i v0 <-> eligible this frame_counter L0 b i v0.
Proof.
  intros HB0. unfold promotes, eligible.
  rewrite skipped_false_iff, (scan_false_iff L0 b B0 _ HB0).
  unfold neighbor_clear. fold n.
  setoid_rewrite blocking_false_iff. tauto.
Qed.

End Labelling.

(** ** The update as a whole *)

Lemma getAllUpdatedBlocks_elem (L : Layer) (b : BlockIndex) :
  b ∈ Voxblox.getAllUpdatedBlocks L <->
  exists B, L !! b = Some B /\ updated_esdf B = true.
Proof.
  unfold Voxblox.getAllUpdatedBlocks. rewrite list_elem_of_fmap. split.
  - intros ([b' B] & -> & HbB). apply elem_of_map_to_list in HbB.
    apply map_lookup_filter_Some in HbB as [HB Hflag]. eauto.
  - intros (B & HB & Hflag). exists (b, B). split; [done|].
    apply elem_of_map_to_list. by apply map_lookup_filter_Some.
Qed.

Lemma getAllUpdatedBlocks_nil (L : Layer) :
  (forall (b : BlockIndex) (B : Block),
      L !! b = Some B -> updated_esdf B = false) ->
  Voxblox.getAllUpdatedBlocks L = [].
Proof.
  intros Hall. destruct (Voxblox.getAllUpdatedBlocks L) as [|b l] eqn:Hl;
    [done|].
  assert (Hb : b ∈ Voxblox.getAllUpdatedBlocks L)
    by (rewrite Hl; apply list_elem_of_here).
  apply getAllUpdatedBlocks_elem in Hb as (B & HB & Hflag).
  rewrite (Hall b B HB) in Hflag. done.
Qed.

(** The neighbourhood search of the design document names valid cells. *)
Lemma NeighborhoodSearch_search_valid (config : EverFreeIntegrator.Config)
    (connectivity : Z) (n : nat) :
  Inv.search_valid
    (EverFreeIntegrator.mkIntegrator config
       (NeighborhoodSearch.search connectivity) n).
Proof.
  intros b v k Hv Hk. simpl in *.
  unfold NeighborhoodSearch.search in Hk.
  apply list_elem_of_fmap in Hk as (d & -> & _).
  destruct b as [[bx by_] bz], v as [[vx vy] vz], d as [[dx dy] dz].
  unfold Voxblox.isValidVoxelIndex in *. simpl.
  rewrite !andb_true_iff, !Z.leb_le, !Z.ltb_lt in *.
  assert (Hn : 0 < Z.of_nat n) by lia.
  pose proof (Z.mod_pos_bound (bx * Z.of_nat n + vx + dx) _ Hn).
  pose proof (Z.mod_pos_bound (by_ * Z.of_nat n + vy + dy) _ Hn).
  pose proof (Z.mod_pos_bound (bz * Z.of_nat n + vz + dz) _ Hn).
  lia.
Qed.

Section Update.

Import Voxblox Inv EverFreeIntegrator.

Variable this : EverFreeIntegrator.t.
Variable frame_counter : Z.
Hypothesis Hsearch : search_valid this.

Let n : nat := voxels_per_side_ this.

(** The labelling of a list of blocks. *)
Lemma label_blocks_spec (L : Layer) (blocks : list BlockIndex) :
  layer_wf n L ->
  exists L',
    for_each (fun (layer : Layer) (index : BlockIndex) =>
                makeEverFree this layer index frame_counter) blocks L
    = Some L' /\
    layer_rel flag_le labels L L' /\
    forall b, b ∈ blocks ->
      forall B', L' !! b = Some B' -> updated_esdf B' = false.
Proof.
  intros Hwf.
  apply (for_each_stable _ (layer_rel flag_le labels)
           (fun (b : BlockIndex) (L' : Layer) =>
              forall B', L' !! b = Some B' -> updated_esdf B' = false)).
  - intros b s1 s2 HQ HR B2 HB2.
    destruct (layer_rel_lookup_r _ _ _ _ _ _ HR HB2) as (B1 & HB1 & Hf & _).
    apply Hf. eauto.
  - intros b s1 Hb HR. cbv beta.
    destruct (s1 !! b) as [B1|] eqn:HB1.
    + destruct (makeEverFree_spec this frame_counter Hsearch s1 b B1)
        as (s2 & Hrun & HR2 & Hflag & _); [|done|by eauto].
      eapply layer_rel_wf; eauto.
    + exists s1. unfold makeEverFree, getBlockPtrByIndex. rewrite HB1.
      split; [done|]. split; [reflexivity|]. intros B'. congruence.
Qed.

(** [updateEverFreeVoxels] returns on every well-formed map, whatever
    blocks are missing around the updated ones. *)
Lemma updateEverFreeVoxels_spec (L : Layer) :
  layer_wf n L ->
  exists L', updateEverFreeVoxels this L frame_counter = Some L' /\
    layer_rel flag_le evolves L L' /\
    (forall b, b ∈ getAllUpdatedBlocks L ->
       forall i, (i < n * n * n)%nat ->
                 Retraction.settled this frame_counter L' b i) /\
    (0 < num_threads (config_ this) ->
     forall b B', L' !! b = Some B' -> updated_esdf B' = false).
Proof.
  intros Hwf. unfold updateEverFreeVoxels.
  destruct (removeOccupied_spec this frame_counter Hsearch L
              (getAllUpdatedBlocks L) Hwf) as (L1 & -> & HR1 & Hs1).
  simpl. unfold run_workers.
  assert (HR1' : layer_rel flag_le evolves L L1)
    by (by apply retracts_evolves_layer).
  destruct (Z.ltb_spec 0 (num_threads (config_ this))) as [Hth|Hth].
  - destruct (label_blocks_spec L1 (getAllUpdatedBlocks L))
      as (L2 & -> & HR2 & Hflags).
    { eapply layer_rel_wf; eauto. }
    assert (HR2' : layer_rel flag_le evolves L1 L2).
    { eapply layer_rel_mono; [| |exact HR2]; [done|apply labels_evolves]. }
    exists L2. split; [done|]. split; [by etrans|]. split.
    + intros b Hb i Hi. eapply settled_stable; [exact HR2'|by apply Hs1].
    + intros _ b B2 HB2.
      destruct (decide (b ∈ getAllUpdatedBlocks L)) as [Hb|Hb];
        [by eapply Hflags|].
      assert (HR : layer_rel flag_le evolves L L2) by (by etrans).
      destruct (layer_rel_lookup_r _ _ _ _ _ _ HR HB2) as (B & HB & Hf & _).
      apply Hf. destruct (updated_esdf B) eqn:Hflag; [|done].
      exfalso. apply Hb, getAllUpdatedBlocks_elem. eauto.
  - exists L1. split; [done|]. split; [done|]. split; [done|]. lia.
Qed.

End Update.

(** ** The properties of the integrator *)

(** A voxel of an allocated block is still there after a retraction. *)
Lemma cleared_retracted (this : EverFreeIntegrator.t) (L L' : Layer)
    (k : VoxelKey) :
  Inv.layer_wf (EverFreeIntegrator.voxels_per_side_ this) L ->
  Inv.layer_rel eq Inv.retracts L L' ->
  is_Some (L !! k.1) ->
  Voxblox.isValidVoxelIndex (EverFreeIntegrator.voxels_per_side_ this) k.2
  = true ->
  Retraction.cleared this L' k -> Retraction.retracted this L' k.
Proof.
  intros Hwf HR [B HB] Hvalid Hclr. destruct k as [b vi]. simpl in *.
  pose proof (linear_index_valid _ vi Hvalid) as Hlin.
  destruct (voxelAtLinear_is_Some _ L b B _ Hwf HB Hlin) as [v Hv].
  rewrite <- (voxelAtLinear_voxelAt _ L b vi Hvalid) in Hv.
  destruct (layer_rel_voxelAt_l _ _ _ _ _ _ _ HR Hv) as (v' & Hv' & _).
  exists v'. split; [done|]. by apply Hclr.
Qed.

Section IntegratorProperties.

Import Voxblox Inv EverFreeIntegrator.

Variable this : EverFreeIntegrator.t.
Variable frame_counter : Z.
Hypothesis Hsearch : search_valid this.

Let n : nat := voxels_per_side_ this.

(** C1.  On a well-formed map, with [frame_counter - burn_in_period] inside
    [int], [makeEverFree] returns for every allocated block, and for every
    voxel of the block: the voxel becomes ever-free in this call if and only
    if it is observed (its weight passes the near-zero threshold of the
    source), has been unoccupied for at least [burn_in_period] frames, is
    not ever-free already, and every neighbour of the configured
    connectivity exists, is observed and has been unoccupied for at least
    [burn_in_period] frames; so a single neighbour that is missing, occupied
    or unobserved blocks the promotion. *)
Theorem C1_promotion_iff_neighbourhood_clear (L : Layer) (b : BlockIndex)
    (B : Block) :
  layer_wf n L ->
  Int.in_range (frame_counter - burn_in_period (config_ this)) ->
  L !! b = Some B ->
  exists L', makeEverFree this L b frame_counter = Some L' /\
    forall i v, voxelAtLinear L b i = Some v ->
      exists v', voxelAtLinear L' b i = Some v' /\
        (Promotion.becomes_ever_free v v' <->
         Promotion.eligible this frame_counter L b i v).
Proof.
  intros Hwf Hburn HB.
  destruct (makeEverFree_spec this frame_counter Hsearch L b B Hwf HB)
    as (L' & Hrun & _ & _ & Hvox).
  exists L'. split; [done|]. intros i v Hv.
  destruct (Hvox i v Hv) as (v' & Hv' & Hiff). exists v'. split; [done|].
  rewrite <- (promotes_eligible this frame_counter Hburn L b B i v HB).
  unfold Promotion.becomes_ever_free. rewrite Hiff.
  destruct (ever_free v) eqn:Hef; simpl; intuition congruence.
Qed.

(** C2.  When the counter of a voxel is at [counter_to_reset] or above
    after the counter update of the per-frame loop, the loop body calls
    [removeEverFree], the call returns and keeps the blocks of the map, and
    right after it the voxel and every neighbour of the configured
    connectivity that exists in the map are still in the map and have
    [ever_free = false] and [dynamic = false], whatever the neighbours' own
    counters are. *)
Theorem C2_retraction_reaches_neighbours (L : Layer) (b : BlockIndex)
    (i : nat) (v : TsdfVoxel) :
  layer_wf n L ->
  voxelAtLinear L b i = Some v ->
  counter_to_reset (config_ this)
  <= occ_counter (updateVoxel this v frame_counter) ->
  let voxel_index := computeVoxelIndexFromLinearIndex n i in
  exists L',
    updateEverFreeVoxels_body this frame_counter b L i = Some L' /\
    removeEverFree this
      (setVoxel L b i (updateVoxel this v frame_counter)) b voxel_index
    = Some L' /\
    (forall b' : BlockIndex, L' !! b' = None <-> L !! b' = None) /\
    Retraction.retracted this L' (b, voxel_index) /\
    forall k, k ∈ neighborhood_search_ this b voxel_index n ->
              is_Some (L !! k.1) -> Retraction.retracted this L' k.
Proof.
  intros Hwf Hv Hreach voxel_index.
  assert (HB : is_Some (L !! b)).
  { unfold voxelAtLinear in Hv. destruct (L !! b); [by eexists|done]. }
  assert (Hi : (i < n * n * n)%nat).
  { destruct HB as [B HB]. unfold voxelAtLinear in Hv. rewrite HB in Hv.
    simpl in Hv. apply lookup_lt_Some in Hv. by rewrite (Hwf _ _ HB) in Hv. }
  destruct (voxel_index_of_linear n i Hi) as [Hvalid _].
  destruct (updateEverFreeVoxels_body_spec this frame_counter Hsearch
              L b i Hwf HB Hi) as (L' & Hrun & HR & _ & Hclr).
  exists L'. split; [done|]. split; [|split; [|split]].
  - rewrite <- Hrun. unfold updateEverFreeVoxels_body, getBlockPtrByIndex,
      getVoxelByLinearIndex. unfold voxelAtLinear in Hv.
    destruct (L !! b) as [B|]; [|done]. simpl in *. rewrite Hv. simpl.
    destruct (Z.geb_spec (occ_counter (updateVoxel this v frame_counter))
                (counter_to_reset (config_ this))); [done|lia].
  - intros b'. symmetry. by eapply layer_rel_lookup_None.
  - apply (cleared_retracted this L L'); [done..|].
    apply (Hclr v Hv Hreach). by left.
  - intros k Hk Hblock.
    apply (cleared_retracted this L L'); [done|done|done| |].
    + eapply Hsearch; [exact Hvalid|exact Hk].
    + apply (Hclr v Hv Hreach). by right.
Qed.

(** C6.  With a valid configuration, a second [updateEverFreeVoxels] at the
    same frame counter, with nothing done to the map in between, changes
    nothing: the first call returns a map and the second call returns that
    same map, so every cell keeps its [ever_free], [dynamic], [occ_counter]
    and [last_occupied]. *)
Theorem C6_second_update_is_identity (L : Layer) :
  layer_wf n L ->
  checkParams (config_ this) = true ->
  exists L', updateEverFreeVoxels this L frame_counter = Some L' /\
             updateEverFreeVoxels this L' frame_counter = Some L'.
Proof.
  intros Hwf Hcfg.
  destruct (updateEverFreeVoxels_spec this frame_counter Hsearch L Hwf)
    as (L' & Hrun & _ & _ & Hflags).
  exists L'. split; [done|].
  assert (Hth : 0 < num_threads (config_ this)).
  { unfold checkParams in Hcfg. rewrite !andb_true_iff in Hcfg.
    destruct Hcfg as [[_ Hth] _]. apply Z.leb_le in Hth. lia. }
  unfold updateEverFreeVoxels.
  rewrite (getAllUpdatedBlocks_nil L' (Hflags Hth)). simpl.
  unfold run_workers. by destruct (0 <? num_threads (config_ this)).
Qed.

(** C9.  For every voxel of a block the per-frame update visits: if the
    voxel has not been sensor-occupied for more than [temporal_buffer]
    frames, [last_lidar_occupied < frame_counter - temporal_buffer] as the
    source computes it, then the update returns and leaves the voxel with
    [dynamic = false]. *)
Theorem C9_stale_voxels_not_dynamic (L : Layer) (b : BlockIndex) (i : nat)
    (v : TsdfVoxel) :
  layer_wf n L ->
  b ∈ getAllUpdatedBlocks L ->
  voxelAtLinear L b i = Some v ->
  Retraction.stale this frame_counter v ->
  exists L' v', updateEverFreeVoxels this L frame_counter = Some L' /\
                voxelAtLinear L' b i = Some v' /\ dynamic v' = false.
Proof.
  intros Hwf Hb Hv Hstale.
  destruct (updateEverFreeVoxels_spec this frame_counter Hsearch L Hwf)
    as (L' & Hrun & HR & Hsettled & _).
  destruct (layer_rel_voxelAtLinear_l _ _ _ _ _ _ _ HR Hv)
    as (v' & Hv' & _ & _ & Hllo & _).
  exists L', v'. split; [done|]. split; [done|].
  apply (Hsettled b Hb i); [|done|].
  - apply getAllUpdatedBlocks_elem in Hb as (B & HB & _).
    unfold voxelAtLinear in Hv. rewrite HB in Hv. simpl in Hv.
    apply lookup_lt_Some in Hv. by rewrite (Hwf _ _ HB) in Hv.
  - unfold Retraction.stale in *. by rewrite Hllo.
Qed.

End IntegratorProperties.

(** ** The integrator on concrete maps *)

Example Examples_integrator_new :
  EverFreeIntegrator.new Examples.config 1 = Some Examples.integrator.
Proof. reflexivity. Qed.

Lemma Examples_integrator_valid : Inv.search_valid Examples.integrator.
Proof. apply NeighborhoodSearch_search_valid. Qed.

Lemma Examples_layer_wf (centre around : TsdfVoxel) :
  Inv.layer_wf 1 (Examples.layer_of centre around).
Proof.
  unfold Inv.layer_wf, Examples.layer_of.
  apply map_Forall_insert_2; [done|].
  apply map_Forall_to_list, Forall_forall. intros [b B] HbB.
  apply elem_of_map_to_list, elem_of_list_to_map_2 in HbB.
  apply list_elem_of_fmap in HbB as (b' & [= -> ->] & _). done.
Qed.

(** A free cell among free neighbours is promoted at frame 10 ... *)
Example makeEverFree_promotes :
  EverFreeIntegrator.makeEverFree Examples.integrator
    (Examples.layer_of Examples.free_voxel Examples.free_voxel) (0, 0, 0) 10
  ≫= (fun L => Inv.voxelAtLinear L (0, 0, 0) 0)
  = Some Examples.ever_free_voxel.
Proof. vm_compute. reflexivity. Qed.

(** ... but not with a neighbouring block missing, ... *)
Example makeEverFree_missing_neighbour :
  EverFreeIntegrator.makeEverFree Examples.integrator
    (delete (0, 1, 0)
       (Examples.layer_of Examples.free_voxel Examples.free_voxel))
    (0, 0, 0) 10
  ≫= (fun L => Inv.voxelAtLinear L (0, 0, 0) 0)
  = Some Examples.free_voxel.
Proof. vm_compute. reflexivity. Qed.

(** ... nor inside the burn-in period. *)
Example makeEverFree_burn_in :
  EverFreeIntegrator.makeEverFree Examples.integrator
    (Examples.layer_of Examples.free_voxel Examples.free_voxel) (0, 0, 0) 4
  ≫= (fun L => Inv.voxelAtLinear L (0, 0, 0) 0)
  = Some Examples.free_voxel.
Proof. vm_compute. reflexivity. Qed.

(** The third occupied frame in a row retracts the cell and its
    neighbours. *)
Example updateEverFreeVoxels_retracts :
  EverFreeIntegrator.updateEverFreeVoxels Examples.integrator
    (Examples.layer_of Examples.occupied_voxel Examples.ever_free_voxel) 10
  ≫= (fun L => Some (ever_free <$> Inv.voxelAtLinear L (0, 0, 0) 0,
                     occ_counter <$> Inv.voxelAtLinear L (0, 0, 0) 0,
                     ever_free <$> Inv.voxelAtLinear L (0, 1, 0) 0))
  = Some (Some false, Some 3, Some false).
Proof. vm_compute. reflexivity. Qed.

Lemma C1_promotion_iff_neighbourhood_clear_witness :
  let L := Examples.layer_of Examples.free_voxel Examples.free_voxel in
  exists L',
    EverFreeIntegrator.makeEverFree Examples.integrator L (0, 0, 0) 10
    = Some L' /\
    forall i v, Inv.voxelAtLinear L (0, 0, 0) i = Some v ->
      exists v', Inv.voxelAtLinear L' (0, 0, 0) i = Some v' /\
        (Promotion.becomes_ever_free v v' <->
         Promotion.eligible Examples.integrator 10 L (0, 0, 0) i v).
Proof.
  apply (C1_promotion_iff_neighbourhood_clear Examples.integrator 10
           Examples_integrator_valid
           (Examples.layer_of Examples.free_voxel Examples.free_voxel)
           (0, 0, 0) (Examples.block_of Examples.free_voxel true)).
  - apply Examples_layer_wf.
  - vm_compute. intuition congruence.
  - reflexivity.
Defined.

Lemma C2_retraction_reaches_neighbours_witness :
  let L :=
    Examples.layer_of Examples.occupied_voxel Examples.ever_free_voxel in
  exists L',
    EverFreeIntegrator.updateEverFreeVoxels_body Examples.integrator 10
      (0, 0, 0) L 0 = Some L' /\
    EverFreeIntegrator.removeEverFree Examples.integrator
      (Voxblox.setVoxel L (0, 0, 0) 0
         (EverFreeIntegrator.updateVoxel Examples.integrator
            Examples.occupied_voxel 10))
      (0, 0, 0) (0, 0, 0) = Some L' /\
    (forall b' : BlockIndex, L' !! b' = None <-> L !! b' = None) /\
    Retraction.retracted Examples.integrator L' ((0, 0, 0), (0, 0, 0)) /\
    forall k,
      k ∈ NeighborhoodSearch.search 6 (0, 0, 0) (0, 0, 0) 1 ->
      is_Some (L !! k.1) -> Retraction.retracted Examples.integrator L' k.
Proof.
  apply (C2_retraction_reaches_neighbours Examples.integrator 10
           Examples_integrator_valid
           (Examples.layer_of Examples.occupied_voxel
              Examples.ever_free_voxel)
           (0, 0, 0) 0%nat Examples.occupied_voxel).
  - apply Examples_layer_wf.
  - reflexivity.
  - vm_compute. congruence.
Defined.

Lemma C6_second_update_is_identity_witness :
  exists L',
    EverFreeIntegrator.updateEverFreeVoxels Examples.integrator
      (Examples.layer_of Examples.occupied_voxel Examples.ever_free_voxel)
      10 = Some L' /\
    EverFreeIntegrator.updateEverFreeVoxels Examples.integrator L' 10
    = Some L'.
Proof.
  apply (C6_second_update_is_identity Examples.integrator 10
           Examples_integrator_valid).
  - apply Examples_layer_wf.
  - reflexivity.
Defined.

Lemma C9_stale_voxels_not_dynamic_witness :
  let v := set_dynamic true Examples.stale_counter_voxel in
  exists L' v',
    EverFreeIntegrator.updateEverFreeVoxels Examples.integrator
      (Examples.layer_of v Examples.free_voxel) 10 = Some L' /\
    Inv.voxelAtLinear L' (0, 0, 0) 0 = Some v' /\ dynamic v' = false.
Proof.
  apply (C9_stale_voxels_not_dynamic Examples.integrator 10
           Examples_integrator_valid
           (Examples.layer_of (set_dynamic true Examples.stale_counter_voxel)
              Examples.free_voxel)
           (0, 0, 0) 0%nat (set_dynamic true Examples.stale_counter_voxel)).
  - apply Examples_layer_wf.
  - vm_compute. apply list_elem_of_here.
  - reflexivity.
  - vm_compute. reflexivity.
Defined.

(** ** The callback *)

Section FilterOut.

Import MotionDetector.

(** What the last loop does to one classification record. *)
Let derive (p : PointInfo) : PointInfo :=
  if cluster_level_dynamic p then set_filtered_out true p else p.

Let body (st : list PointInfo * nat) (point : Pcl.PointXYZ)
  : option (list PointInfo * nat) :=
  p ← st.1 !! st.2;
  Some (if cluster_level_dynamic p
        then <[st.2 := set_filtered_out true p]> st.1
        else st.1,
        S st.2).

Lemma filterOut_loop (cloud : Cloud) :
  forall visited rest : list PointInfo,
    length cloud = length rest ->
    for_each body cloud (visited ++ rest, length visited) =
    Some (visited ++ (derive <$> rest),
          (length visited + length cloud)%nat).
Proof.
  induction cloud as [|c cloud IH]; intros visited [|p rest] Hlen;
    simpl in Hlen; try discriminate.
  - simpl. by rewrite Nat.add_0_r.
  - cbn [for_each]. unfold body at 1. cbn [fst snd].
    rewrite list_lookup_middle by done. cbn [mbind option_bind].
    assert (Hins :
      (if cluster_level_dynamic p
       then <[length visited := set_filtered_out true p]>
              (visited ++ p :: rest)
       else visited ++ p :: rest)
      = (visited ++ [derive p]) ++ rest).
    { unfold derive. rewrite <- app_assoc. simpl.
      destruct (cluster_level_dynamic p); [|done].
      rewrite insert_app_r_alt by done. by rewrite Nat.sub_diag. }
    rewrite Hins.
    replace (S (length visited)) with (length (visited ++ [derive p]))
      by (rewrite length_app; simpl; lia).
    rewrite IH by lia. rewrite <- app_assoc, length_app. simpl.
    do 2 f_equal. lia.
Qed.

(** The derivation of [filtered_out]: when the classification has one
    record per point, every record whose [cluster_level_dynamic] is set gets
    [filtered_out], and nothing else changes. *)
Lemma filterOut_spec (cloud : Cloud) (info : CloudInfo) :
  length cloud = length (points info) ->
  filterOut cloud info = Some (mkCloudInfo (derive <$> points info)).
Proof.
  intros Hlen. unfold filterOut.
  pose proof (filterOut_loop cloud [] (points info) Hlen) as Hloop.
  simpl in Hloop. unfold body in Hloop. rewrite Hloop. reflexivity.
Qed.

End FilterOut.

Section Callback.

Import MotionDetector.

Context {E : Collaborators}.

(** The transform the callback finds for a message, if any. *)
Let found (this : t E) (msg : PointCloud2) : option (StampedTransform E) :=
  lookupTransform this (global_frame_name (config_ this))
    (sensorFrameName (config_ this) msg) (stamp msg).

Ltac run_callback :=
  unfold run, pointcloudCallback;
  repeat first
    [ progress unfold mbind, M_bind, mret, M_ret, get, modify_shared,
        modify, exit, orAbort, stage
    | progress cbn [config_ set_frame_counter_ frame_counter_ shared_
                    set_shared_ fst snd app]
    | match goal with
      | |- context [match ?o with Some _ => _ | None => _ end] =>
          destruct o eqn:?
      | |- context [if ?c then _ else _] => destruct c eqn:?
      end ].

Lemma lookupTransform_frame_counter (this : t E) (x : Z)
    (target source : string) (timestamp : Z) :
  lookupTransform (set_frame_counter_ x this) target source timestamp =
  lookupTransform this target source timestamp.
Proof. reflexivity. Qed.

(** Every run counts its frame: the counter is incremented once, whether the
    callback runs to its end, returns early or is aborted. *)
Lemma pointcloudCallback_frame_counter (this : t E) (msg : PointCloud2) :
  frame_counter_ (run this msg).1.2 = Int.incr (frame_counter_ this).
Proof. run_callback; reflexivity. Qed.

(** The calls of a run are an initial part of the full sequence. *)
Lemma pointcloudCallback_trace_prefix (this : t E) (msg : PointCloud2) :
  (run this msg).2 `prefix_of` full_trace (config_ this).
Proof.
  unfold full_trace. run_callback;
    repeat match goal with H : _ = _ |- _ => rewrite H end;
    simpl;
    repeat first [ apply prefix_cons | apply prefix_nil | reflexivity ].
Qed.

(** C4, as the code has it.  In every frame the callback processes to its
    end, the stages run in the order: index builder
    ([setUpVoxel2PointMap]), clustering ([clusteringStep]), ever-free
    integration ([everFreeIntegrationStep]), derivation of [filtered_out];
    the clustering has ended when the ever-free update begins. *)
Theorem C4_clustering_before_ever_free (this : t E) (msg : PointCloud2) :
  (run this msg).1.1 = inr () ->
  (run this msg).2 = full_trace (config_ this) /\
  stages (run this msg).2 =
  [CallSetUpVoxel2PointMap; CallClusteringStep;
   CallEverFreeIntegrationStep; CallFilterOut].
Proof.
  intros Hdone.
  assert (Htrace : (run this msg).2 = full_trace (config_ this)).
  { revert Hdone. unfold full_trace. run_callback;
      repeat match goal with H : _ = _ |- _ => rewrite H end;
      simpl; intros; congruence. }
  split; [done|]. rewrite Htrace. unfold full_trace.
  destruct (evaluate (config_ this)), (visualize (config_ this));
    reflexivity.
Qed.

(** C7, as the code has it.  When the transform lookup fails the callback
    returns right after it: nothing of the detector changes but the frame
    counter, which is incremented; and the counter is incremented exactly
    once in every call of the callback, dropped frame or not. *)
Theorem C7_dropped_frame_is_counted (this : t E) (msg : PointCloud2) :
  found this msg = None ->
  run this msg =
    (inl Returned,
     set_frame_counter_ (Int.incr (frame_counter_ this)) this,
     [CallLookupTransform]) /\
  forall this' : t E,
    frame_counter_ (run this' msg).1.2 = Int.incr (frame_counter_ this').
Proof.
  intros Hfound. split; [|intros; apply pointcloudCallback_frame_counter].
  unfold found in Hfound. unfold run, pointcloudCallback.
  unfold mbind, M_bind, mret, M_ret, get, modify, stage.
  cbn [config_ set_frame_counter_].
  rewrite lookupTransform_frame_counter, Hfound. reflexivity.
Qed.

End Callback.

(** A processed frame on a concrete map: the clustering comes before the
    ever-free integration. *)
Example run_processed :
  let r := MotionDetector.run
             (Examples.detector true
                (Examples.layer_of Examples.stale_counter_voxel
                   Examples.ever_free_voxel))
             Examples.message in
  r.1.1 = inr tt /\
  r.2 = [MotionDetector.CallLookupTransform;
         MotionDetector.CallProcessPointcloud;
         MotionDetector.CallSetUpVoxel2PointMap;
         MotionDetector.CallClusteringStep;
         MotionDetector.CallEverFreeIntegrationStep;
         MotionDetector.CallFilterOut;
         MotionDetector.CallTsdfIntegration] /\
  MotionDetector.frame_counter_ r.1.2 = 10.
Proof. vm_compute. repeat split; reflexivity. Qed.

Lemma C4_clustering_before_ever_free_witness :
  let r := MotionDetector.run
             (Examples.detector true
                (Examples.layer_of Examples.stale_counter_voxel
                   Examples.ever_free_voxel))
             Examples.message in
  r.2 = MotionDetector.full_trace Examples.detector_config /\
  MotionDetector.stages r.2 =
  [MotionDetector.CallSetUpVoxel2PointMap;
   MotionDetector.CallClusteringStep;
   MotionDetector.CallEverFreeIntegrationStep;
   MotionDetector.CallFilterOut].
Proof.
  apply (C4_clustering_before_ever_free
           (Examples.detector true
              (Examples.layer_of Examples.stale_counter_voxel
                 Examples.ever_free_voxel))
           Examples.message).
  vm_compute. reflexivity.
Defined.

(** The order of section 4.5 of the design document is not the order of a
    processed frame. *)
Lemma C4_documented_order_counterexample :
  let r := MotionDetector.run
             (Examples.detector true
                (Examples.layer_of Examples.stale_counter_voxel
                   Examples.ever_free_voxel))
             Examples.message in
  r.1.1 = inr tt /\
  MotionDetector.stages r.2 <> MotionDetector.documented_order.
Proof. vm_compute. split; [reflexivity|discriminate]. Qed.

Lemma C7_dropped_frame_is_counted_witness :
  let this := Examples.detector false
                (Examples.layer_of Examples.free_voxel Examples.free_voxel) in
  MotionDetector.run this Examples.message =
    (inl MotionDetector.Returned,
     MotionDetector.set_frame_counter_ 10 this,
     [MotionDetector.CallLookupTransform]) /\
  forall this' : MotionDetector.t (Examples.collaborators false),
    MotionDetector.frame_counter_
      (MotionDetector.run this' Examples.message).1.2
    = Int.incr (MotionDetector.frame_counter_ this').
Proof.
  apply (C7_dropped_frame_is_counted
           (Examples.detector false
              (Examples.layer_of Examples.free_voxel Examples.free_voxel))
           Examples.message).
  reflexivity.
Defined.

(** A dropped frame changes the detector: its frame counter. *)
Lemma C7_state_unchanged_counterexample :
  let this := Examples.detector false
                (Examples.layer_of Examples.free_voxel Examples.free_voxel) in
  MotionDetector.lookupTransform this "map" "lidar" 1000 = None /\
  (MotionDetector.run this Examples.message).1.1
  = inl MotionDetector.Returned /\
  (MotionDetector.run this Examples.message).1.2 <> this.
Proof.
  split; [reflexivity|]. split; [reflexivity|].
  intros Heq. apply (f_equal MotionDetector.frame_counter_) in Heq.
  vm_compute in Heq. discriminate.
Qed.

(** The ever-free integration is handed the map as the clustering left it. *)
Lemma pointcloudCallback_dataflow {E : MotionDetector.Collaborators}
    (this : MotionDetector.t E) (msg : MotionDetector.PointCloud2) :
  (MotionDetector.run this msg).1.1 = inr tt ->
  exists T maps sh,
    let this0 :=
      MotionDetector.set_frame_counter_
        (Int.incr (MotionDetector.frame_counter_ this)) this in
    let cloud := (MotionDetector.processPointcloud E msg T).1 in
    let this1 :=
      MotionDetector.set_shared_
        (MotionDetector.set_point_classifications_
           (MotionDetector.processPointcloud E msg T).2
           (MotionDetector.shared_ this0)) this0 in
    let this2 := MotionDetector.set_shared_ sh this1 in
    let clustered := MotionDetector.clusteringStep this2 maps cloud sh in
    MotionDetector.setUpVoxel2PointMap this1 cloud = Some (maps, sh) /\
    is_Some (MotionDetector.everFreeIntegrationStep
               (MotionDetector.set_shared_ clustered this2)
               (MotionDetector.tsdf_layer_ clustered)).
Proof.
  unfold MotionDetector.run, MotionDetector.pointcloudCallback.
  unfold mbind, MotionDetector.M_bind, mret, MotionDetector.M_ret,
    MotionDetector.get, MotionDetector.modify_shared, MotionDetector.modify,
    MotionDetector.stage.
  cbn [MotionDetector.config_ MotionDetector.set_frame_counter_].
  destruct (MotionDetector.lookupTransform _ _ _ _) as [T|]; [|done].
  cbn [MotionDetector.shared_ MotionDetector.set_shared_ fst snd].
  destruct (MotionDetector.setUpVoxel2PointMap _ _) as [[maps sh]|] eqn:Hset;
    [|done].
  unfold MotionDetector.orAbort, mret, MotionDetector.M_ret.
  cbn [MotionDetector.shared_ MotionDetector.set_shared_ fst snd].
  destruct (MotionDetector.everFreeIntegrationStep _ _) as [L2|] eqn:Hef;
    [|done].
  intros _. exists T, maps, sh. cbv zeta. split; [exact Hset|].
  rewrite Hef. by eexists.
Qed.

(** ** The two integration steps *)

(** The two steps in full on one map at frame 10, with the integrator of
    the sources behind both: what they leave at the origin and at one of its
    neighbours. *)
Example integration_steps_whole :
  let L := Examples.layer_of Examples.flagged_voxel
             Examples.ever_free_voxel in
  let this := MotionDetector.set_frame_counter_ 10
                (Examples.detector true L) in
  (MotionDetector.everFreeIntegrationStep this L
   ≫= fun L' => Some (Inv.voxelAtLinear L' (0, 0, 0) 0,
                       Inv.voxelAtLinear L' (0, 1, 0) 0))
  = Some (Some (set_moving false Examples.flagged_voxel),
          Some Examples.ever_free_voxel) /\
  (EverFreeIntegrator.updateEverFreeVoxels Examples.integrator L 10
   ≫= fun L' => Some (Inv.voxelAtLinear L' (0, 0, 0) 0,
                       Inv.voxelAtLinear L' (0, 1, 0) 0))
  = Some (Some (set_dynamic false Examples.flagged_voxel),
          Some Examples.free_voxel).
Proof. split; vm_compute; reflexivity. Qed.

(** C5.  The integration step of the callback and the stand-alone
    integrator follow different rules.  Whatever the collaborators of the
    callback do, and with the reset counts, the buffer of two frames and the
    occupancy thresholds of the two equal: on the map below at frame 10 the
    first loops of the two leave different cell states.  The cell at the
    origin has a counter above the reset count, so the integrator ([>=])
    retracts it and its neighbours and the callback's step ([==]) does
    not; the integrator clears [dynamic] from [last_lidar_occupied], the
    callback's step clears [moving] from [curr_occupied]. *)
Theorem C5_integration_steps_differ (E : MotionDetector.Collaborators)
    (clusters : MotionDetector.Clusters E) :
  let L := Examples.layer_of Examples.flagged_voxel
             Examples.ever_free_voxel in
  let this : MotionDetector.t E :=
    MotionDetector.mkDetector Examples.detector_config Examples.integrator
      1 10
      (MotionDetector.mkShared L (MotionDetector.mkCloudInfo []) clusters) in
  let config := EverFreeIntegrator.config_ Examples.integrator in
  MotionDetector.three_halves_voxel_size E
  = EverFreeIntegrator.tsdf_occupancy_threshold config ->
  MotionDetector.occ_counter_to_reset (MotionDetector.config_ this)
  = EverFreeIntegrator.counter_to_reset config /\
  EverFreeIntegrator.temporal_buffer config = 2 /\
  exists (L1 L2 : Layer) (c1 c2 n1 n2 : TsdfVoxel),
    MotionDetector.everFreeIntegrationStep_remove this
      (Voxblox.getAllUpdatedBlocks L) L = Some L1 /\
    EverFreeIntegrator.removeOccupied Examples.integrator
      (MotionDetector.frame_counter_ this)
      (Voxblox.getAllUpdatedBlocks L) L = Some L2 /\
    Inv.voxelAtLinear L1 (0, 0, 0) 0 = Some c1 /\
    Inv.voxelAtLinear L2 (0, 0, 0) 0 = Some c2 /\
    Inv.voxelAtLinear L1 (0, 1, 0) 0 = Some n1 /\
    Inv.voxelAtLinear L2 (0, 1, 0) 0 = Some n2 /\
    (ever_free c1 = true /\ ever_free c2 = false) /\
    (ever_free n1 = true /\ ever_free n2 = false) /\
    (dynamic c1 = true /\ dynamic c2 = false) /\
    (moving c1 = false /\ moving c2 = true).
Proof.
  revert clusters. destruct E. simpl. intros clusters ->.
  split; [reflexivity|]. split; [reflexivity|].
  eexists _, _,
    (set_moving false Examples.flagged_voxel),
    (EverFreeIntegrator.removeAttributes Examples.flagged_voxel),
    Examples.ever_free_voxel, Examples.free_voxel.
  repeat split; vm_compute; reflexivity.
Qed.

Lemma C5_integration_steps_differ_witness :
  exists (L1 L2 : Layer) (c1 c2 : TsdfVoxel),
    MotionDetector.everFreeIntegrationStep_remove
      (MotionDetector.set_frame_counter_ 10
         (Examples.detector true
            (Examples.layer_of Examples.flagged_voxel
               Examples.ever_free_voxel)))
      [(0, 0, 0)]
      (Examples.layer_of Examples.flagged_voxel Examples.ever_free_voxel)
    = Some L1 /\
    EverFreeIntegrator.removeOccupied Examples.integrator 10 [(0, 0, 0)]
      (Examples.layer_of Examples.flagged_voxel Examples.ever_free_voxel)
    = Some L2 /\
    Inv.voxelAtLinear L1 (0, 0, 0) 0 = Some c1 /\
    Inv.voxelAtLinear L2 (0, 0, 0) 0 = Some c2 /\
    ever_free c1 = true /\ ever_free c2 = false.
Proof.
  destruct (C5_integration_steps_differ (Examples.collaborators true) tt
              eq_refl)
    as (_ & _ & L1 & L2 & c1 & c2 & n1 & n2 & H1 & H2 & Hc1 & Hc2 & _ & _
        & [He1 He2] & _).
  exists L1, L2, c1, c2. repeat split; assumption.
Defined.

(** ** Missing blocks *)

Lemma BlockwiseBuildVoxel2PointMap_absent {E : MotionDetector.Collaborators}
    (this : MotionDetector.t E) (L : Layer) (blockindex : BlockIndex)
    (block2points_map : HierarchicalIndexIntMap) (all_points : Cloud)
    (st : HierarchicalIndexIntMap * MotionDetector.CloudInfo) :
  L !! blockindex = None ->
  MotionDetector.BlockwiseBuildVoxel2PointMap this L blockindex
    block2points_map all_points st = Some st.
Proof.
  intros Habsent. unfold MotionDetector.BlockwiseBuildVoxel2PointMap,
    Voxblox.hasBlock. rewrite Habsent.
  rewrite bool_decide_eq_false_2; [done|]. by intros [? ?].
Qed.


(** * Part III: further properties of the two files *)

(** ** Layers by their voxels *)

Lemma for_each_preserves {S A : Type} (body : S -> A -> option S)
    (P : S -> Prop) (l : list A) :
  (forall a s s', a ∈ l -> P s -> body s a = Some s' -> P s') ->
  forall s s', P s -> for_each body l s = Some s' -> P s'.
Proof.
  induction l as [|a l IH]; intros Hstep s s' Hs Hrun; simpl in Hrun.
  - by injection Hrun as <-.
  - destruct (body s a) as [s1|] eqn:Hb; [|done].
    apply (IH (fun a' t t' Ha' => Hstep a' t t' (list_elem_of_further _ _ _ Ha'))
              s1 s'); [|done].
    eapply Hstep; [apply list_elem_of_here | exact Hs | exact Hb].
Qed.

(** Two layers with the same update bits and the same voxels are equal. *)
Lemma layer_ext (L1 L2 : Layer) :
  (forall b : BlockIndex, Frame.updatedBit L1 b = Frame.updatedBit L2 b) ->
  (forall (b : BlockIndex) (i : nat),
      Inv.voxelAtLinear L1 b i = Inv.voxelAtLinear L2 b i) ->
  L1 = L2.
Proof.
  intros Hbits Hvox. apply map_eq. intros b.
  specialize (Hbits b). specialize (Hvox b).
  unfold Frame.updatedBit, Inv.voxelAtLinear in *.
  destruct (L1 !! b) as [[vs1 f1]|], (L2 !! b) as [[vs2 f2]|];
    simpl in *; try done.
  injection Hbits as ->. f_equal. f_equal. by apply list_eq.
Qed.

Lemma voxelAtLinear_setVoxel (L : Layer) (b b' : BlockIndex) (i j : nat)
    (w : TsdfVoxel) :
  Inv.voxelAtLinear (Voxblox.setVoxel L b i w) b' j =
  if decide ((b, i) = (b', j))
  then Inv.voxelAtLinear L b i ≫= fun _ => Some w
  else Inv.voxelAtLinear L b' j.
Proof.
  case_decide as Heq.
  - injection Heq as <- <-.
    destruct (Inv.voxelAtLinear L b i) as [v|] eqn:Hv.
    + by rewrite (voxelAtLinear_setVoxel_eq L b i v w Hv).
    + unfold Inv.voxelAtLinear, Voxblox.setVoxel in *.
      rewrite lookup_alter_eq. destruct (L !! b) as [B|]; [|done].
      simpl in *. apply lookup_ge_None in Hv.
      rewrite list_insert_ge by done. by apply lookup_ge_None.
  - by apply voxelAtLinear_setVoxel_ne.
Qed.

Lemma updatedBit_setVoxel (L : Layer) (b b' : BlockIndex) (i : nat)
    (w : TsdfVoxel) :
  Frame.updatedBit (Voxblox.setVoxel L b i w) b' = Frame.updatedBit L b'.
Proof.
  unfold Frame.updatedBit, Voxblox.setVoxel. rewrite lookup_alter.
  case_decide as Hb; [subst b'|done]. by destruct (L !! b).
Qed.

Lemma lookup_setVoxel_ne (L : Layer) (b b' : BlockIndex) (i : nat)
    (w : TsdfVoxel) :
  b <> b' -> Voxblox.setVoxel L b i w !! b' = L !! b'.
Proof. intros Hne. unfold Voxblox.setVoxel. by rewrite lookup_alter_ne. Qed.

#[local] Instance clears_preorder : PreOrder Frame.clears.
Proof.
  split.
  - intros v. unfold Frame.clears. tauto.
  - intros v1 v2 v3. unfold Frame.clears. intuition congruence.
Qed.

#[local] Instance promotes_preorder : PreOrder Frame.promotes.
Proof.
  split.
  - intros v. unfold Frame.promotes. split; [by destruct v|tauto].
  - intros v1 v2 v3 [H12 M12] [H23 M23]. split; [|tauto].
    rewrite H23, H12. reflexivity.
Qed.

Lemma clears_retracts (v v' : TsdfVoxel) :
  Frame.clears v v' -> Inv.retracts v v'.
Proof.
  unfold Frame.clears, Frame.unflag, Inv.retracts. intros (Hu & Hd & He).
  destruct v, v'. simpl in *. injection Hu as -> -> -> -> -> -> -> -> ->.
  tauto.
Qed.

Lemma promotes_labels (v v' : TsdfVoxel) :
  Frame.promotes v v' -> Inv.labels v v'.
Proof. by intros [H _]. Qed.

Lemma labels_unflag (v v' : TsdfVoxel) :
  Inv.labels v v' -> Frame.unflag v' = Frame.unflag v.
Proof. unfold Inv.labels. intros ->. reflexivity. Qed.

Lemma removeAttributes_clears (v : TsdfVoxel) :
  Frame.clears v (EverFreeIntegrator.removeAttributes v).
Proof. unfold Frame.clears. simpl. tauto. Qed.

(** ** [removeEverFree] *)

Lemma layer_rel_eq_updatedBit (Rv : relation TsdfVoxel) (L L' : Layer)
    (b : BlockIndex) :
  Inv.layer_rel eq Rv L L' -> Frame.updatedBit L' b = Frame.updatedBit L b.
Proof.
  intros HR. unfold Frame.updatedBit.
  destruct (HR b) as [B B' [Hf _]|]; simpl; congruence.
Qed.

#[local] Instance unchangedOutside_preorder
    (footprint : list ((Z * Z * Z) * nat)) :
  PreOrder (Frame.unchangedOutside footprint).
Proof.
  split.
  - intros L b j _. reflexivity.
  - intros L1 L2 L3 H12 H23 b j Hout.
    rewrite (H23 b j Hout). by apply H12.
Qed.

Section RemoveEverFree.

Import Voxblox Inv EverFreeIntegrator.

Variable this : EverFreeIntegrator.t.
Hypothesis Hsearch : search_valid this.

Let n : nat := voxels_per_side_ this.

(** The relation every step of [removeEverFree] keeps to the layer it
    started from. *)
Let R (footprint : list (BlockIndex * nat)) (L L' : Layer) : Prop :=
  layer_rel eq Frame.clears L L' /\ Frame.unchangedOutside footprint L L'.

#[local] Instance R_preorder (footprint : list (BlockIndex * nat)) :
  PreOrder (R footprint).
Proof.
  split.
  - intros L. split; reflexivity.
  - intros L1 L2 L3 [H12 U12] [H23 U23]. split; by etrans.
Qed.

Lemma removeAttributesAt_clears (L : Layer) (b : BlockIndex)
    (vi : VoxelIndex) (footprint : list (BlockIndex * nat)) :
  layer_wf n L -> is_Some (L !! b) -> isValidVoxelIndex n vi = true ->
  (b, computeLinearIndexFromVoxelIndex n vi) ∈ footprint ->
  exists L', removeAttributesAt this L b vi = Some L' /\ R footprint L L'.
Proof.
  intros Hwf [B HB] Hvalid Hin.
  pose proof (linear_index_valid n vi Hvalid) as Hlin.
  destruct (voxelAtLinear_is_Some n L b B _ Hwf HB Hlin) as [v Hv].
  unfold removeAttributesAt, getBlockPtrByIndex. rewrite HB. simpl.
  assert (Hget : getVoxelByVoxelIndex n B vi = Some v).
  { unfold getVoxelByVoxelIndex. rewrite Hvalid.
    unfold voxelAtLinear in Hv. by rewrite HB in Hv. }
  fold n. rewrite Hget. simpl. eexists. split; [done|]. split.
  - eapply layer_rel_setVoxel; [apply _ | apply _ | done |].
    apply removeAttributes_clears.
  - intros b' j Hout. apply voxelAtLinear_setVoxel_ne.
    intros [= <- <-]. done.
Qed.

Lemma removeEverFree_clears (L : Layer) (b : BlockIndex) (vi : VoxelIndex) :
  layer_wf n L -> is_Some (L !! b) -> isValidVoxelIndex n vi = true ->
  exists L', removeEverFree this L b vi = Some L' /\
             R (Frame.removalFootprint this b vi) L L'.
Proof.
  intros Hwf Hb Hvalid. unfold removeEverFree.
  set (fp := Frame.removalFootprint this b vi).
  assert (Hfp : forall k : VoxelKey,
            k = (b, vi) \/ k ∈ neighborhood_search_ this b vi n ->
            (k.1, computeLinearIndexFromVoxelIndex n k.2) ∈ fp).
  { intros k Hk. unfold fp, Frame.removalFootprint. fold n.
    apply list_elem_of_fmap. exists k. split; [done|].
    destruct Hk as [->|Hk]; [apply list_elem_of_here|].
    by apply list_elem_of_further. }
  destruct (removeAttributesAt_clears L b vi fp Hwf Hb Hvalid)
    as (L1 & -> & HR1); [apply (Hfp (b, vi)); by left|]. simpl. fold n.
  match goal with |- context [for_each ?f _ _] => set (body := f) end.
  assert (Hkeep : forall s : Layer,
            R fp L s -> layer_wf n s /\
            forall b' : BlockIndex, is_Some (L !! b') -> is_Some (s !! b')).
  { intros s [HRs _]. split.
    - eapply layer_rel_wf; [|exact Hwf].
      eapply layer_rel_mono; [| |exact HRs]; [done|apply clears_retracts].
    - intros b' [B' HB'].
      destruct (layer_rel_lookup_l _ _ _ _ _ _ HRs HB') as (B2 & -> & _).
      by eexists. }
  destruct (for_each_stable body (R fp) (fun _ _ => True)
              (neighborhood_search_ this b vi n) L1)
    as (L' & Hrun & HR & _).
  - done.
  - intros k s1 Hk HR.
    assert (HRs : R fp L s1) by (by etrans).
    destruct (Hkeep s1 HRs) as [Hwf1 Hdom].
    assert (Hkv : isValidVoxelIndex n k.2 = true)
      by (eapply Hsearch; eauto).
    subst body. cbv beta. case_decide as Hkb.
    + destruct (removeAttributesAt_clears s1 b k.2 fp Hwf1 (Hdom b Hb) Hkv)
        as (s2 & Hs2 & HR2).
      { rewrite <- Hkb. apply Hfp. by right. }
      by exists s2.
    + unfold getBlockPtrByIndex. destruct (s1 !! k.1) as [Bk|] eqn:HBk.
      * destruct (removeAttributesAt_clears s1 k.1 k.2 fp Hwf1) as
          (s2 & Hs2 & HR2); [by rewrite HBk | done | |].
        { apply Hfp. by right. }
        by exists s2.
      * exists s1. split; [done|]. split; [reflexivity|done].
  - exists L'. split; [done|]. by etrans.
Qed.

(** X8.  [removeEverFree] on a voxel of an allocated block returns; it
    leaves the update bits as they are; of every voxel it leaves all fields
    but [ever_free] and [dynamic] as they are, and these two it only
    clears; and it leaves every voxel but the cell and its neighbours as it
    is. *)
Theorem removeEverFree_only_clears_flags (L : Layer) (b : BlockIndex)
    (vi : VoxelIndex) :
  layer_wf n L -> is_Some (L !! b) -> isValidVoxelIndex n vi = true ->
  exists L', removeEverFree this L b vi = Some L' /\
    (forall b' : BlockIndex,
        Frame.updatedBit L' b' = Frame.updatedBit L b') /\
    (forall (b' : BlockIndex) (j : nat) (v : TsdfVoxel),
        voxelAtLinear L b' j = Some v ->
        exists v', voxelAtLinear L' b' j = Some v' /\ Frame.clears v v') /\
    Frame.unchangedOutside (Frame.removalFootprint this b vi) L L'.
Proof.
  intros Hwf Hb Hvalid.
  destruct (removeEverFree_clears L b vi Hwf Hb Hvalid)
    as (L' & Hrun & HR & Hout).
  exists L'. split; [done|]. split; [|split; [|done]].
  - intros b'. by eapply layer_rel_eq_updatedBit.
  - intros b' j v Hv. by eapply layer_rel_voxelAtLinear_l.
Qed.

(** X9.  [removeEverFree] dereferences the block of the voxel without a
    test and skips the blocks of the neighbours that are not allocated: on
    a well-formed map and a valid voxel index it returns exactly when the
    block of the voxel is allocated. *)
Theorem removeEverFree_defined_iff (L : Layer) (b : BlockIndex)
    (vi : VoxelIndex) :
  layer_wf n L -> isValidVoxelIndex n vi = true ->
  is_Some (removeEverFree this L b vi) <-> is_Some (L !! b).
Proof.
  intros Hwf Hvalid. split.
  - unfold removeEverFree, removeAttributesAt, getBlockPtrByIndex.
    destruct (L !! b); [by eexists|]. by intros [? ?].
  - intros Hb.
    destruct (removeEverFree_clears L b vi Hwf Hb Hvalid) as (L' & -> & _).
    by eexists.
Qed.

End RemoveEverFree.


Lemma removeEverFree_only_clears_flags_witness :
  let L := Examples.layer_of Examples.occupied_voxel
             Examples.ever_free_voxel in
  exists L',
    EverFreeIntegrator.removeEverFree Examples.integrator L (0, 0, 0)
      (0, 0, 0) = Some L' /\
    (forall b' : BlockIndex,
        Frame.updatedBit L' b' = Frame.updatedBit L b') /\
    (forall (b' : BlockIndex) (j : nat) (v : TsdfVoxel),
        Inv.voxelAtLinear L b' j = Some v ->
        exists v', Inv.voxelAtLinear L' b' j = Some v' /\
                   Frame.clears v v') /\
    Frame.unchangedOutside
      (Frame.removalFootprint Examples.integrator (0, 0, 0) (0, 0, 0)) L L'.
Proof.
  apply (removeEverFree_only_clears_flags Examples.integrator
           Examples_integrator_valid
           (Examples.layer_of Examples.occupied_voxel
              Examples.ever_free_voxel) (0, 0, 0) (0, 0, 0)).
  - apply Examples_layer_wf.
  - by eexists.
  - reflexivity.
Defined.

(** A map without the block at the origin: the removal there is undefined,
    and it is defined at the origin of the whole map. *)
Lemma removeEverFree_defined_iff_witness :
  let L := Examples.layer_of Examples.occupied_voxel
             Examples.ever_free_voxel in
  is_Some (EverFreeIntegrator.removeEverFree Examples.integrator
             (delete (0, 0, 0) L) (0, 0, 0) (0, 0, 0)) <->
  is_Some (delete (0, 0, 0) L !! (0, 0, 0)).
Proof.
  apply (removeEverFree_defined_iff Examples.integrator
           Examples_integrator_valid
           (delete (0, 0, 0)
              (Examples.layer_of Examples.occupied_voxel
                 Examples.ever_free_voxel))
           (0, 0, 0) (0, 0, 0)).
  - apply map_Forall_delete, Examples_layer_wf.
  - reflexivity.
Defined.

(** ** [makeEverFree] *)

Section MakeEverFree.

Import Voxblox Inv EverFreeIntegrator.

Variable this : EverFreeIntegrator.t.
Variable frame_counter : Z.
Hypothesis Hsearch : search_valid this.

Let n : nat := voxels_per_side_ this.

(** The decision of the loop body for the voxel [v] at linear index [i] of
    the block [B] at [b]. *)
Let decides (L : Layer) (b : BlockIndex) (B : Block) (i : nat)
    (v : TsdfVoxel) : Prop :=
  ever_free v || f32_le_1e_6 (weight v)
  || (last_occupied v
      >? Int.sub frame_counter (burn_in_period (config_ this))) = false /\
  neighborOccupiedOrUnobserved this L b B frame_counter
    (neighborhood_search_ this b (computeVoxelIndexFromLinearIndex n i) n)
  = Some false.

(** The scan does not read the update bits either. *)
Lemma scan_rel_bits (Rf : relation bool) (L L' : Layer) (b : BlockIndex)
    (B B' : Block) (ns : list VoxelKey) :
  layer_rel Rf labels L L' -> L !! b = Some B -> L' !! b = Some B' ->
  neighborOccupiedOrUnobserved this L b B frame_counter ns =
  neighborOccupiedOrUnobserved this L' b B' frame_counter ns.
Proof.
  intros HR HB HB'. induction ns as [|k rest IH]; [done|].
  rewrite (scan_unfold this frame_counter L b B k rest HB),
    (scan_unfold this frame_counter L' b B' k rest HB').
  fold n. destruct (HR k.1) as [Bk Bk' HBk|]; [|done].
  destruct (getVoxelByVoxelIndex n Bk k.2) as [nv|] eqn:Hnv.
  - destruct (block_rel_getVoxelByVoxelIndex_l _ _ _ _ _ _ _ HBk Hnv)
      as (nv' & Hnv' & Hl). rewrite Hnv'. simpl.
    rewrite IH. unfold labels in Hl. rewrite Hl. reflexivity.
  - by rewrite (block_rel_getVoxelByVoxelIndex_None _ _ _ _ _ _ HBk Hnv).
Qed.

(** [makeEverFree] writes in no block but its own. *)
Lemma makeEverFree_other_blocks (L L' : Layer) (b b' : BlockIndex) :
  makeEverFree this L b frame_counter = Some L' -> b <> b' ->
  L' !! b' = L !! b'.
Proof.
  unfold makeEverFree, getBlockPtrByIndex. intros Hrun Hne.
  destruct (L !! b) as [B|]; [|congruence].
  destruct (for_each _ _ L) as [L1|] eqn:Hloop; [|done].
  injection Hrun as <-. unfold resetUpdatedEsdf.
  rewrite lookup_alter_ne by done.
  revert Hloop.
  apply (for_each_preserves (makeEverFree_body this frame_counter b)
           (fun s : Layer => s !! b' = L !! b')); [|done].
  intros i s s' _ Hs Hbody. unfold makeEverFree_body in Hbody.
  destruct (getBlockPtrByIndex s b) as [Bs|]; [|done]. simpl in Hbody.
  destruct (getVoxelByLinearIndex Bs i) as [v|]; [|done]. simpl in Hbody.
  destruct (_ || _ || _); [congruence|].
  destruct (neighborOccupiedOrUnobserved _ _ _ _ _ _) as [[]|];
    simpl in Hbody; try congruence.
  injection Hbody as <-. by rewrite lookup_setVoxel_ne.
Qed.

(** A full account of [makeEverFree] on an allocated block. *)
Lemma makeEverFree_char (L : Layer) (b : BlockIndex) (B : Block) :
  layer_wf n L -> L !! b = Some B ->
  exists L', makeEverFree this L b frame_counter = Some L' /\
    layer_rel flag_le labels L L' /\
    (forall b' : BlockIndex, b <> b' -> L' !! b' = L !! b') /\
    Frame.updatedBit L' b = Some false /\
    forall i v, voxelAtLinear L b i = Some v ->
      exists v', voxelAtLinear L' b i = Some v' /\ labels v v' /\
        (ever_free v' = true <-> ever_free v = true \/ decides L b B i v).
Proof.
  intros Hwf HB.
  destruct (makeEverFree_spec this frame_counter Hsearch L b B Hwf HB)
    as (L' & Hrun & HR & Hflag & Hvox).
  exists L'. split; [done|]. split; [done|]. split; [|split].
  - intros b' Hne. by eapply makeEverFree_other_blocks.
  - unfold Frame.updatedBit.
    destruct (layer_rel_lookup_l _ _ _ _ _ _ HR HB) as (B' & HB' & _).
    rewrite HB'. simpl. f_equal. by eapply Hflag.
  - intros i v Hv. destruct (Hvox i v Hv) as (v' & Hv' & Hiff).
    exists v'. split; [done|]. split; [|exact Hiff].
    destruct (layer_rel_voxelAtLinear_l _ _ _ _ _ _ _ HR Hv)
      as (v'' & Hv'' & Hl). congruence.
Qed.

(** X5.  [makeEverFree] returns on every well-formed map.  It leaves every
    other block exactly as it is; in its own block it writes nothing but
    [ever_free], which it never clears; and it resets the update bit of its
    block. *)
Theorem makeEverFree_writes_own_block (L : Layer) (b : BlockIndex) :
  layer_wf n L ->
  exists L', makeEverFree this L b frame_counter = Some L' /\
    (forall b' : BlockIndex, b <> b' -> L' !! b' = L !! b') /\
    (forall i v, voxelAtLinear L b i = Some v ->
       exists v', voxelAtLinear L' b i = Some v' /\ Frame.promotes v v') /\
    (is_Some (L !! b) -> Frame.updatedBit L' b = Some false).
Proof.
  intros Hwf. destruct (L !! b) as [B|] eqn:HB.
  - destruct (makeEverFree_char L b B Hwf HB)
      as (L' & Hrun & _ & Hother & Hbit & Hvox).
    exists L'. split; [done|]. split; [done|]. split; [|done].
    intros i v Hv. destruct (Hvox i v Hv) as (v' & Hv' & Hl & Hiff).
    exists v'. split; [done|]. split; [done|]. intros He. apply Hiff.
    by left.
  - exists L. unfold makeEverFree, getBlockPtrByIndex. rewrite HB.
    split; [done|]. split; [done|]. split.
    + intros i v Hv. unfold voxelAtLinear in Hv. by rewrite HB in Hv.
    + by intros [? ?].
Qed.

Lemma voxelAtLinear_same_block (L L' : Layer) (b : BlockIndex) (i : nat) :
  L' !! b = L !! b -> voxelAtLinear L' b i = voxelAtLinear L b i.
Proof. unfold voxelAtLinear. by intros ->. Qed.

Lemma updatedBit_same_block (L L' : Layer) (b : BlockIndex) :
  L' !! b = L !! b -> Frame.updatedBit L' b = Frame.updatedBit L b.
Proof. unfold Frame.updatedBit. by intros ->. Qed.

Lemma labels_determined (v v1 v2 : TsdfVoxel) :
  labels v v1 -> labels v v2 ->
  (ever_free v1 = true <-> ever_free v2 = true) -> v1 = v2.
Proof.
  unfold labels. intros H1 H2 Hiff. rewrite H1, H2.
  destruct (ever_free v1), (ever_free v2); try done.
  - assert (false = true) by (by apply Hiff). done.
  - assert (false = true) by (by apply Hiff). done.
Qed.

(** What the two orders of labelling two allocated blocks leave in the
    block labelled first. *)
Lemma makeEverFree_swap_voxel (L L1 L2 L21 : Layer) (b1 b2 : BlockIndex)
    (B1 : Block) (i : nat) :
  layer_wf n L -> b1 <> b2 -> L !! b1 = Some B1 ->
  makeEverFree this L b1 frame_counter = Some L1 ->
  makeEverFree this L b2 frame_counter = Some L2 ->
  makeEverFree this L2 b1 frame_counter = Some L21 ->
  voxelAtLinear L21 b1 i = voxelAtLinear L1 b1 i /\
  Frame.updatedBit L21 b1 = Frame.updatedBit L1 b1.
Proof.
  intros Hwf Hne HB1 H1 H2 H21.
  destruct (makeEverFree_char L b1 B1 Hwf HB1)
    as (L1' & H1' & HR1 & _ & Hbit1 & Hvox1).
  assert (L1' = L1) as -> by congruence.
  assert (HB1' : L2 !! b1 = Some B1).
  { rewrite <- HB1. eapply makeEverFree_other_blocks; eauto. }
  assert (HR2 : layer_rel flag_le labels L L2).
  { destruct (L !! b2) as [B2|] eqn:HB2.
    - destruct (makeEverFree_char L b2 B2 Hwf HB2) as (L2' & H2' & HR & _).
      by assert (L2' = L2) as -> by congruence.
    - unfold makeEverFree, getBlockPtrByIndex in H2. rewrite HB2 in H2.
      injection H2 as <-. reflexivity. }
  assert (Hwf2 : layer_wf n L2) by (eapply layer_rel_wf; eauto).
  destruct (makeEverFree_char L2 b1 B1 Hwf2 HB1')
    as (L21' & H21' & HR21 & _ & Hbit21 & Hvox21).
  assert (L21' = L21) as -> by congruence.
  split; [|congruence].
  assert (Hsame : voxelAtLinear L2 b1 i = voxelAtLinear L b1 i).
  { apply voxelAtLinear_same_block. congruence. }
  destruct (voxelAtLinear L b1 i) as [v|] eqn:Hv.
  - destruct (Hvox1 i v Hv) as (v1 & Hv1 & Hl1 & Hiff1).
    destruct (Hvox21 i v Hsame) as (v21 & Hv21 & Hl21 & Hiff21).
    rewrite Hv1, Hv21. f_equal.
    apply (labels_determined v); [done|done|].
    rewrite Hiff1, Hiff21. unfold decides.
    by rewrite (scan_rel_bits flag_le L L2 b1 B1 B1 _ HR2 HB1 HB1').
  - destruct (voxelAtLinear L1 b1 i) as [v1|] eqn:Hv1.
    { destruct (layer_rel_voxelAtLinear_r _ _ _ _ _ _ _ HR1 Hv1)
        as (v & Hv' & _). congruence. }
    destruct (voxelAtLinear L21 b1 i) as [v21|] eqn:Hv21; [|done].
    destruct (layer_rel_voxelAtLinear_r _ _ _ _ _ _ _ HR21 Hv21)
      as (v & Hv' & _). congruence.
Qed.

Lemma makeEverFree_total (L : Layer) (b : BlockIndex) :
  layer_wf n L ->
  exists L', makeEverFree this L b frame_counter = Some L' /\
             layer_wf n L'.
Proof.
  intros Hwf. destruct (L !! b) as [B|] eqn:HB.
  - destruct (makeEverFree_char L b B Hwf HB) as (L' & Hrun & HR & _).
    exists L'. split; [done|]. eapply layer_rel_wf; eauto.
  - exists L. unfold makeEverFree, getBlockPtrByIndex. by rewrite HB.
Qed.

(** Labelling two different blocks in either order gives the same map. *)
Lemma makeEverFree_swap (L : Layer) (b1 b2 : BlockIndex) :
  layer_wf n L -> b1 <> b2 ->
  makeEverFree this L b1 frame_counter
  ≫= (fun L1 => makeEverFree this L1 b2 frame_counter) =
  makeEverFree this L b2 frame_counter
  ≫= (fun L2 => makeEverFree this L2 b1 frame_counter).
Proof.
  intros Hwf Hne.
  destruct (makeEverFree_total L b1 Hwf) as (L1 & H1 & Hwf1).
  destruct (makeEverFree_total L b2 Hwf) as (L2 & H2 & Hwf2).
  destruct (makeEverFree_total L1 b2 Hwf1) as (L12 & H12 & _).
  destruct (makeEverFree_total L2 b1 Hwf2) as (L21 & H21 & _).
  rewrite H1, H2. simpl. rewrite H12, H21. f_equal.
  assert (Hb1 : forall b, b1 <> b -> L1 !! b = L !! b)
    by (intros; by eapply makeEverFree_other_blocks).
  assert (Hb2 : forall b, b2 <> b -> L2 !! b = L !! b)
    by (intros; by eapply makeEverFree_other_blocks).
  assert (Hb12 : forall b, b2 <> b -> L12 !! b = L1 !! b)
    by (intros; by eapply makeEverFree_other_blocks).
  assert (Hb21 : forall b, b1 <> b -> L21 !! b = L2 !! b)
    by (intros; by eapply makeEverFree_other_blocks).
  assert (Hat : forall b i,
    voxelAtLinear L12 b i = voxelAtLinear L21 b i /\
    Frame.updatedBit L12 b = Frame.updatedBit L21 b).
  { intros b i. destruct (decide (b = b1)) as [->|Hn1];
      [|destruct (decide (b = b2)) as [->|Hn2]].
    - rewrite (voxelAtLinear_same_block L1 L12 b1 i) by (by apply Hb12).
      rewrite (updatedBit_same_block L1 L12 b1) by (by apply Hb12).
      destruct (L !! b1) as [B1|] eqn:HB1.
      + destruct (makeEverFree_swap_voxel L L1 L2 L21 b1 b2 B1 i)
          as [Hv Hbit]; [done..|]. by rewrite Hv, Hbit.
      + unfold makeEverFree, getBlockPtrByIndex in H1. rewrite HB1 in H1.
        injection H1 as <-.
        assert (HB1' : L2 !! b1 = None) by (rewrite <- HB1; by apply Hb2).
        unfold makeEverFree, getBlockPtrByIndex in H21.
        rewrite HB1' in H21. injection H21 as <-.
        unfold voxelAtLinear, Frame.updatedBit. by rewrite HB1, HB1'.
    - rewrite (voxelAtLinear_same_block L2 L21 b2 i) by (by apply Hb21).
      rewrite (updatedBit_same_block L2 L21 b2) by (by apply Hb21).
      destruct (L !! b2) as [B2|] eqn:HB2.
      + destruct (makeEverFree_swap_voxel L L2 L1 L12 b2 b1 B2 i)
          as [Hv Hbit]; [done..|]. by rewrite Hv, Hbit.
      + unfold makeEverFree, getBlockPtrByIndex in H2. rewrite HB2 in H2.
        injection H2 as <-.
        assert (HB2' : L1 !! b2 = None) by (rewrite <- HB2; by apply Hb1).
        unfold makeEverFree, getBlockPtrByIndex in H12.
        rewrite HB2' in H12. injection H12 as <-.
        unfold voxelAtLinear, Frame.updatedBit. by rewrite HB2, HB2'.
    - assert (L12 !! b = L21 !! b) as Heq.
      { rewrite Hb12, Hb1, Hb21, Hb2 by done. done. }
      unfold voxelAtLinear, Frame.updatedBit. by rewrite Heq. }
  apply layer_ext; intros b; [apply (Hat b 0%nat)|intros i; apply Hat].
Qed.

(** X7.  The labelling of distinct blocks does not depend on the order in
    which the blocks are drawn: any two orders of the same blocks give the
    same map. *)
Theorem labelBlocks_order_independent (blocks blocks' : list BlockIndex) :
  blocks ≡ₚ blocks' -> NoDup blocks ->
  forall L : Layer, layer_wf n L ->
    Frame.labelBlocks this frame_counter blocks L =
    Frame.labelBlocks this frame_counter blocks' L.
Proof.
  unfold Frame.labelBlocks.
  induction 1 as [|b l l' Hperm IH|b1 b2 l|l1 l2 l3 H12 IH12 H23 IH23];
    intros Hnodup L Hwf.
  - done.
  - apply NoDup_cons in Hnodup as [_ Hnodup]. simpl.
    destruct (makeEverFree_total L b Hwf) as (L1 & -> & Hwf1).
    by apply IH.
  - apply NoDup_cons in Hnodup as [Hnot _].
    assert (Hne : b2 <> b1).
    { intros ->. apply Hnot, list_elem_of_here. }
    pose proof (makeEverFree_swap L b2 b1 Hwf Hne) as Hswap.
    cbn [for_each].
    destruct (makeEverFree this L b1 frame_counter) as [L1|],
             (makeEverFree this L b2 frame_counter) as [L2|];
      simpl in Hswap.
    + destruct (makeEverFree this L1 b2 frame_counter) as [L12|],
               (makeEverFree this L2 b1 frame_counter) as [L21|];
        congruence.
    + destruct (makeEverFree this L1 b2 frame_counter); congruence.
    + destruct (makeEverFree this L2 b1 frame_counter); congruence.
    + done.
  - rewrite IH12 by done. apply IH23; [|done]. by rewrite <- H12.
Qed.

(** X6.  Labelling a block a second time changes nothing: what a first
    pass over the block did not promote, a second pass does not promote
    either. *)
Theorem makeEverFree_idempotent (L : Layer) (b : BlockIndex) :
  layer_wf n L ->
  exists L1, makeEverFree this L b frame_counter = Some L1 /\
             makeEverFree this L1 b frame_counter = Some L1.
Proof.
  intros Hwf. destruct (L !! b) as [B|] eqn:HB.
  - destruct (makeEverFree_char L b B Hwf HB)
      as (L1 & Hrun & HR & Hother & Hbit & Hvox).
    assert (Hwf1 : layer_wf n L1) by (eapply layer_rel_wf; eauto).
    destruct (layer_rel_lookup_l _ _ _ _ _ _ HR HB) as (B1 & HB1 & _).
    destruct (makeEverFree_char L1 b B1 Hwf1 HB1)
      as (L11 & Hrun1 & HR11 & Hother1 & Hbit1 & Hvox1).
    exists L1. split; [done|]. rewrite Hrun1. f_equal.
    apply layer_ext.
    + intros b'. destruct (decide (b = b')) as [<-|Hne]; [congruence|].
      apply updatedBit_same_block. by apply Hother1.
    + intros b' i. destruct (decide (b = b')) as [<-|Hne];
        [|apply voxelAtLinear_same_block; by apply Hother1].
      destruct (voxelAtLinear L1 b i) as [v1|] eqn:Hv1.
      * destruct (layer_rel_voxelAtLinear_r _ _ _ _ _ _ _ HR Hv1)
          as (v & Hv & _).
        destruct (Hvox i v Hv) as (v1' & Hv1' & Hl & Hiff).
        assert (v1' = v1) as -> by congruence.
        destruct (Hvox1 i v1 Hv1) as (v11 & Hv11 & Hl1 & Hiff1).
        rewrite Hv11. f_equal.
        apply (labels_determined v1); [done|by destruct v1|].
        rewrite Hiff1. split; [|tauto]. intros [?|Hd]; [done|].
        apply Hiff. right. unfold decides in *.
        destruct Hd as [Hskip Hscan].
        rewrite (scan_rel_bits flag_le L L1 b B B1 _ HR HB HB1).
        split; [|done]. unfold labels in Hl. rewrite Hl in Hskip.
        simpl in Hskip. rewrite !orb_false_iff in Hskip |- *.
        destruct Hskip as [[Hef Hw] Hlo]. split; [split|]; try done.
        destruct (ever_free v) eqn:Hefv; [|done].
        assert (ever_free v1 = true) by (apply Hiff; by left).
        congruence.
      * destruct (voxelAtLinear L11 b i) as [v11|] eqn:Hv11; [|done].
        destruct (layer_rel_voxelAtLinear_r _ _ _ _ _ _ _ HR11 Hv11)
          as (v1 & Hv1' & _). congruence.
  - exists L. unfold makeEverFree, getBlockPtrByIndex. by rewrite HB.
Qed.

(** A voxel that the labelling of some blocks promotes was last occupied
    before the burn-in period. *)
Lemma labelBlocks_promoted (blocks : list BlockIndex) :
  forall L L' : Layer,
    layer_wf n L ->
    Frame.labelBlocks this frame_counter blocks L = Some L' ->
    forall (b : BlockIndex) (i : nat) (v v' : TsdfVoxel),
      voxelAtLinear L b i = Some v -> voxelAtLinear L' b i = Some v' ->
      ever_free v' = true ->
      ever_free v = true \/
      (last_occupied v
       >? Int.sub frame_counter (burn_in_period (config_ this))) = false.
Proof.
  unfold Frame.labelBlocks.
  induction blocks as [|a blocks IH]; intros L L' Hwf Hrun b i v v' Hv Hv' He.
  - injection Hrun as <-. left. congruence.
  - cbn [for_each] in Hrun.
    destruct (makeEverFree this L a frame_counter) as [L1|] eqn:H1;
      [|done].
    destruct (L !! a) as [B|] eqn:HB.
    + destruct (makeEverFree_char L a B Hwf HB)
        as (L1' & H1' & HR & Hother & _ & Hvox).
      assert (L1' = L1) as -> by congruence.
      assert (Hwf1 : layer_wf n L1) by (eapply layer_rel_wf; eauto).
      destruct (decide (a = b)) as [->|Hne].
      * destruct (Hvox i v Hv) as (v1 & Hv1 & Hl & Hiff).
        destruct (IH L1 L' Hwf1 Hrun b i v1 v' Hv1 Hv' He) as [He1|Hlo].
        -- apply Hiff in He1 as [?|[Hskip _]]; [by left|right].
           rewrite !orb_false_iff in Hskip. tauto.
        -- right. unfold labels in Hl. rewrite Hl in Hlo. exact Hlo.
      * apply (IH L1 L' Hwf1 Hrun b i v v'); [|done|done].
        rewrite <- Hv. apply voxelAtLinear_same_block. by apply Hother.
    + unfold makeEverFree, getBlockPtrByIndex in H1. rewrite HB in H1.
      injection H1 as <-. by apply (IH L L' Hwf Hrun b i v v').
Qed.

End MakeEverFree.

(** ** [updateEverFreeVoxels] as a whole *)

Section UpdateFrame.

Import Voxblox Inv EverFreeIntegrator.

Variable this : EverFreeIntegrator.t.
Variable frame_counter : Z.
Hypothesis Hsearch : search_valid this.

Let n : nat := voxels_per_side_ this.

(** The counter update reads no flag. *)
Lemma updateVoxel_unflag (v w : TsdfVoxel) :
  Frame.unflag v = Frame.unflag w ->
  Frame.unflag (updateVoxel this v frame_counter) =
  Frame.unflag (updateVoxel this w frame_counter).
Proof.
  destruct v, w. unfold Frame.unflag. simpl.
  intros [= -> -> -> -> -> -> -> -> ->].
  unfold updateVoxel, updateOccupancyCounter. simpl.
  repeat match goal with |- context [if ?c then _ else _] => destruct c end;
    reflexivity.
Qed.

(** The voxels after some steps of the first loop, against the voxels
    before: the voxels at the places in [visited] went through the counter
    update once, and no voxel changed otherwise but in its flags. *)
Let updatedAt (visited : BlockIndex -> nat -> bool) (L L' : Layer) : Prop :=
  forall (b : BlockIndex) (j : nat) (v : TsdfVoxel),
    voxelAtLinear L b j = Some v ->
    exists v', voxelAtLinear L' b j = Some v' /\
      Frame.unflag v' =
      Frame.unflag (if visited b j
                    then updateVoxel this v frame_counter else v).

Lemma body_updatedAt (L : Layer) (b : BlockIndex) (i : nat) :
  layer_wf n L -> is_Some (L !! b) -> (i < n * n * n)%nat ->
  exists L', updateEverFreeVoxels_body this frame_counter b L i = Some L' /\
    layer_rel eq retracts L L' /\
    updatedAt (fun b' j => bool_decide ((b', j) = (b, i))) L L'.
Proof.
  intros Hwf [B HB] Hi.
  destruct (voxelAtLinear_is_Some n L b B i Hwf HB Hi) as [v Hv].
  destruct (voxel_index_of_linear n i Hi) as [Hvalid _].
  unfold updateEverFreeVoxels_body, getBlockPtrByIndex,
    getVoxelByLinearIndex. rewrite HB. simpl.
  assert (HvB : voxels B !! i = Some v).
  { unfold voxelAtLinear in Hv. by rewrite HB in Hv. }
  rewrite HvB. simpl. fold n.
  set (v1 := updateVoxel this v frame_counter).
  set (L1 := setVoxel L b i v1).
  assert (HR1 : layer_rel eq retracts L L1).
  { eapply layer_rel_setVoxel; [apply _ | apply _ | done |].
    apply updateVoxel_retracts. }
  assert (H1 : forall b' j w, voxelAtLinear L b' j = Some w ->
             voxelAtLinear L1 b' j =
             Some (if decide ((b', j) = (b, i)) then v1 else w)).
  { intros b' j w Hw. unfold L1. rewrite voxelAtLinear_setVoxel.
    case_decide as Heq.
    - rewrite decide_True by done. rewrite Hv. done.
    - rewrite decide_False by (intros Heq'; by apply Heq). done. }
  destruct (occ_counter v1 >=? counter_to_reset (config_ this)).
  - destruct (removeEverFree_clears this Hsearch L1 b
                (computeVoxelIndexFromLinearIndex n i))
      as (L' & Hrun & HR & _).
    + eapply layer_rel_wf; eauto.
    + destruct (layer_rel_lookup_l _ _ _ _ _ _ HR1 HB) as (B1 & -> & _).
      by eexists.
    + done.
    + exists L'. split; [done|]. split.
      * etrans; [exact HR1|].
        eapply layer_rel_mono; [| |exact HR]; [done|apply clears_retracts].
      * intros b' j w Hw.
        destruct (layer_rel_voxelAtLinear_l _ _ _ _ _ _ _ HR
                    (H1 b' j w Hw)) as (w' & Hw' & Hc & _).
        exists w'. split; [done|]. rewrite Hc. cbv beta.
        case_bool_decide as Heq;
          [rewrite decide_True by done|by rewrite decide_False by done].
        injection Heq as -> ->.
        assert (w = v) as -> by congruence. done.
  - exists L1. split; [done|]. split; [done|].
    intros b' j w Hw. eexists. split; [by apply H1|]. cbv beta.
    case_bool_decide as Heq;
      [rewrite decide_True by done|by rewrite decide_False by done].
    injection Heq as -> ->.
    assert (w = v) as -> by congruence. done.
Qed.

Lemma updatedAt_step (P Q PQ : BlockIndex -> nat -> bool)
    (L0 L1 L2 : Layer) :
  (forall b j, PQ b j = P b j || Q b j) ->
  (forall b j, P b j = true -> Q b j = true -> False) ->
  updatedAt P L0 L1 -> updatedAt Q L1 L2 -> updatedAt PQ L0 L2.
Proof.
  intros Hor Hdisj H01 H12 b j v Hv.
  destruct (H01 b j v Hv) as (v1 & Hv1 & Hu1).
  destruct (H12 b j v1 Hv1) as (v2 & Hv2 & Hu2).
  exists v2. split; [done|]. rewrite Hu2, Hor.
  specialize (Hdisj b j).
  destruct (P b j), (Q b j); simpl; try done.
  - by destruct Hdisj.
  - by apply updateVoxel_unflag.
Qed.

Lemma updatedAt_ext (P Q : BlockIndex -> nat -> bool) (L L' : Layer) :
  (forall b j v, voxelAtLinear L b j = Some v -> P b j = Q b j) ->
  updatedAt P L L' -> updatedAt Q L L'.
Proof.
  intros Heq Hat b j v Hv. destruct (Hat b j v Hv) as (v' & Hv' & Hu).
  exists v'. split; [done|]. by rewrite <- (Heq b j v Hv).
Qed.

(** The loop over the voxels of an allocated block. *)
Lemma block_updatedAt (L : Layer) (b : BlockIndex) :
  layer_wf n L -> is_Some (L !! b) ->
  exists L',
    for_each (updateEverFreeVoxels_body this frame_counter b)
      (seq 0 (voxels_per_block_ this)) L = Some L' /\
    layer_rel eq retracts L L' /\
    updatedAt (fun b' _ => bool_decide (b' = b)) L L'.
Proof.
  intros Hwf Hb.
  destruct (for_each_prefix_inv
              (updateEverFreeVoxels_body this frame_counter b)
              (fun pre Lc =>
                 layer_rel eq retracts L Lc /\
                 updatedAt (fun b' j =>
                              bool_decide (b' = b) && bool_decide (j ∈ pre))
                   L Lc)
              (seq 0 (voxels_per_block_ this)) L)
    as (L' & Hrun & HR & Hat).
  - split; [reflexivity|]. intros b' j v Hv. exists v. split; [done|].
    cbv beta. rewrite (bool_decide_eq_false_2 (j ∈ [])), andb_false_r;
      [done|]. apply not_elem_of_nil.
  - intros pre a post Lc Hseq [HR Hat].
    assert (Ha_pre : a ∉ pre).
    { pose proof (NoDup_seq 0 (voxels_per_block_ this)) as Hnd.
      rewrite Hseq in Hnd. apply NoDup_app in Hnd as (_ & Hdisj & _).
      intros Ha. apply (Hdisj a Ha), list_elem_of_here. }
    assert (Ha : (a < n * n * n)%nat).
    { assert (a ∈ seq 0 (voxels_per_block_ this)) as Hin.
      { rewrite Hseq. apply elem_of_app. right. apply list_elem_of_here. }
      apply elem_of_seq in Hin. unfold voxels_per_block_ in Hin.
      fold n in Hin. lia. }
    destruct (body_updatedAt Lc b a) as (Lc' & Hbody & HR' & Hat').
    + eapply layer_rel_wf; eauto.
    + destruct Hb as [B HB].
      destruct (layer_rel_lookup_l _ _ _ _ _ _ HR HB) as (B1 & -> & _).
      by eexists.
    + done.
    + exists Lc'. split; [done|]. split; [by etrans|].
      eapply updatedAt_step; [| |exact Hat|exact Hat'].
      * intros b' j. cbv beta. apply eq_true_iff_eq.
        rewrite orb_true_iff, andb_true_iff, andb_true_iff,
          !bool_decide_eq_true, elem_of_app, list_elem_of_singleton.
        split; [intros [-> [? | ->]]; tauto|].
        intros [[-> ?]|Heq]; [tauto|]. injection Heq as -> ->. tauto.
      * intros b' j. cbv beta.
        rewrite andb_true_iff, !bool_decide_eq_true.
        intros [_ Hj] Heq. injection Heq as _ ->. done.
  - exists L'. split; [done|]. split; [done|].
    eapply updatedAt_ext; [|exact Hat]. intros b' j v Hv. cbv beta.
    destruct (bool_decide (b' = b)) eqn:Hbb; [|done]. simpl.
    apply bool_decide_eq_true in Hbb as ->.
    apply bool_decide_eq_true, elem_of_seq.
    destruct Hb as [B HB]. unfold voxelAtLinear in Hv. rewrite HB in Hv.
    simpl in Hv. apply lookup_lt_Some in Hv. rewrite (Hwf _ _ HB) in Hv.
    unfold voxels_per_block_. fold n. lia.
Qed.

(** The first loop over distinct blocks. *)
Lemma removeOccupied_updatedAt (L : Layer) (blocks : list BlockIndex) :
  layer_wf n L -> NoDup blocks ->
  exists L', removeOccupied this frame_counter blocks L = Some L' /\
    layer_rel eq retracts L L' /\
    updatedAt (fun b' _ => bool_decide (b' ∈ blocks)) L L'.
Proof.
  intros Hwf Hnodup. unfold removeOccupied.
  match goal with |- context [for_each ?f _ _] => set (body := f) end.
  destruct (for_each_prefix_inv body
              (fun pre Lc =>
                 layer_rel eq retracts L Lc /\
                 updatedAt (fun b' _ => bool_decide (b' ∈ pre)) L Lc)
              blocks L) as (L' & Hrun & HR & Hat); [| |by exists L'].
  - split; [reflexivity|]. intros b' j v Hv. exists v. split; [done|].
    cbv beta. rewrite bool_decide_eq_false_2; [done|]. apply not_elem_of_nil.
  - intros pre a post Lc Hblocks [HR Hat].
    assert (Ha_pre : a ∉ pre).
    { rewrite Hblocks in Hnodup.
      apply NoDup_app in Hnodup as (_ & Hdisj & _).
      intros Ha. apply (Hdisj a Ha), list_elem_of_here. }
    subst body. cbv beta. unfold getBlockPtrByIndex.
    destruct (Lc !! a) as [B|] eqn:HB.
    + destruct (block_updatedAt Lc a) as (Lc' & Hrun & HR' & Hat').
      { eapply layer_rel_wf; eauto. }
      { by eexists. }
      exists Lc'. split; [done|]. split; [by etrans|].
      eapply updatedAt_step; [| |exact Hat|exact Hat'].
      * intros b' j. cbv beta. apply eq_true_iff_eq.
        rewrite orb_true_iff, !bool_decide_eq_true, elem_of_app,
          list_elem_of_singleton. tauto.
      * intros b' j. cbv beta. rewrite !bool_decide_eq_true.
        intros Hin ->. done.
    + exists Lc. split; [done|]. split; [done|].
      eapply updatedAt_ext; [|exact Hat]. intros b' j v Hv. cbv beta.
      destruct (Hat b' j v Hv) as (v' & Hv' & _).
      assert (b' <> a).
      { intros ->. unfold voxelAtLinear in Hv'. by rewrite HB in Hv'. }
      apply eq_true_iff_eq.
      rewrite !bool_decide_eq_true, elem_of_app, list_elem_of_singleton.
      tauto.
Qed.

Lemma NoDup_getAllUpdatedBlocks (L : Layer) :
  NoDup (getAllUpdatedBlocks L).
Proof. unfold getAllUpdatedBlocks. apply NoDup_fst_map_to_list. Qed.

(** The labelling writes in the blocks it is given only. *)
Lemma labelBlocks_other_blocks (blocks : list BlockIndex) (L L' : Layer)
    (b : BlockIndex) :
  Frame.labelBlocks this frame_counter blocks L = Some L' ->
  b ∉ blocks -> L' !! b = L !! b.
Proof.
  unfold Frame.labelBlocks. intros Hrun Hb. revert Hrun.
  apply (for_each_preserves _ (fun s : Layer => s !! b = L !! b));
    [|done].
  intros a s s' Ha Hs Hmk. rewrite <- Hs.
  eapply makeEverFree_other_blocks; [exact Hmk|]. intros ->. done.
Qed.

(** X1.  The per-frame update returns on every well-formed map, and it
    updates the counter of every voxel of an updated block exactly once:
    but for [ever_free] and [dynamic], each such voxel ends as the counter
    update of lines 63 to 71 leaves the voxel it started as, and every
    voxel of the other blocks ends as it started. *)
Theorem updateEverFreeVoxels_counters (L : Layer) :
  layer_wf n L ->
  exists L', updateEverFreeVoxels this L frame_counter = Some L' /\
    forall (b : BlockIndex) (i : nat) (v : TsdfVoxel),
      voxelAtLinear L b i = Some v ->
      exists v', voxelAtLinear L' b i = Some v' /\
        Frame.unflag v' =
        Frame.unflag (if decide (b ∈ getAllUpdatedBlocks L)
                      then updateVoxel this v frame_counter else v).
Proof.
  intros Hwf. unfold updateEverFreeVoxels.
  destruct (removeOccupied_updatedAt L (getAllUpdatedBlocks L) Hwf
              (NoDup_getAllUpdatedBlocks L)) as (L1 & -> & HR1 & Hat).
  simpl. unfold run_workers.
  destruct (0 <? num_threads (config_ this)).
  - destruct (label_blocks_spec this frame_counter Hsearch L1
                (getAllUpdatedBlocks L)) as (L2 & -> & HR2 & _).
    { eapply layer_rel_wf; eauto. }
    exists L2. split; [done|]. intros b i v Hv.
    destruct (Hat b i v Hv) as (v1 & Hv1 & Hu1).
    destruct (layer_rel_voxelAtLinear_l _ _ _ _ _ _ _ HR2 Hv1)
      as (v2 & Hv2 & Hl).
    exists v2. split; [done|]. rewrite (labels_unflag _ _ Hl), Hu1.
    case_bool_decide; [by rewrite decide_True|by rewrite decide_False].
  - exists L1. split; [done|]. intros b i v Hv.
    destruct (Hat b i v Hv) as (v1 & Hv1 & Hu1).
    exists v1. split; [done|]. rewrite Hu1.
    case_bool_decide; [by rewrite decide_True|by rewrite decide_False].
Qed.

(** X2.  The per-frame update keeps the blocks of the map and their sizes,
    and with a valid configuration it leaves no block marked as updated. *)
Theorem updateEverFreeVoxels_keeps_blocks (L : Layer) :
  layer_wf n L ->
  exists L', updateEverFreeVoxels this L frame_counter = Some L' /\
    layer_wf n L' /\
    (forall b : BlockIndex, L' !! b = None <-> L !! b = None) /\
    (checkParams (config_ this) = true -> getAllUpdatedBlocks L' = []).
Proof.
  intros Hwf.
  destruct (updateEverFreeVoxels_spec this frame_counter Hsearch L Hwf)
    as (L' & Hrun & HR & _ & Hflags).
  exists L'. split; [done|]. split; [by eapply layer_rel_wf|]. split.
  - intros b. symmetry. by eapply layer_rel_lookup_None.
  - intros Hcfg. apply getAllUpdatedBlocks_nil, Hflags.
    unfold checkParams in Hcfg. rewrite !andb_true_iff in Hcfg.
    destruct Hcfg as [[_ Hth] _]. apply Z.leb_le in Hth. lia.
Qed.

(** X3.  The per-frame update never sets [dynamic], and it sets [ever_free]
    in updated blocks only: a voxel of any other block that was not
    ever-free is not ever-free afterwards. *)
Theorem updateEverFreeVoxels_promotes_updated_only (L : Layer) :
  layer_wf n L ->
  exists L', updateEverFreeVoxels this L frame_counter = Some L' /\
    forall (b : BlockIndex) (i : nat) (v : TsdfVoxel),
      voxelAtLinear L b i = Some v ->
      exists v', voxelAtLinear L' b i = Some v' /\
        (dynamic v = false -> dynamic v' = false) /\
        (b ∉ getAllUpdatedBlocks L -> ever_free v = false ->
         ever_free v' = false).
Proof.
  intros Hwf.
  destruct (updateEverFreeVoxels_spec this frame_counter Hsearch L Hwf)
    as (L' & Hrun & HR & _).
  exists L'. split; [done|]. intros b i v Hv.
  destruct (layer_rel_voxelAtLinear_l _ _ _ _ _ _ _ HR Hv)
    as (v' & Hv' & _ & _ & _ & Hdyn).
  exists v'. split; [done|]. split; [done|]. intros Hb Hef.
  unfold updateEverFreeVoxels in Hrun.
  destruct (removeOccupied_spec this frame_counter Hsearch L
              (getAllUpdatedBlocks L) Hwf) as (L1 & H1 & HR1 & _).
  rewrite H1 in Hrun. simpl in Hrun.
  destruct (layer_rel_voxelAtLinear_l _ _ _ _ _ _ _ HR1 Hv)
    as (v1 & Hv1 & _ & _ & _ & _ & Hef1).
  assert (Hsame : voxelAtLinear L' b i = voxelAtLinear L1 b i).
  { unfold run_workers in Hrun.
    destruct (0 <? num_threads (config_ this)); [|congruence].
    apply voxelAtLinear_same_block.
    by apply (labelBlocks_other_blocks (getAllUpdatedBlocks L)). }
  assert (v' = v1) as -> by congruence. by apply Hef1.
Qed.

(** X4.  With a burn-in period of at least one frame, a voxel of an
    updated block that the update counts as occupied in this frame is not
    promoted in this frame: its [last_occupied] is the frame counter
    afterwards, and it is ever-free afterwards only if it was before.  The
    subtraction [frame_counter - burn_in_period] is assumed to stay within
    [int]. *)
Theorem updateEverFreeVoxels_occupied_not_promoted (L : Layer) :
  layer_wf n L ->
  0 < burn_in_period (config_ this) ->
  Int.in_range (frame_counter - burn_in_period (config_ this)) ->
  exists L', updateEverFreeVoxels this L frame_counter = Some L' /\
    forall (b : BlockIndex) (i : nat) (v : TsdfVoxel),
      voxelAtLinear L b i = Some v ->
      b ∈ getAllUpdatedBlocks L ->
      f32_lt (distance v) (tsdf_occupancy_threshold (config_ this))
      || (last_lidar_occupied v =? frame_counter) = true ->
      exists v', voxelAtLinear L' b i = Some v' /\
        last_occupied v' = frame_counter /\
        (ever_free v = false -> ever_free v' = false).
Proof.
  intros Hwf Hburn Hrange. unfold updateEverFreeVoxels.
  destruct (removeOccupied_updatedAt L (getAllUpdatedBlocks L) Hwf
              (NoDup_getAllUpdatedBlocks L)) as (L1 & HrunA & HR1 & Hat).
  rewrite HrunA. simpl. unfold run_workers.
  assert (Hwf1 : layer_wf n L1) by (eapply layer_rel_wf; eauto).
  assert (H1 : forall b i v,
             voxelAtLinear L b i = Some v ->
             b ∈ getAllUpdatedBlocks L ->
             f32_lt (distance v) (tsdf_occupancy_threshold (config_ this))
             || (last_lidar_occupied v =? frame_counter) = true ->
             exists v1, voxelAtLinear L1 b i = Some v1 /\
                        last_occupied v1 = frame_counter /\
                        (ever_free v = false -> ever_free v1 = false)).
  { intros b i v Hv Hb Hocc.
    destruct (Hat b i v Hv) as (v1 & Hv1 & Hu).
    rewrite bool_decide_eq_true_2 in Hu by done.
    exists v1. split; [done|]. split.
    - transitivity (last_occupied (Frame.unflag v1)); [by destruct v1|].
      rewrite Hu. unfold updateVoxel. rewrite Hocc.
      by destruct (_ <? _).
    - destruct (layer_rel_voxelAtLinear_l _ _ _ _ _ _ _ HR1 Hv)
        as (v1' & Hv1' & _ & _ & _ & _ & Hef).
      assert (v1' = v1) as -> by congruence. exact Hef. }
  destruct (0 <? num_threads (config_ this)).
  - destruct (label_blocks_spec this frame_counter Hsearch L1
                (getAllUpdatedBlocks L) Hwf1) as (L2 & HrunB & HR2 & _).
    rewrite HrunB. exists L2. split; [done|]. intros b i v Hv Hb Hocc.
    destruct (H1 b i v Hv Hb Hocc) as (v1 & Hv1 & Hlo & Hef).
    destruct (layer_rel_voxelAtLinear_l _ _ _ _ _ _ _ HR2 Hv1)
      as (v2 & Hv2 & Hl).
    exists v2. split; [done|]. split.
    + unfold labels in Hl. rewrite Hl. exact Hlo.
    + intros He. specialize (Hef He).
      destruct (ever_free v2) eqn:He2; [|done]. exfalso.
      destruct (labelBlocks_promoted this frame_counter Hsearch
                  (getAllUpdatedBlocks L) L1 L2 Hwf1 HrunB b i v1 v2
                  Hv1 Hv2 He2) as [?|Hc]; [congruence|].
      rewrite Hlo, (Int_sub_exact _ _ Hrange) in Hc.
      destruct (Z.gtb_spec frame_counter
                  (frame_counter - burn_in_period (config_ this))); [done|].
      lia.
  - exists L1. split; [done|]. intros b i v Hv Hb Hocc.
    destruct (H1 b i v Hv Hb Hocc) as (v1 & Hv1 & Hlo & Hef). eauto.
Qed.

End UpdateFrame.

(** ** The same on a concrete map *)

Lemma updateEverFreeVoxels_counters_witness :
  let L := Examples.layer_of Examples.occupied_voxel
             Examples.ever_free_voxel in
  exists L',
    EverFreeIntegrator.updateEverFreeVoxels Examples.integrator L 10
    = Some L' /\
    forall (b : BlockIndex) (i : nat) (v : TsdfVoxel),
      Inv.voxelAtLinear L b i = Some v ->
      exists v', Inv.voxelAtLinear L' b i = Some v' /\
        Frame.unflag v' =
        Frame.unflag
          (if decide (b ∈ Voxblox.getAllUpdatedBlocks L)
           then EverFreeIntegrator.updateVoxel Examples.integrator v 10
           else v).
Proof.
  apply (updateEverFreeVoxels_counters Examples.integrator 10
           Examples_integrator_valid
           (Examples.layer_of Examples.occupied_voxel
              Examples.ever_free_voxel)).
  apply Examples_layer_wf.
Defined.

Lemma updateEverFreeVoxels_keeps_blocks_witness :
  let L := Examples.layer_of Examples.occupied_voxel
             Examples.ever_free_voxel in
  exists L',
    EverFreeIntegrator.updateEverFreeVoxels Examples.integrator L 10
    = Some L' /\
    Inv.layer_wf 1 L' /\
    (forall b : BlockIndex, L' !! b = None <-> L !! b = None) /\
    Voxblox.getAllUpdatedBlocks L' = [].
Proof.
  destruct (updateEverFreeVoxels_keeps_blocks Examples.integrator 10
              Examples_integrator_valid
              (Examples.layer_of Examples.occupied_voxel
                 Examples.ever_free_voxel))
    as (L' & Hrun & Hwf & Hdom & Hbits).
  - apply Examples_layer_wf.
  - exists L'. split; [exact Hrun|]. split; [exact Hwf|].
    split; [exact Hdom|]. apply Hbits. reflexivity.
Defined.

Lemma updateEverFreeVoxels_promotes_updated_only_witness :
  let L := Examples.layer_of Examples.free_voxel Examples.free_voxel in
  exists L',
    EverFreeIntegrator.updateEverFreeVoxels Examples.integrator L 10
    = Some L' /\
    forall (b : BlockIndex) (i : nat) (v : TsdfVoxel),
      Inv.voxelAtLinear L b i = Some v ->
      exists v', Inv.voxelAtLinear L' b i = Some v' /\
        (dynamic v = false -> dynamic v' = false) /\
        (b ∉ Voxblox.getAllUpdatedBlocks L -> ever_free v = false ->
         ever_free v' = false).
Proof.
  apply (updateEverFreeVoxels_promotes_updated_only Examples.integrator 10
           Examples_integrator_valid
           (Examples.layer_of Examples.free_voxel Examples.free_voxel)).
  apply Examples_layer_wf.
Defined.

Lemma makeEverFree_writes_own_block_witness :
  let L := Examples.layer_of Examples.free_voxel Examples.free_voxel in
  exists L',
    EverFreeIntegrator.makeEverFree Examples.integrator L (0, 0, 0) 10
    = Some L' /\
    (forall b' : BlockIndex, (0, 0, 0) <> b' -> L' !! b' = L !! b') /\
    (forall i v, Inv.voxelAtLinear L (0, 0, 0) i = Some v ->
       exists v', Inv.voxelAtLinear L' (0, 0, 0) i = Some v' /\
                  Frame.promotes v v') /\
    (is_Some (L !! (0, 0, 0)) ->
     Frame.updatedBit L' (0, 0, 0) = Some false).
Proof.
  apply (makeEverFree_writes_own_block Examples.integrator 10
           Examples_integrator_valid
           (Examples.layer_of Examples.free_voxel Examples.free_voxel)
           (0, 0, 0)).
  apply Examples_layer_wf.
Defined.

Lemma labelBlocks_order_independent_witness :
  let L := Examples.layer_of Examples.free_voxel Examples.free_voxel in
  Frame.labelBlocks Examples.integrator 10 [(0, 0, 0); (0, 1, 0)] L =
  Frame.labelBlocks Examples.integrator 10 [(0, 1, 0); (0, 0, 0)] L.
Proof.
  apply (labelBlocks_order_independent Examples.integrator 10
           Examples_integrator_valid
           [(0, 0, 0); (0, 1, 0)] [(0, 1, 0); (0, 0, 0)]).
  - apply perm_swap.
  - apply NoDup_cons. split; [|apply NoDup_singleton].
    rewrite list_elem_of_singleton. discriminate.
  - apply Examples_layer_wf.
Defined.

Lemma makeEverFree_idempotent_witness :
  exists L1,
    EverFreeIntegrator.makeEverFree Examples.integrator
      (Examples.layer_of Examples.free_voxel Examples.free_voxel)
      (0, 0, 0) 10 = Some L1 /\
    EverFreeIntegrator.makeEverFree Examples.integrator L1 (0, 0, 0) 10
    = Some L1.
Proof.
  apply (makeEverFree_idempotent Examples.integrator 10
           Examples_integrator_valid
           (Examples.layer_of Examples.free_voxel Examples.free_voxel)
           (0, 0, 0)).
  apply Examples_layer_wf.
Defined.

Lemma updateEverFreeVoxels_occupied_not_promoted_witness :
  let L := Examples.layer_of Examples.occupied_voxel
             Examples.ever_free_voxel in
  exists L',
    EverFreeIntegrator.updateEverFreeVoxels Examples.integrator L 10
    = Some L' /\
    forall (b : BlockIndex) (i : nat) (v : TsdfVoxel),
      Inv.voxelAtLinear L b i = Some v ->
      b ∈ Voxblox.getAllUpdatedBlocks L ->
      f32_lt (distance v)
        (EverFreeIntegrator.tsdf_occupancy_threshold
           (EverFreeIntegrator.config_ Examples.integrator))
      || (last_lidar_occupied v =? 10) = true ->
      exists v', Inv.voxelAtLinear L' b i = Some v' /\
        last_occupied v' = 10 /\
        (ever_free v = false -> ever_free v' = false).
Proof.
  apply (updateEverFreeVoxels_occupied_not_promoted Examples.integrator 10
           Examples_integrator_valid
           (Examples.layer_of Examples.occupied_voxel
              Examples.ever_free_voxel)).
  - apply Examples_layer_wf.
  - reflexivity.
  - vm_compute. intuition discriminate.
Defined.

(** ** Runs of occupancy updates *)

Section OccupancyRuns.

Import EverFreeIntegrator.

Variable this : EverFreeIntegrator.t.

Let tb : Z := temporal_buffer (config_ this).

Lemma occupyIn_app (pre frames : list Z) (v : TsdfVoxel) :
  Frame.occupyIn this (pre ++ frames) v =
  Frame.occupyIn this frames (Frame.occupyIn this pre v).
Proof. unfold Frame.occupyIn. apply foldl_app. Qed.

Lemma last_cons_default {A : Type} (l : list A) :
  forall a d : A, List.last (a :: l) d = List.last l a.
Proof.
  induction l as [|b l IH]; intros a d; [done|].
  change (List.last (a :: b :: l) d) with (List.last (b :: l) d).
  by rewrite !IH.
Qed.

(** Updates that follow one another within the buffer count up. *)
Lemma occupyIn_within (frames : list Z) :
  forall v : TsdfVoxel,
    Frame.gapsWithin tb (last_occupied v) frames ->
    Forall (fun g => Int.in_range (g - tb)) frames ->
    Int.min_int <= occ_counter v ->
    occ_counter v + Z.of_nat (length frames) <= Int.max_int ->
    occ_counter (Frame.occupyIn this frames v) =
      occ_counter v + Z.of_nat (length frames) /\
    last_occupied (Frame.occupyIn this frames v) =
      List.last frames (last_occupied v).
Proof.
  induction frames as [|g frames IH]; intros v Hgaps Hrange Hmin Hmax.
  - simpl. split; [lia|done].
  - destruct Hgaps as [Hgap Hgaps].
    apply Forall_cons in Hrange as [Hg Hrange].
    assert (Hstep :
      occ_counter (updateOccupancyCounter this v g) = occ_counter v + 1).
    { rewrite updateOccupancyCounter_occ_counter. fold tb.
      rewrite (Int_sub_exact _ _ Hg).
      rewrite Int_incr_exact
        by (unfold Int.in_range; simpl length in Hmax; lia).
      destruct (Z.geb_spec (last_occupied v) (g - tb)); lia. }
    destruct (IH (updateOccupancyCounter this v g)) as [Hc Hl].
    + by rewrite updateOccupancyCounter_last_occupied.
    + done.
    + lia.
    + rewrite Hstep. simpl length in Hmax. lia.
    + change (Frame.occupyIn this (g :: frames) v)
        with (Frame.occupyIn this frames (updateOccupancyCounter this v g)).
      rewrite Hc, Hl, Hstep, updateOccupancyCounter_last_occupied.
      split; [simpl length; lia|]. by rewrite last_cons_default.
Qed.

(** X10.  The occupancy counter holds the length of the current streak:
    after an update at frame [g] that comes more than [temporal_buffer]
    frames after the last one, and further updates that follow one another
    within the buffer, the counter is the number of these updates and
    [last_occupied] is the frame of the last one.  The subtractions and the
    counter are assumed to stay within [int]. *)
Theorem occupyIn_counts_streak (v : TsdfVoxel) (pre : list Z) (g : Z)
    (frames : list Z) :
  g - last_occupied (Frame.occupyIn this pre v) > tb ->
  Frame.gapsWithin tb g frames ->
  Forall (fun g => Int.in_range (g - tb)) (g :: frames) ->
  Z.of_nat (length frames) < Int.max_int ->
  let v' := Frame.occupyIn this (pre ++ g :: frames) v in
  occ_counter v' = 1 + Z.of_nat (length frames) /\
  last_occupied v' = List.last frames g.
Proof.
  intros Hgap Hgaps Hrange Hlen v'. subst v'.
  apply Forall_cons in Hrange as [Hg Hrange].
  rewrite occupyIn_app.
  set (u := Frame.occupyIn this pre v) in *.
  change (Frame.occupyIn this (g :: frames) u)
    with (Frame.occupyIn this frames (updateOccupancyCounter this u g)).
  assert (Hone : occ_counter (updateOccupancyCounter this u g) = 1).
  { rewrite updateOccupancyCounter_occ_counter. fold tb.
    rewrite (Int_sub_exact _ _ Hg).
    destruct (Z.geb_spec (last_occupied u) (g - tb)); [lia|done]. }
  destruct (occupyIn_within frames (updateOccupancyCounter this u g))
    as [Hc Hl].
  - by rewrite updateOccupancyCounter_last_occupied.
  - done.
  - rewrite Hone. unfold Int.min_int. lia.
  - rewrite Hone. lia.
  - rewrite Hc, Hl, Hone, updateOccupancyCounter_last_occupied. done.
Qed.

End OccupancyRuns.

(** With the buffer of two frames of the examples: a voxel last occupied in
    frame 3 and occupied again in the frames 10, 11 and 13 has a counter of
    3 after frame 13. *)
Lemma occupyIn_counts_streak_witness :
  let v' := Frame.occupyIn Examples.integrator ([] ++ 10 :: [11; 13])
              Examples.stale_counter_voxel in
  occ_counter v' = 1 + Z.of_nat (length [11; 13]) /\
  last_occupied v' = List.last [11; 13] 10.
Proof.
  apply (occupyIn_counts_streak Examples.integrator
           Examples.stale_counter_voxel [] 10 [11; 13]).
  - vm_compute. reflexivity.
  - vm_compute. intuition discriminate.
  - repeat constructor; vm_compute; intuition discriminate.
  - vm_compute. reflexivity.
Defined.

(** ** The derivation of [filtered_out] *)

Section FilterOutTotal.

Import MotionDetector.

Let body (st : list PointInfo * nat) (point : Pcl.PointXYZ)
  : option (list PointInfo * nat) :=
  p ← st.1 !! st.2;
  Some (if cluster_level_dynamic p
        then <[st.2 := set_filtered_out true p]> st.1
        else st.1,
        S st.2).

Lemma filterOut_loop_total (cloud : Cloud) :
  forall visited rest : list PointInfo,
    for_each body cloud (visited ++ rest, length visited) =
    if decide (length cloud <= length rest)%nat
    then Some (visited ++ (Frame.filtered <$> take (length cloud) rest)
                 ++ drop (length cloud) rest,
               (length visited + length cloud)%nat)
    else None.
Proof.
  induction cloud as [|c cloud IH]; intros visited rest.
  - cbn [for_each length]. rewrite decide_True by lia.
    by rewrite take_0, drop_0, Nat.add_0_r.
  - cbn [for_each]. unfold body at 1. cbn [fst snd].
    destruct rest as [|p rest].
    + rewrite app_nil_r, lookup_ge_None_2 by done.
      cbn [mbind option_bind].
      rewrite decide_False by (simpl; lia). done.
    + rewrite list_lookup_middle by done. cbn [mbind option_bind].
      assert (Hins :
        (if cluster_level_dynamic p
         then <[length visited := set_filtered_out true p]>
                (visited ++ p :: rest)
         else visited ++ p :: rest)
        = (visited ++ [Frame.filtered p]) ++ rest).
      { unfold Frame.filtered. rewrite <- app_assoc. simpl.
        destruct (cluster_level_dynamic p); [|done].
        rewrite insert_app_r_alt by done. by rewrite Nat.sub_diag. }
      rewrite Hins.
      replace (S (length visited))
        with (length (visited ++ [Frame.filtered p]))
        by (rewrite length_app; simpl; lia).
      rewrite IH. simpl length.
      destruct (decide (length cloud <= length rest)%nat).
      * rewrite decide_True by lia. simpl.
        rewrite <- app_assoc, length_app. simpl. do 2 f_equal. lia.
      * rewrite decide_False by lia. done.
Qed.

Lemma filterOut_eq (cloud : Cloud) (info : CloudInfo) :
  filterOut cloud info =
  if decide (length cloud <= length (points info))%nat
  then Some (mkCloudInfo
               ((Frame.filtered <$> take (length cloud) (points info))
                ++ drop (length cloud) (points info)))
  else None.
Proof.
  unfold filterOut.
  pose proof (filterOut_loop_total cloud [] (points info)) as Hloop.
  simpl in Hloop. unfold body in Hloop. rewrite Hloop.
  by destruct (decide _).
Qed.

(** X17.  The last loop of the callback throws exactly when the
    classification has fewer records than the cloud has points.  When it
    returns, it has set [filtered_out] in each of the first records, one
    per point, whose [cluster_level_dynamic] is set; it clears no flag, and
    it leaves the records beyond the cloud and the number of records
    alone. *)
Theorem filterOut_total (cloud : Cloud) (info : CloudInfo) :
  (filterOut cloud info = None <->
   (length (points info) < length cloud)%nat) /\
  forall info' : CloudInfo,
    filterOut cloud info = Some info' ->
    length (points info') = length (points info) /\
    forall (i : nat) (p : PointInfo),
      points info !! i = Some p ->
      points info' !! i =
      Some (if decide (i < length cloud)%nat then Frame.filtered p else p).
Proof.
  rewrite filterOut_eq.
  destruct (decide (length cloud <= length (points info))%nat) as [Hle|Hgt].
  - split; [split; [done|lia]|]. intros info' [= <-]. cbn [points]. split.
    + rewrite length_app, length_fmap, length_take, length_drop. lia.
    + intros i p Hp. case_decide as Hi.
      * rewrite lookup_app_l by (rewrite length_fmap, length_take; lia).
        rewrite list_lookup_fmap, lookup_take_lt by done. by rewrite Hp.
      * rewrite lookup_app_r by (rewrite length_fmap, length_take; lia).
        rewrite length_fmap, length_take, lookup_drop, <- Hp.
        f_equal. lia.
  - split; [split; [lia|done]|]. done.
Qed.

End FilterOutTotal.

(** ** The calls of the callback *)

Section CallbackCalls.

Import MotionDetector.

Context {E : Collaborators}.

(** X18.  Whatever happens in a run of the callback, its calls are an
    initial part of the full sequence of calls, and the cloud is integrated
    into the TSDF map exactly in the runs that reach the end of the
    callback: a run that returns early or is aborted by a helper leaves the
    integration out. *)
Theorem pointcloudCallback_integrates_iff_completes (this : t E)
    (msg : PointCloud2) :
  (run this msg).2 `prefix_of` full_trace (config_ this) /\
  ((run this msg).1.1 = inr () <->
   CallTsdfIntegration ∈ (run this msg).2).
Proof.
  unfold full_trace, run, pointcloudCallback.
  repeat first
    [ progress unfold mbind, M_bind, mret, M_ret, get, modify_shared,
        modify, exit, orAbort, stage
    | progress cbn [config_ set_frame_counter_ frame_counter_ shared_
                    set_shared_ fst snd app]
    | match goal with
      | |- context [match ?o with Some _ => _ | None => _ end] =>
          destruct o eqn:?
      | |- context [if ?c then _ else _] => destruct c eqn:?
      end ];
    repeat match goal with H : _ = _ |- _ => rewrite H end;
    simpl;
    (split;
     [ repeat first [ apply prefix_cons | apply prefix_nil | reflexivity ]
     | rewrite list_elem_of_In; simpl; split;
       [ intros; try discriminate; tauto
       | intros; try reflexivity; intuition discriminate ] ]).
Qed.

(** X19.  In a run that reaches the end of the callback the transform was
    found, the classification has a record for every point of the
    preprocessed cloud, and every such record that is labelled dynamic at
    cluster level is filtered out. *)
Theorem pointcloudCallback_filters_dynamic_points (this : t E)
    (msg : PointCloud2) :
  (run this msg).1.1 = inr () ->
  exists T_M_S : StampedTransform E,
    lookupTransform this (global_frame_name (config_ this))
      (sensorFrameName (config_ this) msg) (stamp msg) = Some T_M_S /\
    let cloud := (processPointcloud E msg T_M_S).1 in
    let info := point_classifications_ (shared_ (run this msg).1.2) in
    (length cloud <= length (points info))%nat /\
    forall (i : nat) (p : PointInfo),
      (i < length cloud)%nat -> points info !! i = Some p ->
      cluster_level_dynamic p = true -> filtered_out p = true.
Proof.
  unfold run, pointcloudCallback.
  unfold mbind, M_bind, mret, M_ret, get, modify_shared, modify, stage.
  cbn [config_ set_frame_counter_].
  rewrite lookupTransform_frame_counter.
  destruct (lookupTransform this _ _ _) as [T|]; [|done].
  cbn [shared_ set_shared_ fst snd].
  intros Hdone. exists T. split; [done|]. revert Hdone.
  set (cloud := (processPointcloud E msg T).1).
  repeat first
    [ progress unfold mbind, M_bind, mret, M_ret, get, modify_shared,
        modify, exit, orAbort, stage
    | progress cbn [config_ set_frame_counter_ frame_counter_ shared_
                    set_shared_ fst snd app]
    | match goal with
      | |- context [match ?o with Some _ => _ | None => _ end] =>
          destruct o eqn:?
      | |- context [if ?c then _ else _] => destruct c eqn:?
      end ];
    try discriminate.
  all: intros _.
  all: cbn [point_classifications_ set_tsdf_layer_
            set_point_classifications_] in *.
  all: match goal with
       | H : filterOut _ _ = Some _ |- _ =>
           rewrite filterOut_eq in H;
           destruct (decide _) as [Hle|] in H; [|discriminate];
           injection H as <-
       end.
  all: cbn [points].
  all: split;
    [ rewrite length_app, length_fmap, length_take, length_drop; lia
    | intros i info_i Hi Hp;
      rewrite lookup_app_l in Hp
        by (rewrite length_fmap, length_take; lia);
      rewrite list_lookup_fmap in Hp;
      destruct (take _ _ !! i) as [q|]; [|discriminate];
      injection Hp as <-; unfold Frame.filtered;
      destruct (cluster_level_dynamic q) eqn:Hq;
      [intros _; reflexivity|intros Hc; congruence] ].
Qed.

End CallbackCalls.

(** ** The index builder *)

Lemma filter_ext_elem {A : Type} (P Q : A -> Prop)
    `{!forall x, Decision (P x)} `{!forall x, Decision (Q x)} (l : list A) :
  (forall x, x ∈ l -> P x <-> Q x) -> filter P l = filter Q l.
Proof.
  induction l as [|a l IH]; intros Heq; [done|].
  rewrite !filter_cons.
  rewrite IH by (intros x Hx; apply Heq; by apply list_elem_of_further).
  pose proof (Heq a (list_elem_of_here _ _)) as Ha.
  destruct (decide (P a)), (decide (Q a)); tauto.
Qed.

Section PushBack.

Import MotionDetector PointIndex.

Lemma appended_push_back_at (key key' : Z * Z * Z) (i : nat)
    (m : HierarchicalIndexIntMap) (l : list nat) :
  appended (push_back_at key i m !! key') l =
  appended (m !! key') (if decide (key = key') then i :: l else l).
Proof.
  unfold push_back_at. destruct (decide (key = key')) as [->|Hne].
  - rewrite lookup_insert_eq. unfold appended.
    destruct l; simpl; by rewrite <- ?app_assoc.
  - by rewrite lookup_insert_ne.
Qed.

End PushBack.

Section BuildBlock2PointMap.

Import Voxblox MotionDetector PointIndex.

Variable E : Collaborators.

Let step (acc : HierarchicalIndexIntMap * nat) (point : Pcl.PointXYZ)
  : HierarchicalIndexIntMap * nat :=
  (push_back_at (computeBlockIndexFromCoordinates E point) acc.2 acc.1,
   S acc.2).

Lemma buildBlock2PointMap_loop (all_points : Cloud) :
  forall (m : HierarchicalIndexIntMap) (k : nat) (blockindex : BlockIndex),
    (foldl step (m, k) all_points).1 !! blockindex =
    appended (m !! blockindex)
      (filter (fun i : nat =>
                 computeBlockIndexFromCoordinates E
                 <$> all_points !! (i - k)%nat = Some blockindex)
         (seq k (length all_points))).
Proof.
  induction all_points as [|p pts IH]; intros m k blockindex; [done|].
  cbn [foldl]. unfold step at 2. cbn [fst snd].
  rewrite IH, appended_push_back_at. f_equal.
  cbn [length seq]. rewrite filter_cons, Nat.sub_diag. cbn [lookup].
  assert (Hrest :
    filter (fun i : nat =>
              computeBlockIndexFromCoordinates E <$> pts !! (i - S k)%nat
              = Some blockindex) (seq (S k) (length pts)) =
    filter (fun i : nat =>
              computeBlockIndexFromCoordinates E
              <$> (p :: pts) !! (i - k)%nat = Some blockindex)
      (seq (S k) (length pts))).
  { apply filter_ext_elem. intros i Hi. apply elem_of_seq in Hi.
    replace (i - k)%nat with (S (i - S k)) by lia. done. }
  rewrite Hrest.
  destruct (decide (computeBlockIndexFromCoordinates E p = blockindex))
    as [Heq|Hne].
  - rewrite decide_True; [done|]. simpl. by rewrite Heq.
  - rewrite decide_False; [done|]. simpl. congruence.
Qed.

Lemma buildBlock2PointMap_lookup (all_points : Cloud)
    (blockindex : BlockIndex) :
  buildBlock2PointMap E all_points ∅ !! blockindex =
  match pointsInBlock E all_points blockindex with
  | [] => None
  | l => Some l
  end.
Proof.
  unfold buildBlock2PointMap.
  pose proof (buildBlock2PointMap_loop all_points ∅ 0%nat blockindex)
    as Hloop.
  unfold step in Hloop. rewrite Hloop, lookup_empty.
  unfold pointsInBlock, appended.
  rewrite (filter_ext_elem _
             (fun i : nat =>
                computeBlockIndexFromCoordinates E <$> all_points !! i
                = Some blockindex))
    by (intros i _; by rewrite Nat.sub_0_r).
  match goal with |- match ?l with _ => _ end = _ => by destruct l end.
Qed.

Lemma elem_of_pointsInBlock (all_points : Cloud) (i : nat)
    (blockindex : BlockIndex) :
  i ∈ pointsInBlock E all_points blockindex <->
  exists point, all_points !! i = Some point /\
                computeBlockIndexFromCoordinates E point = blockindex.
Proof.
  unfold pointsInBlock. rewrite list_elem_of_filter, elem_of_seq. split.
  - intros [Hb _]. destruct (all_points !! i) as [point|]; [|done].
    exists point. split; [done|]. simpl in Hb. congruence.
  - intros (point & Hp & Hb). rewrite Hp. simpl.
    split; [by rewrite Hb|]. apply lookup_lt_Some in Hp. lia.
Qed.

(** X11.  [buildBlock2PointMap] on an empty map sorts the points of the
    cloud by block: the entry of a block is the list of the indices of the
    points that fall into it, each index once and in increasing order, and
    a block without a point has no entry.  The cloud is assumed to have no
    more points than an [int] counts. *)
Theorem buildBlock2PointMap_partition (all_points : Cloud) :
  Z.of_nat (length all_points) <= Int.max_int ->
  forall blockindex : BlockIndex,
    (buildBlock2PointMap E all_points ∅ !! blockindex =
     match pointsInBlock E all_points blockindex with
     | [] => None
     | l => Some l
     end) /\
    (forall i : nat,
        i ∈ pointsInBlock E all_points blockindex <->
        exists point, all_points !! i = Some point /\
                      computeBlockIndexFromCoordinates E point = blockindex).
Proof.
  intros _ blockindex. split.
  - apply buildBlock2PointMap_lookup.
  - intros i. apply elem_of_pointsInBlock.
Qed.

End BuildBlock2PointMap.

Section BlockwiseBuild.

Import Voxblox MotionDetector PointIndex.

Context {E : Collaborators}.
Variable this : t E.
Variable layer : Layer.
Variable blockindex : BlockIndex.
Variable all_points : Cloud.
Variable block : Block.

Let n : nat := voxels_per_side_ this.

Let body (st : HierarchicalIndexIntMap * CloudInfo) (i : nat)
  : option (HierarchicalIndexIntMap * CloudInfo) :=
  point ← all_points !! i;
  let voxel_index := computeVoxelIndexFromCoordinates E blockindex point in
  tsdf_voxel ← getVoxelByVoxelIndex n block voxel_index;
  let voxel_map := push_back_at voxel_index i st.1 in
  if ever_free tsdf_voxel then
    info ← points st.2 !! i;
    Some (voxel_map,
          mkCloudInfo
            (<[i := set_EverFree_level_dynamic true info]> (points st.2)))
  else Some (voxel_map, st.2).

(** The points of [l] are points of the cloud, in voxels of the block, and
    have a classification record. *)
Let readable (info : CloudInfo) (l : list nat) : Prop :=
  Forall (fun i : nat =>
            is_Some (voxelIndexOf E blockindex all_points i
                     ≫= getVoxelByVoxelIndex n block) /\
            (i < length (points info))%nat) l.

Let flagged (l : list nat) (i : nat) (p : PointInfo) : PointInfo :=
  if bool_decide (i ∈ l) && everFreeAt E n block blockindex all_points i
  then set_EverFree_level_dynamic true p else p.

Lemma BlockwiseBuildVoxel2PointMap_loop (l : list nat) :
  forall (vm : HierarchicalIndexIntMap) (info : CloudInfo),
    readable info l ->
    exists vm' info',
      for_each body l (vm, info) = Some (vm', info') /\
      (forall voxel_index : VoxelIndex,
          vm' !! voxel_index =
          appended (vm !! voxel_index)
            (filter (fun i : nat =>
                       voxelIndexOf E blockindex all_points i
                       = Some voxel_index) l)) /\
      (forall (i : nat) (p : PointInfo),
          points info !! i = Some p ->
          points info' !! i = Some (flagged l i p)) /\
      length (points info') = length (points info).
Proof.
  induction l as [|a l IH]; intros vm info Hread.
  - exists vm, info. split; [done|]. split; [done|]. split; [|done].
    intros i p Hp. unfold flagged.
    rewrite bool_decide_eq_false_2 by apply not_elem_of_nil. done.
  - apply Forall_cons in Hread as [[Hvox Ha] Hread].
    unfold voxelIndexOf in Hvox.
    destruct (all_points !! a) as [point|] eqn:Hpoint;
      [|by destruct Hvox]. simpl in Hvox. destruct Hvox as [voxel Hvoxel].
    destruct (lookup_lt_is_Some_2 _ _ Ha) as [pa Hpa].
    set (va := computeVoxelIndexFromCoordinates E blockindex point) in *.
    set (info1 :=
           if ever_free voxel
           then mkCloudInfo
                  (<[a := set_EverFree_level_dynamic true pa]> (points info))
           else info).
    assert (Hbody : body (vm, info) a = Some (push_back_at va a vm, info1)).
    { unfold body. rewrite Hpoint. cbn [mbind option_bind]. fold va.
      rewrite Hvoxel. cbn [mbind option_bind fst snd]. unfold info1.
      destruct (ever_free voxel); [|done]. by rewrite Hpa. }
    assert (Hlen1 : length (points info1) = length (points info)).
    { unfold info1. destruct (ever_free voxel); [|done].
      simpl. by rewrite length_insert. }
    assert (Hef : everFreeAt E n block blockindex all_points a
                  = ever_free voxel).
    { unfold everFreeAt, voxelIndexOf. rewrite Hpoint. simpl. fold va.
      by rewrite Hvoxel. }
    destruct (IH (push_back_at va a vm) info1) as (vm' & info' & Hrun & Hvm
                                                   & Hinfo & Hlen).
    { unfold readable. rewrite Hlen1. exact Hread. }
    exists vm', info'. split; [cbn [for_each]; by rewrite Hbody|].
    split; [|split; [|congruence]].
    + intros voxel_index. rewrite Hvm, appended_push_back_at. f_equal.
      rewrite filter_cons.
      assert (Hva : voxelIndexOf E blockindex all_points a = Some va).
      { unfold voxelIndexOf. by rewrite Hpoint. }
      destruct (decide (va = voxel_index)) as [Heq|Hne].
      * rewrite decide_True; [done|]. by rewrite Hva, Heq.
      * rewrite decide_False; [done|]. rewrite Hva. congruence.
    + intros i p Hp.
      assert (H1 : points info1 !! i =
                   Some (if bool_decide (i = a) && ever_free voxel
                         then set_EverFree_level_dynamic true p else p)).
      { unfold info1. destruct (ever_free voxel).
        - simpl. destruct (decide (i = a)) as [->|Hne].
          + rewrite bool_decide_eq_true_2 by done. simpl.
            rewrite list_lookup_insert_eq by done.
            assert (pa = p) as -> by congruence. done.
          + rewrite bool_decide_eq_false_2 by done. simpl.
            by rewrite list_lookup_insert_ne.
        - by rewrite andb_false_r. }
      rewrite (Hinfo i _ H1). f_equal. unfold flagged.
      destruct (decide (i = a)) as [->|Hne].
      * rewrite (bool_decide_eq_true_2 (a = a)) by done.
        rewrite (bool_decide_eq_true_2 (a ∈ a :: l))
          by apply list_elem_of_here.
        rewrite Hef. simpl.
        destruct (ever_free voxel), (bool_decide (a ∈ l)); simpl;
          by destruct p.
      * rewrite (bool_decide_eq_false_2 (i = a)) by done. simpl.
        rewrite (bool_decide_ext (i ∈ l) (i ∈ a :: l)); [done|].
        rewrite elem_of_cons. tauto.
Qed.

(** X12.  [BlockwiseBuildVoxel2PointMap] on an allocated block, when every
    point listed for the block is a point of the cloud that falls into a
    voxel of the block and has a classification record: it returns; it
    appends to the entry of each voxel the listed points that fall into the
    voxel, in the order of the list; and it sets [EverFree_level_dynamic]
    for exactly the listed points that fall into an ever-free voxel,
    leaving every other flag of every record as it was. *)
Theorem BlockwiseBuildVoxel2PointMap_effect
    (block2points_map vm : HierarchicalIndexIntMap) (info : CloudInfo) :
  layer !! blockindex = Some block ->
  readable info (default [] (block2points_map !! blockindex)) ->
  exists vm' info',
    BlockwiseBuildVoxel2PointMap this layer blockindex block2points_map
      all_points (vm, info) = Some (vm', info') /\
    (forall voxel_index : VoxelIndex,
        vm' !! voxel_index =
        appended (vm !! voxel_index)
          (filter (fun i : nat =>
                     voxelIndexOf E blockindex all_points i
                     = Some voxel_index)
             (default [] (block2points_map !! blockindex)))) /\
    (forall (i : nat) (p : PointInfo),
        points info !! i = Some p ->
        points info' !! i =
        Some (flagged (default [] (block2points_map !! blockindex)) i p)) /\
    length (points info') = length (points info).
Proof.
  intros Hblock Hread.
  unfold BlockwiseBuildVoxel2PointMap, hasBlock, getBlockPtrByIndex.
  rewrite Hblock. rewrite bool_decide_eq_true_2 by by eexists.
  cbn [negb mbind option_bind].
  exact (BlockwiseBuildVoxel2PointMap_loop _ vm info Hread).
Qed.

End BlockwiseBuild.

(** ** [setUpVoxel2PointMap] *)

Lemma elem_of_keys {A : Type} (m : gmap (Z * Z * Z) A) (k : Z * Z * Z) :
  k ∈ (map_to_list m).*1 <-> is_Some (m !! k).
Proof.
  rewrite list_elem_of_fmap. split.
  - intros ([k' x] & -> & Hin). apply elem_of_map_to_list in Hin.
    by eexists.
  - intros [x Hx]. exists (k, x). split; [done|].
    by apply elem_of_map_to_list.
Qed.

Lemma set_EverFree_level_dynamic_twice (c1 c2 : bool)
    (p : MotionDetector.PointInfo) :
  (if c2
   then MotionDetector.set_EverFree_level_dynamic true
          (if c1 then MotionDetector.set_EverFree_level_dynamic true p
           else p)
   else if c1 then MotionDetector.set_EverFree_level_dynamic true p else p)
  = if c1 || c2 then MotionDetector.set_EverFree_level_dynamic true p
    else p.
Proof. by destruct c1, c2. Qed.

Section SetUp.

Import Voxblox Inv MotionDetector PointIndex.

Context {E : Collaborators}.
Variable this : t E.
Variable all_points : Cloud.

Let n : nat := voxels_per_side_ this.
Let sh : Shared (Clusters E) := shared_ this.
Let L : Layer := tsdf_layer_ sh.
Let info0 : CloudInfo := point_classifications_ sh.
Let fc : Z := frame_counter_ this.
Let cB : Pcl.PointXYZ -> BlockIndex := computeBlockIndexFromCoordinates E.
Let cV : BlockIndex -> Pcl.PointXYZ -> VoxelIndex :=
  computeVoxelIndexFromCoordinates E.

(** The map holds [n^3] voxels per block, the geometry of the layer names
    voxels of allocated blocks by valid indices, every point has a
    classification record, and there is a worker. *)
Hypothesis Hwf : layer_wf n L.
Hypothesis Hvalid :
  forall point : Pcl.PointXYZ,
    point ∈ all_points -> is_Some (L !! cB point) ->
    isValidVoxelIndex n (cV (cB point) point) = true.
Hypothesis Hinfo : (length all_points <= length (points info0))%nat.
Hypothesis Hthreads : 0 < num_threads (config_ this).

Let b2p : HierarchicalIndexIntMap := buildBlock2PointMap E all_points ∅.
Let indices : list BlockIndex := (map_to_list b2p).*1.
Let hash : gmap (Z * Z * Z) nat :=
  list_to_map (zip indices (seq 0 (length indices))).

Lemma b2p_default (bi : BlockIndex) :
  default [] (b2p !! bi) = pointsInBlock E all_points bi.
Proof.
  unfold b2p. rewrite buildBlock2PointMap_lookup.
  by destruct (pointsInBlock _ _ _).
Qed.

Lemma elem_of_indices (bi : BlockIndex) :
  bi ∈ indices <-> exists point, point ∈ all_points /\ cB point = bi.
Proof.
  unfold indices. rewrite elem_of_keys. unfold b2p.
  rewrite buildBlock2PointMap_lookup. split.
  - intros Hsome.
    destruct (pointsInBlock E all_points bi) as [|i l] eqn:Hl;
      [by destruct Hsome|].
    assert (Hi : i ∈ pointsInBlock E all_points bi)
      by (rewrite Hl; apply list_elem_of_here).
    apply elem_of_pointsInBlock in Hi as (point & Hp & Hb).
    exists point. split; [by eapply list_elem_of_lookup_2|done].
  - intros (point & Hin & Hb). apply list_elem_of_lookup in Hin as [i Hp].
    assert (Hi : i ∈ pointsInBlock E all_points bi)
      by (apply elem_of_pointsInBlock; eauto).
    destruct (pointsInBlock E all_points bi);
      [by apply elem_of_nil in Hi|by eexists].
Qed.

Lemma NoDup_indices : NoDup indices.
Proof. apply NoDup_fst_map_to_list. Qed.

Lemma hash_lookup (k : nat) (bi : BlockIndex) :
  indices !! k = Some bi -> hash !! bi = Some k.
Proof.
  intros Hk. unfold hash. apply elem_of_list_to_map_1.
  - rewrite fst_zip by (rewrite length_seq; lia). apply NoDup_indices.
  - apply list_elem_of_lookup. exists k.
    rewrite lookup_zip_with, Hk. simpl.
    rewrite lookup_seq_lt by (by eapply lookup_lt_Some). done.
Qed.

Lemma hash_lookup_None (bi : BlockIndex) :
  bi ∉ indices -> hash !! bi = None.
Proof.
  intros Hbi. unfold hash. apply not_elem_of_list_to_map_1.
  by rewrite fst_zip by (rewrite length_seq; lia).
Qed.

(** *** The voxel maps and the classification *)

(** The entry of a voxel in the voxel map of a block. *)
Let VMspec (bi : BlockIndex) (vi : VoxelIndex) : option (list nat) :=
  match L !! bi with
  | Some _ =>
      appended None
        (filter (fun i : nat => voxelIndexOf E bi all_points i = Some vi)
           (pointsInBlock E all_points bi))
  | None => None
  end.

Let hitIn (pre : list BlockIndex) (i : nat) : bool :=
  match all_points !! i with
  | Some point =>
      bool_decide (cB point ∈ pre) && everFreeKey n L (voxelKeyOf E point)
  | None => false
  end.

Let build (st : list HierarchicalIndexIntMap * CloudInfo)
    (index : BlockIndex)
  : option (list HierarchicalIndexIntMap * CloudInfo) :=
  let k := default 0%nat (hash !! index) in
  voxel_map ← st.1 !! k;
  r ← BlockwiseBuildVoxel2PointMap this L index b2p all_points
        (voxel_map, st.2);
  Some (<[k := r.1]> st.1, r.2).

Let built_inv (pre : list BlockIndex)
    (st : list HierarchicalIndexIntMap * CloudInfo) : Prop :=
  length st.1 = length indices /\
  (forall (k : nat) (bi : BlockIndex),
      indices !! k = Some bi ->
      exists vm : HierarchicalIndexIntMap,
        st.1 !! k = Some vm /\
        forall vi : VoxelIndex,
          vm !! vi = if bool_decide (bi ∈ pre) then VMspec bi vi
                     else None) /\
  (forall (i : nat) (p : PointInfo),
      points info0 !! i = Some p ->
      points st.2 !! i =
      Some (if hitIn pre i then set_EverFree_level_dynamic true p else p)) /\
  length (points st.2) = length (points info0).

Lemma hitIn_allocated (pre : list BlockIndex) (a : BlockIndex) (B : Block)
    (i : nat) :
  L !! a = Some B -> a ∉ pre ->
  hitIn (pre ++ [a]) i =
  hitIn pre i ||
  (bool_decide (i ∈ pointsInBlock E all_points a)
   && everFreeAt E n B a all_points i).
Proof.
  intros HB Ha. unfold hitIn, everFreeAt, voxelIndexOf.
  destruct (all_points !! i) as [point|] eqn:Hp.
  - simpl. destruct (decide (cB point = a)) as [Heq|Hne].
    + rewrite (bool_decide_eq_true_2 (i ∈ pointsInBlock E all_points a))
        by (apply elem_of_pointsInBlock; eauto).
      rewrite (bool_decide_eq_true_2 (cB point ∈ pre ++ [a]))
        by (rewrite Heq, elem_of_app, list_elem_of_singleton; tauto).
      rewrite (bool_decide_eq_false_2 (cB point ∈ pre)) by by rewrite Heq.
      simpl. unfold everFreeKey, voxelAt, voxelKeyOf. simpl.
      fold cB. rewrite Heq, HB. done.
    + rewrite (bool_decide_eq_false_2 (i ∈ pointsInBlock E all_points a)).
      * rewrite (bool_decide_ext (cB point ∈ pre ++ [a]) (cB point ∈ pre)).
        { simpl. by rewrite orb_false_r. }
        rewrite elem_of_app, list_elem_of_singleton. tauto.
      * rewrite elem_of_pointsInBlock. intros (point' & Hp' & Hb).
        apply Hne. unfold cB. congruence.
  - rewrite bool_decide_eq_false_2; [done|].
    rewrite elem_of_pointsInBlock. intros (point' & Hp' & _). congruence.
Qed.

Lemma hitIn_absent (pre : list BlockIndex) (a : BlockIndex) (i : nat) :
  L !! a = None -> hitIn (pre ++ [a]) i = hitIn pre i.
Proof.
  intros HB. unfold hitIn. destruct (all_points !! i) as [point|]; [|done].
  destruct (decide (cB point = a)) as [Heq|Hne].
  - assert (Hef : everFreeKey n L (voxelKeyOf E point) = false).
    { unfold everFreeKey, voxelAt, voxelKeyOf. simpl. fold cB.
      by rewrite Heq, HB. }
    by rewrite Hef, !andb_false_r.
  - rewrite (bool_decide_ext (cB point ∈ pre ++ [a]) (cB point ∈ pre));
      [done|].
    rewrite elem_of_app, list_elem_of_singleton. tauto.
Qed.

Lemma readable_pointsInBlock (a : BlockIndex) (B : Block)
    (info : CloudInfo) :
  L !! a = Some B -> length (points info) = length (points info0) ->
  Forall (fun i : nat =>
            is_Some (voxelIndexOf E a all_points i
                     ≫= getVoxelByVoxelIndex n B) /\
            (i < length (points info))%nat)
    (pointsInBlock E all_points a).
Proof.
  intros HB Hlen. apply Forall_forall. intros i Hi.
  apply elem_of_pointsInBlock in Hi as (point & Hp & Hb). split.
  - unfold voxelIndexOf. rewrite Hp. simpl. unfold getVoxelByVoxelIndex.
    assert (Hv : isValidVoxelIndex n (cV a point) = true).
    { rewrite <- Hb. apply Hvalid; [by eapply list_elem_of_lookup_2|].
      unfold cB. rewrite Hb. by eexists. }
    unfold cV in Hv. rewrite Hv. apply lookup_lt_is_Some_2.
    rewrite (Hwf _ _ HB). by apply linear_index_valid.
  - rewrite Hlen. apply lookup_lt_Some in Hp. lia.
Qed.

Lemma build_all :
  exists built,
    for_each build indices (replicate (length indices) ∅, info0)
    = Some built /\
    built_inv indices built.
Proof.
  apply for_each_prefix_inv.
  - split; [apply length_replicate|]. split; [|split; [|done]].
    + intros k bi Hk. exists ∅. split.
      * apply lookup_replicate_2. by eapply lookup_lt_Some.
      * intros vi. rewrite lookup_empty.
        by rewrite bool_decide_eq_false_2 by apply not_elem_of_nil.
    + intros i p Hp. cbn [snd]. rewrite Hp. unfold hitIn.
      destruct (all_points !! i); [|done].
      by rewrite bool_decide_eq_false_2 by apply not_elem_of_nil.
  - intros pre a post [bw info] Hind (Hlen & Hbw & Hinfo' & Hlen').
    cbn [fst snd] in *.
    assert (Hk : indices !! length pre = Some a).
    { rewrite Hind. by apply list_lookup_middle. }
    assert (Ha_pre : a ∉ pre).
    { pose proof NoDup_indices as Hnd. rewrite Hind in Hnd.
      apply NoDup_app in Hnd as (_ & Hdisj & _).
      intros Ha. apply (Hdisj a Ha), list_elem_of_here. }
    assert (Hother : forall k bi,
               indices !! k = Some bi -> k <> length pre ->
               bool_decide (bi ∈ pre ++ [a]) = bool_decide (bi ∈ pre)).
    { intros k bi Hkb Hne. apply bool_decide_ext.
      rewrite elem_of_app, list_elem_of_singleton.
      split; [|tauto]. intros [?| ->]; [done|]. destruct Hne.
      by apply (NoDup_lookup indices k (length pre) a NoDup_indices). }
    pose proof (hash_lookup _ _ Hk) as Hhash.
    destruct (Hbw _ _ Hk) as (vm & Hvm & Hvm_spec).
    assert (Hvm_empty : forall vi, vm !! vi = None).
    { intros vi. rewrite Hvm_spec. by rewrite bool_decide_eq_false_2. }
    assert (Hlt : (length pre < length bw)%nat).
    { rewrite Hlen. by eapply lookup_lt_Some. }
    unfold build. rewrite Hhash. cbn [from_option id fst snd]. rewrite Hvm.
    cbn [mbind option_bind].
    destruct (L !! a) as [B|] eqn:HB.
    + destruct (BlockwiseBuildVoxel2PointMap_loop this a all_points B
                  (pointsInBlock E all_points a) vm info)
        as (vm' & info' & Hrun & Hvm' & Hinfo'' & Hlen'').
      { by apply readable_pointsInBlock. }
      assert (Heq : BlockwiseBuildVoxel2PointMap this L a b2p all_points
                      (vm, info) = Some (vm', info')).
      { rewrite <- Hrun, <- b2p_default.
        unfold BlockwiseBuildVoxel2PointMap, hasBlock, getBlockPtrByIndex.
        rewrite HB. rewrite bool_decide_eq_true_2 by by eexists.
        reflexivity. }
      rewrite Heq. cbn [mbind option_bind fst snd].
      eexists. split; [done|]. unfold built_inv. cbn [fst snd].
      split; [by rewrite length_insert|]. split; [|split; [|congruence]].
      * intros k bi Hkb. destruct (decide (k = length pre)) as [->|Hne].
        -- assert (bi = a) as -> by congruence.
           exists vm'. split; [by apply list_lookup_insert_eq|].
           intros vi. rewrite Hvm', Hvm_empty.
           rewrite bool_decide_eq_true_2
             by (rewrite elem_of_app, list_elem_of_singleton; tauto).
           unfold VMspec. by rewrite HB.
        -- destruct (Hbw _ _ Hkb) as (vm2 & Hvm2 & Hspec2).
           exists vm2. split; [by rewrite list_lookup_insert_ne|].
           intros vi. rewrite (Hother k bi Hkb Hne). apply Hspec2.
      * intros i p Hp. rewrite (Hinfo'' i _ (Hinfo' i p Hp)).
        rewrite (hitIn_allocated pre a B i HB Ha_pre).
        by rewrite set_EverFree_level_dynamic_twice.
    + rewrite BlockwiseBuildVoxel2PointMap_absent by done.
      cbn [mbind option_bind fst snd].
      eexists. split; [done|]. unfold built_inv. cbn [fst snd].
      split; [by rewrite length_insert|]. split; [|split; [|done]].
      * intros k bi Hkb. destruct (decide (k = length pre)) as [->|Hne].
        -- assert (bi = a) as -> by congruence.
           exists vm. split; [by apply list_lookup_insert_eq|].
           intros vi. rewrite Hvm_empty. unfold VMspec. rewrite HB.
           by destruct (bool_decide (a ∈ pre ++ [a])).
        -- destruct (Hbw _ _ Hkb) as (vm2 & Hvm2 & Hspec2).
           exists vm2. split; [by rewrite list_lookup_insert_ne|].
           intros vi. rewrite (Hother k bi Hkb Hne). apply Hspec2.
      * intros i p Hp. rewrite (hitIn_absent pre a i HB).
        by apply Hinfo'.
Qed.

(** *** The marks and the seeds *)

Let linearOf (key : VoxelKey) : BlockIndex * nat :=
  (key.1, computeLinearIndexFromVoxelIndex n key.2).

Let marked_inv (ks : list VoxelKey) (st : Layer * list VoxelKey) : Prop :=
  (forall b : BlockIndex, Frame.updatedBit st.1 b = Frame.updatedBit L b) /\
  (forall (b : BlockIndex) (j : nat),
      voxelAtLinear st.1 b j =
      if bool_decide ((b, j) ∈ linearOf <$> ks)
      then occupiedNow fc <$> voxelAtLinear L b j
      else voxelAtLinear L b j) /\
  st.2 = filter (fun key : VoxelKey => everFreeKey n L key = true) ks.

Lemma markOccupied_step (ks : list VoxelKey) (st : Layer * list VoxelKey)
    (bi : BlockIndex) (vi : VoxelIndex) :
  marked_inv ks st -> is_Some (L !! bi) ->
  isValidVoxelIndex n vi = true ->
  exists st', markOccupied this bi st vi = Some st' /\
              marked_inv (ks ++ [(bi, vi)]) st'.
Proof.
  destruct st as [Lc seeds]. intros (Hbits & Hvox & Hseeds) [B HB] Hv.
  cbn [fst snd] in *.
  assert (HBc : exists Bc, Lc !! bi = Some Bc).
  { specialize (Hbits bi). unfold Frame.updatedBit in Hbits.
    rewrite HB in Hbits. destruct (Lc !! bi); [by eexists|done]. }
  destruct HBc as [Bc HBc].
  set (j := computeLinearIndexFromVoxelIndex n vi).
  destruct (voxelAtLinear_is_Some n L bi B j Hwf HB
              (linear_index_valid n vi Hv)) as [v Hv0].
  assert (Hw : exists w, voxelAtLinear Lc bi j = Some w /\
                         occupiedNow fc w = occupiedNow fc v /\
                         ever_free w = ever_free v).
  { rewrite Hvox, Hv0. destruct (bool_decide _); simpl; eauto. }
  destruct Hw as (w & Hw & Hocc & Hef).
  assert (Hget : getVoxelByVoxelIndex n Bc vi = Some w).
  { unfold getVoxelByVoxelIndex. rewrite Hv. fold j.
    unfold voxelAtLinear in Hw. by rewrite HBc in Hw. }
  unfold markOccupied, getBlockPtrByIndex. cbn [fst snd].
  fold n. rewrite HBc, Hv. cbn [negb]. rewrite Hget.
  cbn [mbind option_bind]. fold j fc.
  eexists. split; [done|]. unfold marked_inv. cbn [fst snd].
  split; [|split].
  - intros b. by rewrite updatedBit_setVoxel.
  - intros b j'. rewrite voxelAtLinear_setVoxel, fmap_app.
    change (linearOf <$> [(bi, vi)]) with [(bi, j)].
    case_decide as Heq.
    + injection Heq as <- <-.
      rewrite bool_decide_eq_true_2
        by (rewrite elem_of_app, list_elem_of_singleton; tauto).
      rewrite Hw, Hv0. simpl.
      change (set_clustering_processed false (set_curr_occupied fc w))
        with (occupiedNow fc w). by rewrite Hocc.
    + rewrite Hvox.
      rewrite (bool_decide_ext ((b, j') ∈ (linearOf <$> ks) ++ [(bi, j)])
                 ((b, j') ∈ linearOf <$> ks)); [done|].
      rewrite elem_of_app, list_elem_of_singleton.
      split; [|tauto]. intros [?|Heq']; [done|]. by destruct Heq.
  - rewrite filter_app, <- Hseeds.
    assert (Hkey : everFreeKey n L (bi, vi) = ever_free w).
    { unfold everFreeKey. rewrite voxelAtLinear_voxelAt by done.
      fold j. by rewrite Hv0. }
    rewrite filter_cons, filter_nil, Hkey.
    destruct (ever_free w);
      [by rewrite decide_True|by rewrite decide_False, app_nil_r].
Qed.

Lemma markOccupied_loop (bi : BlockIndex) (vis : list VoxelIndex) :
  is_Some (L !! bi) ->
  Forall (fun vi : VoxelIndex => isValidVoxelIndex n vi = true) vis ->
  forall ks st,
    marked_inv ks st ->
    exists st', for_each (markOccupied this bi) vis st = Some st' /\
                marked_inv (ks ++ ((fun vi => (bi, vi)) <$> vis)) st'.
Proof.
  intros Hbi. induction vis as [|vi vis IH]; intros Hvis ks st Hinv.
  - exists st. split; [done|]. by rewrite app_nil_r.
  - apply Forall_cons in Hvis as [Hv Hvis].
    destruct (markOccupied_step ks st bi vi Hinv Hbi Hv)
      as (st1 & Hstep & Hinv1).
    destruct (IH Hvis _ _ Hinv1) as (st' & Hrun & Hinv').
    exists st'. cbn [for_each]. rewrite Hstep. split; [done|].
    rewrite fmap_cons. by rewrite <- app_assoc in Hinv'.
Qed.

Let keysOf (bw : list HierarchicalIndexIntMap) (bi : BlockIndex)
  : list VoxelKey :=
  match bw !! default 0%nat (hash !! bi) with
  | Some vm => (fun vi : VoxelIndex => (bi, vi)) <$> (map_to_list vm).*1
  | None => []
  end.

Let mark (bw : list HierarchicalIndexIntMap)
    (st : Layer * list VoxelKey) (block_index : BlockIndex)
  : option (Layer * list VoxelKey) :=
  voxel_map ← bw !! default 0%nat (hash !! block_index);
  for_each (markOccupied this block_index) (map_to_list voxel_map).*1 st.

Lemma VMspec_is_Some (bi : BlockIndex) (vi : VoxelIndex) :
  is_Some (VMspec bi vi) <->
  is_Some (L !! bi) /\
  exists point, point ∈ all_points /\ voxelKeyOf E point = (bi, vi).
Proof.
  unfold VMspec. destruct (L !! bi) as [B|].
  - set (l := filter _ _).
    assert (Hl : (exists i, i ∈ l) <->
                 exists point, point ∈ all_points /\
                               voxelKeyOf E point = (bi, vi)).
    { unfold l. split.
      - intros (i & Hi). apply list_elem_of_filter in Hi as [Hvi Hi].
        apply elem_of_pointsInBlock in Hi as (point & Hp & Hb).
        exists point. split; [by eapply list_elem_of_lookup_2|].
        unfold voxelIndexOf in Hvi. rewrite Hp in Hvi. simpl in Hvi.
        unfold voxelKeyOf. simpl. rewrite Hb. congruence.
      - intros (point & Hin & Hkey).
        apply list_elem_of_lookup in Hin as [i Hp]. exists i.
        unfold voxelKeyOf in Hkey. simpl in Hkey.
        injection Hkey as Hb Hvi.
        apply list_elem_of_filter. split.
        + unfold voxelIndexOf. rewrite Hp. simpl. rewrite Hb in Hvi.
          by rewrite Hvi.
        + apply elem_of_pointsInBlock. eauto. }
    rewrite <- Hl. unfold appended. destruct l as [|i l'].
    + split; [by intros [? ?]|]. intros [_ [i Hi]].
      by apply elem_of_nil in Hi.
    + split; [|by eexists]. intros _. split; [by eexists|].
      exists i. apply list_elem_of_here.
  - split; [by intros [? ?]|]. by intros [[? ?] _].
Qed.

Section Marking.

Variable built : list HierarchicalIndexIntMap * CloudInfo.
Hypothesis Hbuilt : built_inv indices built.

Lemma built_lookup (bi : BlockIndex) :
  bi ∈ indices ->
  exists vm : HierarchicalIndexIntMap,
    built.1 !! default 0%nat (hash !! bi) = Some vm /\
    forall vi : VoxelIndex, vm !! vi = VMspec bi vi.
Proof.
  intros Hbi. destruct Hbuilt as (_ & Hbw & _).
  pose proof Hbi as Hin.
  apply list_elem_of_lookup in Hbi as [k Hk].
  rewrite (hash_lookup _ _ Hk). simpl.
  destruct (Hbw _ _ Hk) as (vm & Hvm & Hspec).
  exists vm. split; [done|]. intros vi. rewrite Hspec.
  by rewrite bool_decide_eq_true_2.
Qed.

Lemma elem_of_keysOf (bi : BlockIndex) (key : VoxelKey) :
  bi ∈ indices ->
  key ∈ keysOf built.1 bi <->
  key.1 = bi /\ is_Some (L !! bi) /\
  exists point, point ∈ all_points /\ voxelKeyOf E point = key.
Proof.
  intros Hbi. destruct (built_lookup bi Hbi) as (vm & Hvm & Hspec).
  unfold keysOf. rewrite Hvm, list_elem_of_fmap.
  setoid_rewrite elem_of_keys. setoid_rewrite Hspec.
  setoid_rewrite VMspec_is_Some. destruct key as [b vi]. simpl. split.
  - intros (vi' & [= -> ->] & Halloc & Hpoint). done.
  - intros (-> & Halloc & Hpoint). exists vi. done.
Qed.

Lemma elem_of_allKeys (key : VoxelKey) :
  key ∈ indices ≫= keysOf built.1 <->
  is_Some (L !! key.1) /\
  exists point, point ∈ all_points /\ voxelKeyOf E point = key.
Proof.
  rewrite list_elem_of_bind. split.
  - intros (bi & Hkey & Hbi). apply (elem_of_keysOf bi key Hbi) in Hkey
      as (<- & Halloc & Hpoint). done.
  - intros (Halloc & point & Hin & Hkey). exists key.1.
    assert (Hbi : key.1 ∈ indices).
    { apply elem_of_indices. exists point. split; [done|].
      by rewrite <- Hkey. }
    split; [|done]. apply (elem_of_keysOf _ _ Hbi). eauto.
Qed.

Lemma NoDup_allKeys : NoDup (indices ≫= keysOf built.1).
Proof.
  apply NoDup_bind; [| |apply NoDup_indices].
  - intros b1 b2 key Hb1 Hb2 H1 H2.
    apply (elem_of_keysOf b1 key Hb1) in H1 as (<- & _).
    by apply (elem_of_keysOf b2 key Hb2) in H2 as (<- & _).
  - intros bi Hbi. unfold keysOf.
    destruct (built.1 !! _) as [vm|]; [|constructor].
    apply NoDup_fmap_2_strong; [|apply NoDup_fst_map_to_list].
    by intros ?? _ _ [= ->].
Qed.

Lemma mark_all :
  exists marked,
    for_each (mark built.1) indices (L, []) = Some marked /\
    marked_inv (indices ≫= keysOf built.1) marked.
Proof.
  apply (for_each_prefix_inv (mark built.1)
           (fun pre st => marked_inv (pre ≫= keysOf built.1) st)).
  - split; [done|]. split; [|done]. intros b j.
    by rewrite bool_decide_eq_false_2 by apply not_elem_of_nil.
  - intros pre a post st Hind Hinv.
    assert (Ha : a ∈ indices).
    { rewrite Hind, elem_of_app. right. apply list_elem_of_here. }
    destruct (built_lookup a Ha) as (vm & Hvm & Hspec).
    assert (Hkeys : keysOf built.1 a =
                    (fun vi : VoxelIndex => (a, vi))
                    <$> (map_to_list vm).*1).
    { unfold keysOf. by rewrite Hvm. }
    unfold mark. rewrite Hvm. cbn [mbind option_bind].
    rewrite bind_app, bind_singleton, Hkeys.
    destruct (L !! a) as [B|] eqn:HB.
    + apply markOccupied_loop; [by rewrite HB; eexists| |done].
      apply Forall_forall. intros vi Hvi.
      apply elem_of_keys in Hvi. rewrite Hspec in Hvi.
      apply VMspec_is_Some in Hvi as (_ & point & Hin & Hkey).
      unfold voxelKeyOf in Hkey. simpl in Hkey. injection Hkey as Hb Hv.
      rewrite <- Hv. apply Hvalid; [done|].
      unfold cB. rewrite Hb, HB. by eexists.
    + assert (Hempty : vm = ∅).
      { apply map_empty. intros vi. rewrite Hspec. unfold VMspec.
        by rewrite HB. }
      rewrite Hempty, map_to_list_empty. simpl. exists st.
      split; [done|]. by rewrite app_nil_r.
Qed.

End Marking.

(** *** The whole function *)

Lemma setUpVoxel2PointMap_spec :
  exists built marked,
    setUpVoxel2PointMap this all_points =
    Some (mkVoxel2PointMap hash built.1 marked.2,
          mkShared marked.1 built.2 (current_clusters_ sh)) /\
    built_inv indices built /\
    marked_inv (indices ≫= keysOf built.1) marked.
Proof.
  destruct build_all as (built & Hrun1 & Hinv1).
  destruct (mark_all built Hinv1) as (marked & Hrun2 & Hinv2).
  exists built, marked. split; [|done].
  unfold setUpVoxel2PointMap, run_workers.
  rewrite (proj2 (Z.ltb_lt _ _) Hthreads).
  unfold build in Hrun1. unfold mark in Hrun2.
  fold sh L info0 b2p indices hash.
  rewrite Hrun1. cbn [mbind option_bind].
  rewrite Hrun2. done.
Qed.

Lemma hitIn_indices (i : nat) :
  hitIn indices i = pointEverFree E n L all_points i.
Proof.
  unfold hitIn, pointEverFree.
  destruct (all_points !! i) as [point|] eqn:Hp; [|done].
  rewrite bool_decide_eq_true_2; [done|].
  apply elem_of_indices. exists point.
  split; [by eapply list_elem_of_lookup_2|done].
Qed.

Lemma pointsInVoxel_filter (bi : BlockIndex) (vi : VoxelIndex) :
  filter (fun i : nat => voxelIndexOf E bi all_points i = Some vi)
    (pointsInBlock E all_points bi) =
  pointsInVoxel E all_points (bi, vi).
Proof.
  unfold pointsInBlock, pointsInVoxel. rewrite list_filter_filter.
  apply list_filter_iff. intros i. unfold voxelIndexOf, voxelKeyOf.
  destruct (all_points !! i) as [point|]; simpl; [|by intuition].
  split.
  - intros [[= Hv] [= Hb]]. by rewrite Hb, Hv.
  - intros [= Hb Hv]. by rewrite Hb in Hv |- *; rewrite Hv.
Qed.

Lemma occupiedAt_allKeys (built : list HierarchicalIndexIntMap * CloudInfo)
    (b : BlockIndex) (j : nat) :
  built_inv indices built -> is_Some (L !! b) ->
  bool_decide ((b, j) ∈ linearOf <$> (indices ≫= keysOf built.1)) =
  occupiedAt E n all_points b j.
Proof.
  intros Hbuilt Halloc. unfold occupiedAt. apply bool_decide_ext.
  rewrite list_elem_of_fmap, Exists_exists.
  setoid_rewrite (elem_of_allKeys built Hbuilt). split.
  - intros ([b' vi] & [= -> ->] & _ & point & Hin & Hkey).
    exists point. split; [done|].
    unfold voxelKeyOf in Hkey. simpl in Hkey. injection Hkey as Hb Hv.
    split; [done|]. rewrite Hb in Hv. by rewrite Hv.
  - intros (point & Hin & Hb & Hj). exists (voxelKeyOf E point).
    unfold linearOf, voxelKeyOf. simpl. rewrite Hb, Hj.
    split; [done|]. split; [done|]. exists point. by rewrite Hb.
Qed.

(** X13.  When the map is well formed, the voxels of the points are valid,
    every point has a classification record and there is a worker,
    [setUpVoxel2PointMap] returns, and it sets [EverFree_level_dynamic] for
    exactly the points of the cloud that fall into an ever-free voxel of an
    allocated block; no other flag of a record changes, and the clusters
    are left alone. *)
Theorem setUpVoxel2PointMap_flags_ever_free_points :
  Z.of_nat (length all_points) <= Int.max_int ->
  exists maps sh',
    setUpVoxel2PointMap this all_points = Some (maps, sh') /\
    current_clusters_ sh' = current_clusters_ sh /\
    length (points (point_classifications_ sh')) = length (points info0) /\
    forall (i : nat) (p : PointInfo),
      points info0 !! i = Some p ->
      points (point_classifications_ sh') !! i =
      Some (if pointEverFree E n L all_points i
            then set_EverFree_level_dynamic true p else p).
Proof.
  intros _.
  destruct setUpVoxel2PointMap_spec
    as (built & marked & Hrun & (_ & _ & Hinfo' & Hlen) & _).
  eexists _, _. split; [exact Hrun|]. cbn [current_clusters_
    point_classifications_]. split; [done|]. split; [done|].
  intros i p Hp. rewrite (Hinfo' i p Hp). by rewrite hitIn_indices.
Qed.

(** X14.  When the map is well formed, the voxels of the points are valid,
    every point has a classification record and there is a worker,
    [setUpVoxel2PointMap] writes to the map the marks of the occupied
    voxels only: a voxel that some point of the cloud falls into gets
    [curr_occupied] set to the frame counter and [clustering_processed]
    cleared, every other voxel and every update bit is left as it was. *)
Theorem setUpVoxel2PointMap_marks_occupied :
  Z.of_nat (length all_points) <= Int.max_int ->
  exists maps sh',
    setUpVoxel2PointMap this all_points = Some (maps, sh') /\
    (forall b : BlockIndex,
        Frame.updatedBit (tsdf_layer_ sh') b = Frame.updatedBit L b) /\
    forall (b : BlockIndex) (j : nat) (v : TsdfVoxel),
      voxelAtLinear L b j = Some v ->
      voxelAtLinear (tsdf_layer_ sh') b j =
      Some (if occupiedAt E n all_points b j
            then occupiedNow fc v else v).
Proof.
  intros _.
  destruct setUpVoxel2PointMap_spec
    as (built & marked & Hrun & Hbuilt & Hbits & Hvox & _).
  eexists _, _. split; [exact Hrun|]. cbn [tsdf_layer_].
  split; [done|]. intros b j v Hv. rewrite Hvox, Hv.
  rewrite (occupiedAt_allKeys built b j Hbuilt).
  - by destruct (occupiedAt E n all_points b j).
  - unfold voxelAtLinear in Hv. destruct (L !! b); [by eexists|done].
Qed.

(** X15.  When the map is well formed, the voxels of the points are valid,
    every point has a classification record and there is a worker, the
    seeds that [setUpVoxel2PointMap] hands to the clustering are the
    ever-free voxels that some point of the cloud falls into, each once; in
    the map as the function leaves it each seed is ever-free and marked as
    occupied in the current frame. *)
Theorem setUpVoxel2PointMap_seeds :
  Z.of_nat (length all_points) <= Int.max_int ->
  exists maps sh',
    setUpVoxel2PointMap this all_points = Some (maps, sh') /\
    NoDup (occupied_ever_free_voxel_indices maps) /\
    (forall key : VoxelKey,
        key ∈ occupied_ever_free_voxel_indices maps <->
        everFreeKey n L key = true /\
        exists point, point ∈ all_points /\ voxelKeyOf E point = key) /\
    (forall key : VoxelKey,
        key ∈ occupied_ever_free_voxel_indices maps ->
        exists v' : TsdfVoxel,
          voxelAt n (tsdf_layer_ sh') key = Some v' /\
          ever_free v' = true /\ curr_occupied v' = fc /\
          clustering_processed v' = false).
Proof.
  intros _.
  destruct setUpVoxel2PointMap_spec
    as (built & marked & Hrun & Hbuilt & Hbits & Hvox & Hseeds).
  eexists _, _. split; [exact Hrun|].
  cbn [occupied_ever_free_voxel_indices tsdf_layer_].
  assert (Hmem : forall key : VoxelKey,
             key ∈ marked.2 <->
             everFreeKey n L key = true /\
             exists point, point ∈ all_points /\
                           voxelKeyOf E point = key).
  { intros key. rewrite Hseeds, list_elem_of_filter.
    rewrite (elem_of_allKeys built Hbuilt). split; [tauto|].
    intros [Hef Hpoint]. split; [done|]. split; [|done].
    unfold everFreeKey, voxelAt in Hef.
    destruct (L !! key.1); [by eexists|done]. }
  split; [|split; [exact Hmem|]].
  - rewrite Hseeds. apply NoDup_filter, NoDup_allKeys. exact Hbuilt.
  - intros [b vi] Hkey. pose proof Hkey as Hin.
    apply Hmem in Hkey as (Hef & point & Hpoint & Hk).
    assert (Halloc : is_Some (L !! b)).
    { unfold everFreeKey, voxelAt in Hef. simpl in Hef.
      destruct (L !! b); [by eexists|done]. }
    assert (Hv : isValidVoxelIndex n vi = true).
    { unfold voxelKeyOf in Hk. simpl in Hk. injection Hk as Hb Hvi.
      rewrite <- Hvi. apply Hvalid; [done|]. unfold cB. by rewrite Hb. }
    unfold everFreeKey in Hef.
    rewrite voxelAtLinear_voxelAt in Hef |- * by done.
    rewrite Hvox. rewrite bool_decide_eq_true_2.
    + destruct (voxelAtLinear L b _) as [v|]; [|done]. simpl.
      exists (occupiedNow fc v). split; [done|]. by destruct v.
    + apply list_elem_of_fmap. exists (b, vi). split; [done|].
      rewrite Hseeds in Hin. by apply list_elem_of_filter in Hin as [_ ?].
Qed.

(** X16.  When the map is well formed, the voxels of the points are valid,
    every point has a classification record and there is a worker, the
    maps that [setUpVoxel2PointMap] hands to the clustering sort the
    points by voxel: [block2index_hash] gives a slot to each block that
    some point falls into and to no other block, and the voxel map in the
    slot of an allocated block lists under each voxel the indices of the
    points that fall into it, each once and in increasing order; a voxel
    without a point has no entry, and the voxel map of a block that is not
    allocated is empty. *)
Theorem setUpVoxel2PointMap_sorts_points :
  Z.of_nat (length all_points) <= Int.max_int ->
  exists maps sh',
    setUpVoxel2PointMap this all_points = Some (maps, sh') /\
    forall bi : BlockIndex,
      (pointsInBlock E all_points bi = [] ->
       block2index_hash maps !! bi = None) /\
      (pointsInBlock E all_points bi <> [] ->
       exists (k : nat) (vm : HierarchicalIndexIntMap),
         block2index_hash maps !! bi = Some k /\
         blockwise_voxel2point_map maps !! k = Some vm /\
         forall vi : VoxelIndex,
           vm !! vi =
           match L !! bi, pointsInVoxel E all_points (bi, vi) with
           | Some _, i :: l => Some (i :: l)
           | _, _ => None
           end).
Proof.
  intros _.
  destruct setUpVoxel2PointMap_spec
    as (built & marked & Hrun & Hbuilt & _).
  eexists _, _. split; [exact Hrun|].
  cbn [block2index_hash blockwise_voxel2point_map].
  assert (Hidx : forall bi, bi ∈ indices <->
                            pointsInBlock E all_points bi <> []).
  { intros bi. unfold indices. rewrite elem_of_keys. unfold b2p.
    rewrite buildBlock2PointMap_lookup.
    destruct (pointsInBlock E all_points bi).
    - split; [by intros [? ?]|done].
    - split; [done|by eexists]. }
  intros bi. split.
  - intros Hnil. apply hash_lookup_None. rewrite Hidx. by intros [].
  - intros Hne. apply Hidx in Hne.
    apply list_elem_of_lookup in Hne as [k Hk].
    destruct Hbuilt as (_ & Hbw & _).
    destruct (Hbw _ _ Hk) as (vm & Hvm & Hspec).
    exists k, vm. split; [by apply hash_lookup|]. split; [done|].
    intros vi. rewrite Hspec.
    rewrite bool_decide_eq_true_2 by by eapply list_elem_of_lookup_2.
    unfold VMspec. rewrite pointsInVoxel_filter.
    destruct (L !! bi); [|done].
    by destruct (pointsInVoxel E all_points (bi, vi)).
Qed.


End SetUp.

(** ** The index builder on a concrete cloud *)

Example setUpVoxel2PointMap_scene :
  (MotionDetector.setUpVoxel2PointMap Scene.detector Scene.cloud
   ≫= fun r =>
        Some (MotionDetector.occupied_ever_free_voxel_indices r.1,
              MotionDetector.points (MotionDetector.point_classifications_
                                       r.2),
              curr_occupied
              <$> Inv.voxelAtLinear (MotionDetector.tsdf_layer_ r.2)
                    (0, 0, 0) 0))
  = Some ([((0, 0, 0), (0, 0, 0))],
          [MotionDetector.mkPointInfo false true false],
          Some 9).
Proof. vm_compute. reflexivity. Qed.

Lemma Scene_valid (point : Pcl.PointXYZ) :
  point ∈ Scene.cloud ->
  is_Some (MotionDetector.tsdf_layer_
             (MotionDetector.shared_ Scene.detector)
           !! MotionDetector.computeBlockIndexFromCoordinates
                (Examples.collaborators true) point) ->
  Voxblox.isValidVoxelIndex
    (MotionDetector.voxels_per_side_ Scene.detector)
    (MotionDetector.computeVoxelIndexFromCoordinates
       (Examples.collaborators true)
       (MotionDetector.computeBlockIndexFromCoordinates
          (Examples.collaborators true) point) point) = true.
Proof. intros _ _. reflexivity. Qed.

Lemma buildBlock2PointMap_partition_witness :
  (MotionDetector.buildBlock2PointMap (Examples.collaborators true)
     Scene.cloud ∅ !! (0, 0, 0) =
   match PointIndex.pointsInBlock (Examples.collaborators true)
           Scene.cloud (0, 0, 0) with
   | [] => None
   | l => Some l
   end) /\
  (forall i : nat,
      i ∈ PointIndex.pointsInBlock (Examples.collaborators true)
            Scene.cloud (0, 0, 0) <->
      exists point,
        Scene.cloud !! i = Some point /\
        MotionDetector.computeBlockIndexFromCoordinates
          (Examples.collaborators true) point = (0, 0, 0)).
Proof.
  apply (buildBlock2PointMap_partition (Examples.collaborators true)
           Scene.cloud).
  vm_compute. discriminate.
Defined.

Lemma BlockwiseBuildVoxel2PointMap_effect_witness :
  exists vm' info',
    MotionDetector.BlockwiseBuildVoxel2PointMap Scene.detector Scene.layer
      (0, 0, 0) Scene.block2points_map Scene.cloud (∅, Scene.info)
    = Some (vm', info') /\
    (forall voxel_index : VoxelIndex,
        vm' !! voxel_index =
        PointIndex.appended
          ((∅ : HierarchicalIndexIntMap) !! voxel_index)
          (filter (fun i : nat =>
                     PointIndex.voxelIndexOf (Examples.collaborators true)
                       (0, 0, 0) Scene.cloud i = Some voxel_index)
             (default [] (Scene.block2points_map !! (0, 0, 0))))) /\
    (forall (i : nat) (p : MotionDetector.PointInfo),
        MotionDetector.points Scene.info !! i = Some p ->
        MotionDetector.points info' !! i =
        Some (if bool_decide
                   (i ∈ default [] (Scene.block2points_map !! (0, 0, 0)))
                 && PointIndex.everFreeAt (Examples.collaborators true)
                      (MotionDetector.voxels_per_side_ Scene.detector)
                      (Examples.block_of Examples.ever_free_voxel true)
                      (0, 0, 0) Scene.cloud i
              then MotionDetector.set_EverFree_level_dynamic true p
              else p)) /\
    length (MotionDetector.points info') =
    length (MotionDetector.points Scene.info).
Proof.
  apply (BlockwiseBuildVoxel2PointMap_effect Scene.detector Scene.layer
           (0, 0, 0) Scene.cloud
           (Examples.block_of Examples.ever_free_voxel true)
           Scene.block2points_map ∅ Scene.info).
  - reflexivity.
  - repeat constructor. by eexists.
Defined.

Lemma setUpVoxel2PointMap_flags_ever_free_points_witness :
  exists maps sh',
    MotionDetector.setUpVoxel2PointMap Scene.detector Scene.cloud
    = Some (maps, sh') /\
    MotionDetector.current_clusters_ sh' =
    MotionDetector.current_clusters_
      (MotionDetector.shared_ Scene.detector) /\
    length (MotionDetector.points
              (MotionDetector.point_classifications_ sh')) =
    length (MotionDetector.points
              (MotionDetector.point_classifications_
                 (MotionDetector.shared_ Scene.detector))) /\
    forall (i : nat) (p : MotionDetector.PointInfo),
      MotionDetector.points
        (MotionDetector.point_classifications_
           (MotionDetector.shared_ Scene.detector)) !! i = Some p ->
      MotionDetector.points (MotionDetector.point_classifications_ sh')
      !! i =
      Some (if PointIndex.pointEverFree (Examples.collaborators true)
                 (MotionDetector.voxels_per_side_ Scene.detector)
                 (MotionDetector.tsdf_layer_
                    (MotionDetector.shared_ Scene.detector))
                 Scene.cloud i
            then MotionDetector.set_EverFree_level_dynamic true p else p).
Proof.
  apply (setUpVoxel2PointMap_flags_ever_free_points Scene.detector
           Scene.cloud).
  - apply Examples_layer_wf.
  - apply Scene_valid.
  - simpl. lia.
  - reflexivity.
  - vm_compute. discriminate.
Defined.

Lemma setUpVoxel2PointMap_marks_occupied_witness :
  exists maps sh',
    MotionDetector.setUpVoxel2PointMap Scene.detector Scene.cloud
    = Some (maps, sh') /\
    (forall b : BlockIndex,
        Frame.updatedBit (MotionDetector.tsdf_layer_ sh') b =
        Frame.updatedBit
          (MotionDetector.tsdf_layer_
             (MotionDetector.shared_ Scene.detector)) b) /\
    forall (b : BlockIndex) (j : nat) (v : TsdfVoxel),
      Inv.voxelAtLinear
        (MotionDetector.tsdf_layer_
           (MotionDetector.shared_ Scene.detector)) b j = Some v ->
      Inv.voxelAtLinear (MotionDetector.tsdf_layer_ sh') b j =
      Some (if PointIndex.occupiedAt (Examples.collaborators true)
                 (MotionDetector.voxels_per_side_ Scene.detector)
                 Scene.cloud b j
            then PointIndex.occupiedNow
                   (MotionDetector.frame_counter_ Scene.detector) v
            else v).
Proof.
  apply (setUpVoxel2PointMap_marks_occupied Scene.detector Scene.cloud).
  - apply Examples_layer_wf.
  - apply Scene_valid.
  - simpl. lia.
  - reflexivity.
  - vm_compute. discriminate.
Defined.

Lemma setUpVoxel2PointMap_seeds_witness :
  exists maps sh',
    MotionDetector.setUpVoxel2PointMap Scene.detector Scene.cloud
    = Some (maps, sh') /\
    NoDup (MotionDetector.occupied_ever_free_voxel_indices maps) /\
    (forall key : VoxelKey,
        key ∈ MotionDetector.occupied_ever_free_voxel_indices maps <->
        PointIndex.everFreeKey
          (MotionDetector.voxels_per_side_ Scene.detector)
          (MotionDetector.tsdf_layer_
             (MotionDetector.shared_ Scene.detector)) key = true /\
        exists point,
          point ∈ Scene.cloud /\
          PointIndex.voxelKeyOf (Examples.collaborators true) point = key) /\
    (forall key : VoxelKey,
        key ∈ MotionDetector.occupied_ever_free_voxel_indices maps ->
        exists v' : TsdfVoxel,
          Voxblox.voxelAt (MotionDetector.voxels_per_side_ Scene.detector)
            (MotionDetector.tsdf_layer_ sh') key = Some v' /\
          ever_free v' = true /\
          curr_occupied v' = MotionDetector.frame_counter_ Scene.detector /\
          clustering_processed v' = false).
Proof.
  apply (setUpVoxel2PointMap_seeds Scene.detector Scene.cloud).
  - apply Examples_layer_wf.
  - apply Scene_valid.
  - simpl. lia.
  - reflexivity.
  - vm_compute. discriminate.
Defined.

Lemma setUpVoxel2PointMap_sorts_points_witness :
  exists maps sh',
    MotionDetector.setUpVoxel2PointMap Scene.detector Scene.cloud
    = Some (maps, sh') /\
    forall bi : BlockIndex,
      (PointIndex.pointsInBlock (Examples.collaborators true) Scene.cloud bi
       = [] ->
       MotionDetector.block2index_hash maps !! bi = None) /\
      (PointIndex.pointsInBlock (Examples.collaborators true) Scene.cloud bi
       <> [] ->
       exists (k : nat) (vm : HierarchicalIndexIntMap),
         MotionDetector.block2index_hash maps !! bi = Some k /\
         MotionDetector.blockwise_voxel2point_map maps !! k = Some vm /\
         forall vi : VoxelIndex,
           vm !! vi =
           match MotionDetector.tsdf_layer_
                   (MotionDetector.shared_ Scene.detector) !! bi,
                 PointIndex.pointsInVoxel (Examples.collaborators true)
                   Scene.cloud (bi, vi) with
           | Some _, i :: l => Some (i :: l)
           | _, _ => None
           end).
Proof.
  apply (setUpVoxel2PointMap_sorts_points Scene.detector Scene.cloud).
  - apply Examples_layer_wf.
  - apply Scene_valid.
  - simpl. lia.
  - reflexivity.
  - vm_compute. discriminate.
Defined.

(** ** A processed frame *)

Lemma pointcloudCallback_filters_dynamic_points_witness :
  let this := Examples.detector true
                (Examples.layer_of Examples.stale_counter_voxel
                   Examples.ever_free_voxel) in
  let msg := Examples.message in
  exists T_M_S : MotionDetector.StampedTransform
                   (Examples.collaborators true),
    MotionDetector.lookupTransform this
      (MotionDetector.global_frame_name (MotionDetector.config_ this))
      (MotionDetector.sensorFrameName (MotionDetector.config_ this) msg)
      (MotionDetector.stamp msg) = Some T_M_S /\
    let cloud :=
      (MotionDetector.processPointcloud (Examples.collaborators true) msg
         T_M_S).1 in
    let info :=
      MotionDetector.point_classifications_
        (MotionDetector.shared_ (MotionDetector.run this msg).1.2) in
    (length cloud <= length (MotionDetector.points info))%nat /\
    forall (i : nat) (p : MotionDetector.PointInfo),
      (i < length cloud)%nat ->
      MotionDetector.points info !! i = Some p ->
      MotionDetector.cluster_level_dynamic p = true ->
      MotionDetector.filtered_out p = true.
Proof.
  apply (pointcloudCallback_filters_dynamic_points
           (Examples.detector true
              (Examples.layer_of Examples.stale_counter_voxel
                 Examples.ever_free_voxel))
           Examples.message).
  vm_compute. reflexivity.
Defined.

(** ** Missing blocks *)

Section MissingBlocks.

Import Voxblox Inv EverFreeIntegrator.

Variable this : EverFreeIntegrator.t.
Variable frame_counter : Z.
Hypothesis Hsearch : search_valid this.

Let n : nat := voxels_per_side_ this.




End MissingBlocks.


